(** * Skyline Trips: a shallow embedding of the like/unlike reconciliation,
      the vacation services, the query builder and the report generator.

    The TypeScript sources are embedded as Rocq functions.  Promises are
    run to completion one after the other, so an [async] method becomes a
    function from the state of the world to a result and a new state; a
    thrown error is a result of its own, and the state it leaves behind is
    whatever had been written before the throw.

    Conventions:
    - a JavaScript [Date] is its time value, milliseconds since the epoch
      ([Z]); a missing date is [None];
    - an [ObjectId] is its hexadecimal string, 24 digits in lower case;
    - a JavaScript string is a Rocq [string] holding its UTF-8 bytes;
    - a property that may be [undefined] is an [option];
    - the clock is read once per call: a function that reads it takes the
      instant as its argument [now]. *)

From Stdlib Require Import ZArith QArith Qround Qcanon.
From Stdlib Require Import Ascii String DecimalString.
From Stdlib Require Import Sorting.Sorted Permutation.
From stdpp Require Import base option list list_numbers strings gmap sorting.

Local Open Scope Z_scope.
Local Open Scope string_scope.

(** ** JavaScript values *)

Definition ObjectId := string.

(** [s.length]: the number of UTF-16 code units of a string that is held
    as UTF-8 bytes.  A continuation byte adds nothing; the lead byte of a
    four-byte sequence stands for a character outside the basic plane, which
    takes two units; every other byte starts a character of one unit. *)
Fixpoint utf16_length (s : string) : nat :=
  match s with
  | EmptyString => 0%nat
  | String c rest =>
      let byte := nat_of_ascii c in
      ((if (128 <=? byte)%nat && (byte <? 192)%nat then 0
        else if (240 <=? byte)%nat then 2 else 1) + utf16_length rest)%nat
  end.

(** The cast of a string to an [ObjectId], as the database layer does it
    for the [_id] of a query: a string of 24 hexadecimal digits is the
    identifier it spells, whatever the case of its letters; any other string
    fails to cast. *)
Definition isHexDigit (c : ascii) : bool :=
  let n := nat_of_ascii c in
  ((48 <=? n)%nat && (n <=? 57)%nat) || ((65 <=? n)%nat && (n <=? 70)%nat)
  || ((97 <=? n)%nat && (n <=? 102)%nat).

Definition toLowerHex (c : ascii) : ascii :=
  let n := nat_of_ascii c in
  if (65 <=? n)%nat && (n <=? 70)%nat then ascii_of_nat (n + 32) else c.

Fixpoint allHex (s : string) : bool :=
  match s with
  | EmptyString => true
  | String c rest => isHexDigit c && allHex rest
  end.

Fixpoint lowerHex (s : string) : string :=
  match s with
  | EmptyString => EmptyString
  | String c rest => String (toLowerHex c) (lowerHex rest)
  end.

Definition castObjectId (value : string) : option ObjectId :=
  if (String.length value =? 24)%nat && allHex value then Some (lowerHex value)
  else None.

(** The IEEE number type, as far as the sources inspect it: not-a-number,
    the two infinities, and the finite values, which are rationals. *)
Inductive JSNumber :=
| NaN
| PosInfinity
| NegInfinity
| Finite (q : Qc).

Definition ofZ (z : Z) : JSNumber := Finite (Q2Qc (inject_Z z)).

(** [Number.isInteger]. *)
Definition Number_isInteger (n : JSNumber) : bool :=
  match n with
  | Finite q => bool_decide (Qden (this q) = 1%positive)
  | _ => false
  end.

(** [n > 0]. *)
Definition gt_zero (n : JSNumber) : bool :=
  match n with
  | Finite q => bool_decide (0 < Qnum (this q))
  | PosInfinity => true
  | _ => false
  end.

(** The integer a number denotes when it is one ([0] otherwise); used
    where a parsed page number serves as a count. *)
Definition toNat (n : JSNumber) : nat :=
  match n with
  | Finite q => if bool_decide (Qden (this q) = 1%positive)
                then Z.to_nat (Qnum (this q)) else 0%nat
  | _ => 0%nat
  end.

(** [Number.MAX_SAFE_INTEGER]: up to it, sums and products of integers are
    exact, and the database takes them for a skip or a limit. *)
Definition MAX_SAFE_INTEGER : Z := 2 ^ 53 - 1.

(** Values stored in plain objects ([toObject()], JSON bodies). *)
Inductive JSValue :=
| JUndefined
| JBool (b : bool)
| JNum (n : Z)
| JStr (s : string)
| JDate (t : Z)
| JIds (ids : list ObjectId).

(** The characters the report needs. *)
Definition dquote : string := String (ascii_of_nat 34) EmptyString.
Definition newline : string := String (ascii_of_nat 10) EmptyString.
(** U+FEFF, in UTF-8. *)
Definition BOM : string :=
  String (ascii_of_nat 239) (String (ascii_of_nat 187)
    (String (ascii_of_nat 191) EmptyString)).

(** [Array.prototype.join]. *)
Fixpoint join (sep : string) (parts : list string) : string :=
  match parts with
  | [] => ""
  | [p] => p
  | p :: rest => p ++ sep ++ join sep rest
  end.

(** Decimal rendering of a count, as a template literal prints it. *)
Definition decimal (n : nat) : string :=
  NilZero.string_of_uint (Nat.to_uint n).

(** * Frontend *)

Module Frontend.

(** Models/VacationModel.ts. *)
Record VacationModel := {
  _id : string;
  destination : option string;
  description : option string;
  startDate : option string;
  endDate : option string;
  price : option Z;
  likesCount : option Z;
  likedByMe : option bool;
  imageUrl : option string
}.

(** Truthiness of an optional boolean ([!!x]). *)
Definition truthy (b : option bool) : bool := default false b.

Module VacationSlice.

Definition initVacations (_state payload : list VacationModel) : list VacationModel :=
  payload.

Definition addVacation (state : list VacationModel) (payload : VacationModel)
  : list VacationModel :=
  state ++ [payload].

(** [state.findIndex(v => v._id === id)]: [None] stands for [-1]. *)
Fixpoint findIndex (id : string) (state : list VacationModel) : option nat :=
  match state with
  | [] => None
  | v :: rest => if String.eqb (_id v) id then Some 0%nat
                 else S <$> findIndex id rest
  end.

Definition updateVacation (state : list VacationModel) (payload : VacationModel)
  : list VacationModel :=
  match findIndex (_id payload) state with
  | None => state
  | Some index => <[index := payload]> state
  end.

Definition deleteVacation (state : list VacationModel) (payload : string)
  : list VacationModel :=
  filter (fun v => _id v ≠ payload) state.

(** The body of the [map] callback of [toggleLikeOptimistic]. *)
Definition toggleOne (payload : string) (vacation : VacationModel) : VacationModel :=
  if negb (String.eqb (_id vacation) payload) then vacation
  else
    let isLikedByMe := negb (truthy (likedByMe vacation)) in
    let nextLikesCount :=
      Z.max 0 (default 0 (likesCount vacation) + (if isLikedByMe then 1 else -1)) in
    {| _id := _id vacation;
       destination := destination vacation;
       description := description vacation;
       startDate := startDate vacation;
       endDate := endDate vacation;
       price := price vacation;
       likesCount := Some nextLikesCount;
       likedByMe := Some isLikedByMe;
       imageUrl := imageUrl vacation |}.

Definition toggleLikeOptimistic (state : list VacationModel) (payload : string)
  : list VacationModel :=
  map (toggleOne payload) state.

End VacationSlice.

(** Services/VacationService.ts, the like/unlike flow. *)
Module VacationService.

(** The two calls [toggleLike] can issue, with the vacation id of the URL. *)
Inductive Call :=
| AxiosDelete (id : string)
| AxiosPost (id : string).

(** What the network answers: the updated vacation, or a failure. *)
Definition Network := Call -> option VacationModel.

Inductive Outcome :=
| Resolved
| Rejected (message : string).

Definition toggleLike (net : Network) (vacations : list VacationModel) (id : string)
  : Outcome * list VacationModel :=
  let wasLiked :=
    match List.find (fun v => String.eqb (_id v) id) vacations with
    | Some v => truthy (likedByMe v)
    | None => false
    end in
  let optimistic := VacationSlice.toggleLikeOptimistic vacations id in
  match net (if wasLiked then AxiosDelete id else AxiosPost id) with
  | Some updated => (Resolved, VacationSlice.updateVacation optimistic updated)
  | None => (Rejected "Failed to toggle like",
             VacationSlice.toggleLikeOptimistic optimistic id)
  end.

End VacationService.

(** Utils/Date.ts, the two tests on a date range.  A date given as a
    string or a [Date] is the time value it converts to, [None] when it is
    no valid date; a comparison with an invalid date is false. *)
Module DateUtils.

Definition isActiveNow (now : Z) (start finish : option Z) : bool :=
  match start, finish with
  | Some s, Some e => (s <=? now)%Z && (now <=? e)%Z
  | _, _ => false
  end.

Definition isUpcoming (now : Z) (start : option Z) : bool :=
  match start with
  | Some s => (now <? s)%Z
  | None => false
  end.

End DateUtils.

(** Utils/Slideshow.ts, the Fisher-Yates shuffle.  [draw i] is the value of
    [Math.floor(Math.random() * (i + 1))] in the iteration with index [i]. *)
Module Slideshow.

(** The destructuring swap of the two elements at [i] and [j]; both indices
    are in range when the loop runs. *)
Definition swap {T} (a : list T) (i j : nat) : list T :=
  match a !! i, a !! j with
  | Some x, Some y => <[j := x]> (<[i := y]> a)
  | _, _ => a
  end.

(** The loop, from index [i] down to 1. *)
Fixpoint shuffleFrom {T} (draw : nat -> nat) (i : nat) (a : list T) : list T :=
  match i with
  | O => a
  | S k => shuffleFrom draw k (swap a (S k) (draw (S k)))
  end.

Definition shuffle {T} (draw : nat -> nat) (arr : list T) : list T :=
  shuffleFrom draw (length arr - 1) arr.

End Slideshow.

(** Utils/Interceptor.ts, the request interceptor: the header it sets from
    the token of the local storage ([None] when there is no token). *)
Module Interceptor.

Definition onRequest (token : option string) (authorization : option string)
  : option string :=
  match token with
  | Some t => if String.eqb t "" then authorization else Some ("Bearer " ++ t)
  | None => authorization
  end.

End Interceptor.

End Frontend.
(** * Backend *)

Module Backend.

(** ** models/role.ts, models/status-code.ts *)

Inductive Role := Admin | User.

(** The numeric value of an enum member. *)
Definition Role_value (r : Role) : Z :=
  match r with Admin => 1 | User => 2 end.

Inductive StatusCode :=
| OK | Created | NoContent | BadRequest | Unauthorized | Forbidden | NotFound
| InternalServerError.

Definition StatusCode_value (s : StatusCode) : Z :=
  match s with
  | OK => 200 | Created => 201 | NoContent => 204 | BadRequest => 400
  | Unauthorized => 401 | Forbidden => 403 | NotFound => 404
  | InternalServerError => 500
  end.

(** ** models/client-errors.ts

    The five client errors, and what else is thrown on the way to the
    catch-all middleware: the [CastError] of the database layer for the
    [_id] of a query that is no [ObjectId]; the duplicate-key error of the
    database; [Crash] for any other error that carries no status (a failing
    collaborator, a [TypeError]); and [Foreign] for an error of a library
    that carries a status of its own, as those of the body parser do. *)
Inductive AppError :=
| RouteNotFound (method route : string)
| ResourceNotFound (id : string)
| ValidationError (message : string)
| AuthorizationError (message : string)
| ForbiddenError (message : string)
| CastError (value : string)
| DuplicateKey (collection index key : string)
| Crash (message : string)
| Foreign (status : Z) (message : string).

(** [err.status]. *)
Definition error_status (e : AppError) : option Z :=
  match e with
  | RouteNotFound _ _ => Some (StatusCode_value NotFound)
  | ResourceNotFound _ => Some (StatusCode_value NotFound)
  | ValidationError _ => Some (StatusCode_value BadRequest)
  | AuthorizationError _ => Some (StatusCode_value Unauthorized)
  | ForbiddenError _ => Some (StatusCode_value Forbidden)
  | CastError _ | DuplicateKey _ _ _ | Crash _ => None
  | Foreign status _ => Some status
  end.

(** The wording of a failed cast and of a duplicate key is the library's
    and the database's; nothing below depends on it. *)
Definition castMessage (value reason : string) : string :=
  "Cast to ObjectId failed for value " ++ dquote ++ value ++ dquote
  ++ " (type string) at path " ++ dquote ++ "_id" ++ dquote ++ reason.

(** [err.message]. *)
Definition error_message (e : AppError) : string :=
  match e with
  | RouteNotFound method route =>
      "Route " ++ route ++ " on method " ++ method ++ " not found."
  | ResourceNotFound id => "_id " ++ id ++ " not found."
  | ValidationError m | AuthorizationError m | ForbiddenError m | Crash m
  | Foreign _ m => m
  | CastError value =>
      castMessage value (" for model " ++ dquote ++ "VacationModel" ++ dquote)
  | DuplicateKey collection index key =>
      "E11000 duplicate key error collection: " ++ collection ++ " index: " ++ index
      ++ " dup key: { " ++ key ++ " }"
  end.

Definition isValidationError (e : AppError) : bool :=
  match e with ValidationError _ => true | _ => false end.

(** ** The documents

    A record stands for a document as the model's constructor builds it
    from a body or as the database returns it: its values are cast, its
    strings trimmed.  Its [_id] is the lower-case hexadecimal string of the
    [ObjectId]; an [_id] that is no such string stands for a value that did
    not cast, which the validation reports. *)

(** vacation-model.ts.  [imageName] is the field of the revision that
    keeps images on disk, [imageUrl] and [imagePublicId] those of the
    revision that keeps them at the image host; [createdAt] and [updatedAt]
    are the two paths that [timestamps: true] adds to the schema.  Prices
    are whole numbers here; only the range check of the schema reads
    them. *)
Record IVacationModel := {
  _id : ObjectId;
  destination : option string;
  description : option string;
  startDate : option Z;
  endDate : option Z;
  price : option Z;
  imageName : option string;
  imageUrl : option string;
  imagePublicId : option string;
  likedUserIds : list ObjectId;
  createdAt : option Z;
  updatedAt : option Z
}.

(** user-model.ts, with the two paths of [timestamps: true].  [roleId] is
    the raw number of the payload. *)
Record IUserModel := {
  user_id : ObjectId;
  firstName : option string;
  lastName : option string;
  email : option string;
  password : option string;
  roleId : option Z;
  user_createdAt : option Z;
  user_updatedAt : option Z
}.

Definition set_likedUserIds (ids : list ObjectId) (v : IVacationModel) : IVacationModel :=
  {| _id := _id v; destination := destination v; description := description v;
     startDate := startDate v; endDate := endDate v; price := price v;
     imageName := imageName v; imageUrl := imageUrl v;
     imagePublicId := imagePublicId v; likedUserIds := ids;
     createdAt := createdAt v; updatedAt := updatedAt v |}.

Definition set_imageName (name : option string) (v : IVacationModel) : IVacationModel :=
  {| _id := _id v; destination := destination v; description := description v;
     startDate := startDate v; endDate := endDate v; price := price v;
     imageName := name; imageUrl := imageUrl v;
     imagePublicId := imagePublicId v; likedUserIds := likedUserIds v;
     createdAt := createdAt v; updatedAt := updatedAt v |}.

Definition set_timestamps (created updated : option Z) (v : IVacationModel)
  : IVacationModel :=
  {| _id := _id v; destination := destination v; description := description v;
     startDate := startDate v; endDate := endDate v; price := price v;
     imageName := imageName v; imageUrl := imageUrl v;
     imagePublicId := imagePublicId v; likedUserIds := likedUserIds v;
     createdAt := created; updatedAt := updated |}.

Definition set_updatedAt (updated : option Z) (v : IVacationModel) : IVacationModel :=
  set_timestamps (createdAt v) updated v.

(** ** Schema validation ([document.validateSync()])

    One message per failing path: first the cast of [_id], which fails when
    the document is built, then the validators in schema order.  A
    [required] string path rejects the empty string as well as a missing
    value; [minlength] and [maxlength] compare the [length] of the
    string. *)

Definition check_id (id : string) : list string :=
  if bool_decide (castObjectId id = Some id) then []
  else [castMessage id (" because of " ++ dquote ++ "BSONError" ++ dquote)].

Definition check_required_string (missing tooLong : string) (max : nat)
  (field : option string) : list string :=
  match field with
  | None => [missing]
  | Some s => if String.eqb s "" then [missing]
              else if bool_decide (max < utf16_length s)%nat then [tooLong]
              else []
  end.

Definition check_required {A} (missing : string) (field : option A) : list string :=
  match field with None => [missing] | Some _ => [] end.

Definition check_price (field : option Z) : list string :=
  match field with
  | None => ["Missing price."]
  | Some p => if (p <? 0)%Z then ["Price can't be negative."]
              else if (10000 <? p)%Z then ["Price can't exceed 10000."]
              else []
  end.

(** The vacation schema of the revision with [imageName]. *)
Definition validateSync (v : IVacationModel) : list string :=
  check_id (_id v)
  ++ check_required_string "Missing destination." "Destination too long." 100
    (destination v)
  ++ check_required_string "Missing description." "Description too long." 1000
    (description v)
  ++ check_required "Missing start date." (startDate v)
  ++ check_required "Missing end date." (endDate v)
  ++ check_price (price v).

(** ** The world: the two collections, the image store and a log of the
    calls the services make to the model of the vacations and to the image
    store, in the order they are made; a call that fails is in the log as
    well

    The database and the disk are taken to be reachable: a call to them
    fails only for what it is given (an [_id] that does not cast, a key the
    collection holds already).  The image host of the other revision can be
    out of reach, which [imageStoreUp] says. *)

Inductive Event :=
| DbFindById (id : string)
| DbSave (id : ObjectId)
| DbFindByIdAndUpdate (id : string)
| DbFindByIdAndDelete (id : string)
| DbAddToSet (id : string) (user : ObjectId)
| DbPull (id : string) (user : ObjectId)
| ImageAdd (name : string)
| ImageUpdate (old new : string)
| ImageDelete (name : string).

Record World := {
  vacations : list IVacationModel;
  users : list IUserModel;
  images : list string;
  imageStoreUp : bool;
  log : list Event
}.

Definition with_vacations (vs : list IVacationModel) (w : World) : World :=
  {| vacations := vs; users := users w; images := images w;
     imageStoreUp := imageStoreUp w; log := log w |}.

Definition with_users (us : list IUserModel) (w : World) : World :=
  {| vacations := vacations w; users := us; images := images w;
     imageStoreUp := imageStoreUp w; log := log w |}.

Definition with_images (im : list string) (w : World) : World :=
  {| vacations := vacations w; users := users w; images := im;
     imageStoreUp := imageStoreUp w; log := log w |}.

Definition record (e : Event) (w : World) : World :=
  {| vacations := vacations w; users := users w; images := images w;
     imageStoreUp := imageStoreUp w; log := log w ++ [e] |}.

(** ** Awaited computations: a state monad with errors *)

Definition Async (A : Type) : Type := World -> (AppError + A) * World.

Definition resolve {A} (a : A) : Async A := fun w => (inr a, w).
Definition throw {A} (e : AppError) : Async A := fun w => (inl e, w).

Definition await {A B} (m : Async A) (k : A -> Async B) : Async B :=
  fun w =>
    match m w with
    | (inl e, w') => (inl e, w')
    | (inr a, w') => k a w'
    end.

Notation "x <- m ;; k" := (await m (fun x => k))
  (at level 100, m at next level, right associativity, only parsing).
Notation "m ;;; k" := (await m (fun _ => k))
  (at level 100, right associativity, only parsing).

Definition tell (e : Event) : Async unit := fun w => (inr tt, record e w).

(** [ValidationError.validate]. *)
Definition validate (v : IVacationModel) : Async unit :=
  match validateSync v with
  | [] => resolve tt
  | messages => throw (ValidationError (join " " messages))
  end.

(** ** The vacation collection

    The [_id] of a query is [string | ObjectId]: it is cast before the
    database is asked, and a string that does not cast makes the call throw
    a [CastError]; the call is in the log all the same.  A query that writes
    stamps [updatedAt], as [timestamps: true] has it. *)

Definition has_id (id : ObjectId) (v : IVacationModel) : bool :=
  String.eqb (_id v) id.

Definition findById (id : string) : Async (option IVacationModel) :=
  fun w =>
    match castObjectId id with
    | None => (inl (CastError id), record (DbFindById id) w)
    | Some oid =>
        (inr (List.find (has_id oid) (vacations w)), record (DbFindById id) w)
    end.

(** Apply [f] to the first document with the id. *)
Fixpoint update_first (id : ObjectId) (f : IVacationModel -> IVacationModel)
  (vs : list IVacationModel) : list IVacationModel :=
  match vs with
  | [] => []
  | v :: rest => if has_id id v then f v :: rest
                 else v :: update_first id f rest
  end.

Fixpoint remove_first (id : ObjectId) (vs : list IVacationModel) : list IVacationModel :=
  match vs with
  | [] => []
  | v :: rest => if has_id id v then rest else v :: remove_first id rest
  end.

(** [findByIdAndUpdate(id, update, { new: true })]: the updated document,
    [updatedAt] included. *)
Definition findByIdAndUpdate (e : Event) (id : string) (now : Z)
  (f : IVacationModel -> IVacationModel) : Async (option IVacationModel) :=
  fun w =>
    match castObjectId id with
    | None => (inl (CastError id), record e w)
    | Some oid =>
        let write := fun v => set_updatedAt (Some now) (f v) in
        (inr (write <$> List.find (has_id oid) (vacations w)),
         record e (with_vacations (update_first oid write (vacations w)) w))
    end.

Definition findByIdAndDelete (id : string) : Async (option IVacationModel) :=
  fun w =>
    match castObjectId id with
    | None => (inl (CastError id), record (DbFindByIdAndDelete id) w)
    | Some oid =>
        (inr (List.find (has_id oid) (vacations w)),
         record (DbFindByIdAndDelete id)
           (with_vacations (remove_first oid (vacations w)) w))
    end.

(** [vacation.save()] of a new document: the database refuses a second
    document with an [_id] it holds; otherwise the document is stored with
    its two time stamps, [createdAt] being the one the document came with,
    if it came with one, and [updatedAt] the same instant. *)
Definition save (now : Z) (v : IVacationModel) : Async IVacationModel :=
  fun w =>
    if existsb (has_id (_id v)) (vacations w)
    then (inl (DuplicateKey "vacations" "_id_" ("_id: ObjectId('" ++ _id v ++ "')")),
          record (DbSave (_id v)) w)
    else
      let created := default now (createdAt v) in
      let stored := set_timestamps (Some created) (Some created) v in
      (inr stored,
       record (DbSave (_id v)) (with_vacations (vacations w ++ [stored]) w)).

(** The order of [sort({ startDate: 1 })]: ascending, a document without a
    start date before the others. *)
Definition startDate_le (a b : IVacationModel) : Prop :=
  match startDate a, startDate b with
  | None, _ => True
  | Some _, None => False
  | Some x, Some y => (x <= y)%Z
  end.

#[global] Instance startDate_le_dec : RelDecision startDate_le.
Proof.
  intros a b. unfold startDate_le.
  destruct (startDate a), (startDate b); apply _.
Defined.

Section Platform.

(** What the platform supplies to the utilities: the [Number] conversion
    and the configured base address of the images. *)
Variable Number : option string -> JSNumber.
Variable baseImageUrl : string.

(** ** utils/pagination.ts *)

Definition parsePage (value : option string) : JSNumber :=
  let page := Number value in
  if Number_isInteger page && gt_zero page then page else ofZ 1.

Definition parsePageSize (value : option string) : JSNumber :=
  let size := Number value in
  if Number_isInteger size && gt_zero size then size else ofZ 9.

(** ** utils/filter.ts

    [None] is a value that is not a string. *)
Definition parseFilter (value : option string) : string :=
  match value with
  | Some s => if bool_decide (s ∈ ["all"; "liked"; "active"; "upcoming"])
              then s else "all"
  | None => "all"
  end.

(** ** utils/filter-query.ts

    A query is the list of the properties of the filter object: a path and
    the condition on it.  The user is [ObjectId | null]: an object when
    present, hence truthy. *)
Inductive Cond :=
| Eq (id : ObjectId)
| Lte (t : Z)
| Gte (t : Z)
| Gt (t : Z).

Definition buildVacationQuery (filter : string) (userId : option ObjectId) (now : Z)
  : list (string * Cond) :=
  if String.eqb filter "liked" then
    match userId with
    | Some id => [("likedUserIds", Eq id)]
    | None => []
    end
  else if String.eqb filter "active" then
    [("startDate", Lte now); ("endDate", Gte now)]
  else if String.eqb filter "upcoming" then
    [("startDate", Gt now)]
  else [].

(** How the database reads a query: every property must hold; an array
    path equals a value when the value is one of its elements; a comparison
    with a missing date fails. *)
Definition datePath (path : string) (v : IVacationModel) : option Z :=
  if String.eqb path "startDate" then startDate v
  else if String.eqb path "endDate" then endDate v
  else None.

Definition holds (v : IVacationModel) (c : string * Cond) : bool :=
  match c with
  | (path, Eq id) =>
      String.eqb path "likedUserIds" && bool_decide (id ∈ likedUserIds v)
  | (path, Lte t) => from_option (fun d => d <=? t)%Z false (datePath path v)
  | (path, Gte t) => from_option (fun d => t <=? d)%Z false (datePath path v)
  | (path, Gt t) => from_option (fun d => t <? d)%Z false (datePath path v)
  end.

Definition matches (query : list (string * Cond)) (v : IVacationModel) : bool :=
  forallb (holds v) query.

(** ** utils/vacation-serializer.ts *)

Definition put (key : string) (value : option JSValue) (o : gmap string JSValue)
  : gmap string JSValue :=
  match value with
  | Some x => <[key := x]> o
  | None => o
  end.

(** [String(x)] of an optional string. *)
Definition String_ (x : option string) : string := default "undefined" x.

(** [vacation.toObject({ virtuals: true })]: the stored paths that are
    set, and the virtual [imageUrl]. *)
Definition toObject (v : IVacationModel) : gmap string JSValue :=
  put "createdAt" (JDate <$> createdAt v)
    (put "updatedAt" (JDate <$> updatedAt v)
      (put "destination" (JStr <$> destination v)
        (put "description" (JStr <$> description v)
          (put "startDate" (JDate <$> startDate v)
            (put "endDate" (JDate <$> endDate v)
              (put "price" (JNum <$> price v)
                (put "imageName" (JStr <$> imageName v)
                  (<["imageUrl" := JStr (baseImageUrl ++ String_ (imageName v))]>
                    (<["likedUserIds" := JIds (likedUserIds v)]>
                      (<["_id" := JStr (_id v)]> ∅)))))))))).

Definition serializeVacation (vacation : IVacationModel) (userId : string)
  : gmap string JSValue :=
  let vacationObj := toObject vacation in
  let likedByMe :=
    match vacationObj !! "likedUserIds" with
    | Some (JIds ids) => JBool (existsb (fun id => String.eqb id userId) ids)
    | _ => JUndefined
    end in
  let likesCount :=
    match vacationObj !! "likedUserIds" with
    | Some (JIds ids) => JNum (Z.of_nat (length ids))
    | _ => JNum 0
    end in
  let _id := default JUndefined (vacationObj !! "_id") in
  let vacationObj := delete "likedUserIds" vacationObj in
  <["likesCount" := likesCount]>
    (<["likedByMe" := likedByMe]> (<["_id" := _id]> vacationObj)).

Definition serializeVacations (vacations : list IVacationModel) (userId : string)
  : list (gmap string JSValue) :=
  map (fun v => serializeVacation v userId) vacations.

End Platform.

(** ** The image store

    An uploaded file is named by the name it is stored under. *)
Definition UploadedFile := string.

Definition fileSaver_add (image : UploadedFile) : Async string :=
  fun w => (inr image, record (ImageAdd image) (with_images (images w ++ [image]) w)).

Definition fileSaver_update (old : option string) (image : UploadedFile) : Async string :=
  fun w =>
    (inr image,
     record (ImageUpdate (String_ old) image)
       (with_images (filter (fun n => Some n ≠ old) (images w) ++ [image]) w)).

Definition fileSaver_delete (name : string) : Async unit :=
  fun w =>
    (inr tt,
     record (ImageDelete name) (with_images (filter (fun n => n ≠ name) (images w)) w)).

(** [cloudinary.uploader.destroy]: the call throws when the image host
    cannot be reached or no identifier is given. *)
Definition cloudinary_destroy (publicId : option string) : Async unit :=
  fun w =>
    match publicId with
    | None => (inl (Crash "Missing required parameter - public_id"), w)
    | Some name =>
        if imageStoreUp w then fileSaver_delete name w
        else (inl (Crash "image host unreachable"), w)
    end.

(** [a < b] on two dates; a comparison with a missing date is false. *)
Definition date_lt (a b : option Z) : bool :=
  match a, b with
  | Some x, Some y => (x <? y)%Z
  | _, _ => false
  end.

Definition msPerDay : Z := 86400000.

(** [d.setHours(0, 0, 0, 0)]: local midnight of the day of [t], for a
    server whose clock is [tz] milliseconds ahead of UTC. *)
Definition setHours0 (tz t : Z) : Z := (t + tz) / msPerDay * msPerDay - tz.

(** ** 4-services/vacation-service.ts

    [page] and [pageSize] are the positive integers [parsePage] and
    [parsePageSize] return, and [userId] is an [ObjectId] or null, as the
    signatures declare.  The retrieval is modelled for the numbers whose
    products are exact and which the database takes for a skip and a limit
    (up to [MAX_SAFE_INTEGER]); what the database does with a limit of
    zero, or with a skip or a limit beyond its range, is not modelled. *)

Module VacationService.

Definition getVacations (now : Z) (filter : string) (userId : option ObjectId)
  (page pageSize : nat) : Async (list IVacationModel * nat) :=
  fun w =>
    let query := buildVacationQuery filter userId now in
    let totalCount := length (List.filter (matches query) (vacations w)) in
    let vacations :=
      take pageSize
        (drop ((page - 1) * pageSize)
          (merge_sort startDate_le (List.filter (matches query) (vacations w)))) in
    (inr (vacations, totalCount), w).

Definition getOneVacation (id : string) : Async IVacationModel :=
  vacation <- findById id ;;
  match vacation with
  | None => throw (ResourceNotFound id)
  | Some v => resolve v
  end.

Definition getImageName (id : string) : Async (option string) :=
  vacation <- getOneVacation id ;;
  resolve (imageName vacation).

Definition addVacation (now tz : Z) (vacation : IVacationModel)
  (image : option UploadedFile) : Async IVacationModel :=
  validate vacation ;;;
  let today := setHours0 tz now in
  let start := setHours0 tz <$> startDate vacation in
  if date_lt start (Some today) then
    throw (ValidationError "Start date cannot be in the past.")
  else if date_lt (endDate vacation) (startDate vacation) then
    throw (ValidationError "End date must be after start date.")
  else
    vacation <- match image with
                | Some file => name <- fileSaver_add file ;;
                               resolve (set_imageName (Some name) vacation)
                | None => resolve vacation
                end ;;
    save now vacation.

(** [{ $set: updateData }]: every path the new document sets, except
    [likedUserIds]; the database layer takes [createdAt] out of the update
    and sets [updatedAt] itself. *)
Definition set_updateData (new old : IVacationModel) : IVacationModel :=
  {| _id := _id old;
     destination := from_option Some (destination old) (destination new);
     description := from_option Some (description old) (description new);
     startDate := from_option Some (startDate old) (startDate new);
     endDate := from_option Some (endDate old) (endDate new);
     price := from_option Some (price old) (price new);
     imageName := from_option Some (imageName old) (imageName new);
     imageUrl := imageUrl old;
     imagePublicId := imagePublicId old;
     likedUserIds := likedUserIds old;
     createdAt := createdAt old;
     updatedAt := updatedAt old |}.

Definition updateVacation (now : Z) (vacation : IVacationModel)
  (image : option UploadedFile) : Async IVacationModel :=
  validate vacation ;;;
  if date_lt (endDate vacation) (startDate vacation) then
    throw (ValidationError "End date must be after start date.")
  else
    vacation <- match image with
                | Some file =>
                    oldImageName <- getImageName (_id vacation) ;;
                    name <- fileSaver_update oldImageName file ;;
                    resolve (set_imageName (Some name) vacation)
                | None => resolve vacation
                end ;;
    dbVacation <- findByIdAndUpdate (DbFindByIdAndUpdate (_id vacation))
                    (_id vacation) now (set_updateData vacation) ;;
    match dbVacation with
    | None => throw (ResourceNotFound (_id vacation))
    | Some v => resolve v
    end.

Definition deleteVacation (id : string) : Async unit :=
  oldImageName <- getImageName id ;;
  dbVacation <- findByIdAndDelete id ;;
  match dbVacation with
  | None => throw (ResourceNotFound id)
  | Some _ =>
      match oldImageName with
      | Some name => if String.eqb name "" then resolve tt else fileSaver_delete name
      | None => resolve tt
      end
  end.

(** [$addToSet] and [$pull] on the array of ids. *)
Definition addToSet (user : ObjectId) (ids : list ObjectId) : list ObjectId :=
  if bool_decide (user ∈ ids) then ids else ids ++ [user].

Definition pull (user : ObjectId) (ids : list ObjectId) : list ObjectId :=
  filter (fun id => id ≠ user) ids.

Definition likeVacation (now : Z) (vacationId : string) (userId : ObjectId)
  : Async IVacationModel :=
  vacation <- findByIdAndUpdate (DbAddToSet vacationId userId) vacationId now
                (fun v => set_likedUserIds (addToSet userId (likedUserIds v)) v) ;;
  match vacation with
  | None => throw (ResourceNotFound vacationId)
  | Some v => resolve v
  end.

Definition unlikeVacation (now : Z) (vacationId : string) (userId : ObjectId)
  : Async IVacationModel :=
  vacation <- findByIdAndUpdate (DbPull vacationId userId) vacationId now
                (fun v => set_likedUserIds (pull userId (likedUserIds v)) v) ;;
  match vacation with
  | None => throw (ResourceNotFound vacationId)
  | Some v => resolve v
  end.

(** The global [replace] of the report: every double quote is doubled. *)
Fixpoint escapeQuotes (s : string) : string :=
  match s with
  | EmptyString => EmptyString
  | String c rest =>
      if Ascii.eqb c (ascii_of_nat 34) then String c (String c (escapeQuotes rest))
      else String c (escapeQuotes rest)
  end.

Definition csvRow (v : IVacationModel) : string :=
  let destination := dquote ++ escapeQuotes (String_ (destination v)) ++ dquote in
  let likes := length (likedUserIds v) in
  destination ++ "," ++ decimal likes.

Definition generateVacationsReportCSV : Async string :=
  fun w =>
    let vacations := vacations w in
    let header := "destination,likes" in
    let rows := map csvRow vacations in
    let csv := join newline (header :: rows) in
    (inr (BOM ++ csv), w).

Definition getVacationsReport : Async (list (option string * nat)) :=
  fun w => (inr (map (fun v => (destination v, length (likedUserIds v))) (vacations w)), w).

End VacationService.

(** ** services/vacation-service.ts, the revision that keeps the images at
    the image host: its [deleteVacation] *)

Module CloudVacationService.

Definition deleteVacation (id : string) : Async unit :=
  existingVacation <- findById id ;;
  match existingVacation with
  | None => throw (ResourceNotFound id)
  | Some existing =>
      cloudinary_destroy (imagePublicId existing) ;;;
      _ <- findByIdAndDelete id ;;
      resolve tt
  end.

End CloudVacationService.

(** ** 4-services/user-service.ts *)

Module UserService.

Section Register.

(** The keyed hash, the token signer and the test of the e-mail pattern
    come from libraries.  The signer stamps the token with the instant it
    is issued at, from which its expiry is counted. *)
Variable hash : string -> string.
Variable jwt_sign : Z -> IUserModel -> string.
Variable emailFormat : string -> bool.

Definition check_length (missing tooShort tooLong : string) (min max : nat)
  (field : option string) : list string :=
  match field with
  | None => [missing]
  | Some s => if String.eqb s "" then [missing]
              else if bool_decide (utf16_length s < min)%nat then [tooShort]
              else if bool_decide (max < utf16_length s)%nat then [tooLong]
              else []
  end.

(** The user schema.  The wording of the enum message is the library's. *)
Definition validateUserSync (u : IUserModel) : list string :=
  check_id (user_id u)
  ++ check_length "Missing first name." "First name too short." "First name too long."
    2 50 (firstName u)
  ++ check_length "Missing last name." "Last name too short." "Last name too long."
    2 50 (lastName u)
  ++ match email u with
     | None => ["Missing email."]
     | Some e => if String.eqb e "" then ["Missing email."]
                 else if emailFormat e then [] else ["Invalid email format."]
     end
  ++ check_length "Missing password." "Password must be at least 4 characters long."
    "Password too long." 4 128 (password u)
  ++ match roleId u with
     | None => []
     | Some r => if bool_decide (r = Role_value Admin \/ r = Role_value User)
                 then [] else ["roleId is not a valid enum value."]
     end.

Definition validateUser (u : IUserModel) : Async unit :=
  match validateUserSync u with
  | [] => resolve tt
  | messages => throw (ValidationError (join " " messages))
  end.

Definition countDocuments_email (e : option string) : Async nat :=
  fun w => (inr (length (List.filter (fun u => bool_decide (email u = e)) (users w))), w).

(** [user.save()] of a new document: the database refuses a second
    document with an [_id] it holds, and the unique index on [email] a second
    one with an address it holds; otherwise the document is stored with its
    two time stamps. *)
Definition saveUser (now : Z) (u : IUserModel) : Async IUserModel :=
  fun w =>
    if existsb (fun x => String.eqb (user_id x) (user_id u)) (users w)
    then (inl (DuplicateKey "users" "_id_" ("_id: ObjectId('" ++ user_id u ++ "')")), w)
    else if existsb (fun x => bool_decide (email x = email u)) (users w)
    then (inl (DuplicateKey "users" "email_1"
                 ("email: " ++ dquote ++ String_ (email u) ++ dquote)), w)
    else
      let created := default now (user_createdAt u) in
      let stored :=
        {| user_id := user_id u; firstName := firstName u; lastName := lastName u;
           email := email u; password := password u; roleId := roleId u;
           user_createdAt := Some created; user_updatedAt := Some created |} in
      (inr stored, with_users (users w ++ [stored]) w).

Definition set_role_and_password (r : Z) (pw : string) (u : IUserModel) : IUserModel :=
  {| user_id := user_id u; firstName := firstName u; lastName := lastName u;
     email := email u; password := Some pw; roleId := Some r;
     user_createdAt := user_createdAt u; user_updatedAt := user_updatedAt u |}.

(** [cyber.generateToken]: the signed user carries no password. *)
Definition generateToken (now : Z) (u : IUserModel) : string :=
  jwt_sign now
    {| user_id := user_id u; firstName := firstName u; lastName := lastName u;
       email := email u; password := None; roleId := roleId u;
       user_createdAt := user_createdAt u; user_updatedAt := user_updatedAt u |}.

Definition register (now : Z) (user : IUserModel) : Async string :=
  validateUser user ;;;
  match password user with
  | None => throw (ValidationError "Password is required")
  | Some pw =>
      if String.eqb pw "" then throw (ValidationError "Password is required")
      else
        count <- countDocuments_email (email user) ;;
        if bool_decide (0 < count)%nat then throw (ValidationError "Email already taken")
        else
          let user := set_role_and_password (Role_value User) (hash pw) user in
          savedUser <- saveUser now user ;;
          resolve (generateToken now savedUser)
  end.

(** credentials-model.ts *)
Record ICredentialsModel := {
  cred_email : option string;
  cred_password : option string
}.

Definition validateCredentialsSync (c : ICredentialsModel) : list string :=
  match cred_email c with
  | None => ["Missing email."]
  | Some e => if String.eqb e "" then ["Missing email."]
              else if emailFormat e then [] else ["Invalid email format."]
  end
  ++ check_length "Missing password." "Password must be at least 4 characters long."
    "Password too long." 4 128 (cred_password c).

Definition validateCredentials (c : ICredentialsModel) : Async unit :=
  match validateCredentialsSync c with
  | [] => resolve tt
  | messages => throw (ValidationError (join " " messages))
  end.

(** [UserModel.findOne({ email, password })]. *)
Definition findOneUser (e pw : option string) : Async (option IUserModel) :=
  fun w =>
    (inr (List.find (fun u => bool_decide (email u = e /\ password u = pw)) (users w)),
     w).

Definition login (now : Z) (credentials : ICredentialsModel) : Async string :=
  validateCredentials credentials ;;;
  match cred_password credentials with
  | None => throw (Crash "The data argument must be of type string")
  | Some pw =>
      dbUser <- findOneUser (cred_email credentials) (Some (hash pw)) ;;
      match dbUser with
      | None => throw (AuthorizationError "Incorrect email or password.")
      | Some u => resolve (generateToken now u)
      end
  end.

End Register.

End UserService.

(** ** middleware and controllers *)

Module Controller.

Record Request := {
  authorization : option string;
  params_id : string;
  query_filter : option string;
  query_page : option string;
  query_pageSize : option string
}.

Inductive Body :=
| NoBody
| JsonMessage (message : string)
| JsonVacation (o : gmap string JSValue)
| JsonPage (vacations : list (gmap string JSValue))
    (page pageSize totalCount totalPages : nat)
| JsonReport (entries : list (option string * nat))
| CsvFile (name text : string).

Record Response := { status : Z; body : Body }.

(** [Math.ceil(totalCount / pageSize)], on exact quotients. *)
Definition Math_ceil_div (totalCount pageSize : nat) : nat :=
  Z.to_nat (Qceiling (inject_Z (Z.of_nat totalCount) / inject_Z (Z.of_nat pageSize))).

(** What [response.locals.user] holds: nothing before [verifyToken] has
    run. *)
Definition Locals := option IUserModel.

(** A middleware: [inl err] is [next(err)], [inr locals] is [next()]. *)
Definition Middleware := Request -> Locals -> AppError + Locals.

Definition Handler := Request -> Locals -> Async Response.

(** One call of [router.<method>(path, ...middlewares, handler)]. *)
Record Registration := {
  method : string;
  path : string;
  middlewares : list Middleware;
  handler : Handler
}.

(** The [TypeError] of a property read on [undefined]. *)
Definition undefinedRead (property : string) : AppError :=
  Crash ("Cannot read properties of undefined (reading '" ++ property ++ "')").

Section Routes.

Variable Number : option string -> JSNumber.
Variable baseImageUrl : string.
Variable jwt_verify : string -> option IUserModel.
Variable isProduction : bool.

(** error-middleware.ts: [err.status || 500] takes a status that is
    missing, or zero, for 500. *)
Definition catchAll (err : AppError) : Response :=
  let status :=
    match error_status err with
    | Some status => if (status =? 0)%Z then StatusCode_value InternalServerError
                     else status
    | None => StatusCode_value InternalServerError
    end in
  let isCrash := (500 <=? status)%Z && (status <=? 599)%Z in
  let message :=
    if isProduction && isCrash then "Some error, please try again."
    else error_message err in
  {| status := status; body := JsonMessage message |}.

(** security-middleware.ts and cyber.ts: the user of a valid bearer token
    becomes [response.locals.user]. *)
Definition decodeToken (token : option string) : AppError + IUserModel :=
  match token with
  | None => inl (AuthorizationError "Token missing")
  | Some t =>
      if String.eqb t "" then inl (AuthorizationError "Token missing")
      else match jwt_verify t with
           | Some user => inr user
           | None => inl (AuthorizationError "Invalid or expired token")
           end
  end.

Definition verifyToken (request : Request) : AppError + IUserModel :=
  let auth := default "" (authorization request) in
  let token :=
    if String.prefix "Bearer " auth
    then Some (String.substring 7 (String.length auth - 7) auth)
    else None in
  decodeToken token.

Definition securityMiddleware_verifyToken : Middleware := fun request _ =>
  match verifyToken request with
  | inl err => inl err
  | inr user => inr (Some user)
  end.

Definition verifyAdmin : Middleware := fun _ locals =>
  match locals with
  | None => inl (AuthorizationError "Unauthorized")
  | Some user =>
      if bool_decide (roleId user = Some (Role_value Admin)) then inr locals
      else inl (ForbiddenError "You are not authorized.")
  end.

(** role-middleware.ts *)
Definition preventAdminLike : Middleware := fun _ locals =>
  match locals with
  | None => inl (undefinedRead "roleId")
  | Some user =>
      if bool_decide (roleId user = Some (Role_value Admin))
      then inl (ForbiddenError "Admin cannot like vacations.")
      else inr locals
  end.

(** The middlewares of a registration, one after the other, up to the
    first that passes an error on. *)
Fixpoint through (chain : list Middleware) (request : Request) (locals : Locals)
  : AppError + Locals :=
  match chain with
  | [] => inr locals
  | m :: rest => match m request locals with
                 | inl err => inl err
                 | inr locals' => through rest request locals'
                 end
  end.

(** A registered route, with the catch-all error middleware behind it. *)
Definition route (chain : list Middleware) (h : Handler) (request : Request)
  : World -> Response * World :=
  fun w =>
    match through chain request None with
    | inl err => (catchAll err, w)
    | inr locals =>
        match h request locals w with
        | (inl err, w') => (catchAll err, w')
        | (inr response, w') => (response, w')
        end
    end.

Definition answer (r : Registration) : Request -> World -> Response * World :=
  route (middlewares r) (handler r).

Definition json (status : StatusCode) (b : Body) : Response :=
  {| status := StatusCode_value status; body := b |}.

(** vacation-controller.ts: the handlers, first as they run once
    [response.locals.user] is set. *)
Definition getVacations (now : Z) (request : Request) (user : IUserModel)
  : Async Response :=
  let filter := parseFilter (query_filter request) in
  let page := toNat (parsePage Number (query_page request)) in
  let pageSize := toNat (parsePageSize Number (query_pageSize request)) in
  let userId := user_id user in
  r <- VacationService.getVacations now filter (Some userId) page pageSize ;;
  let '(vacations, totalCount) := r in
  resolve (json OK
    (JsonPage (serializeVacations baseImageUrl vacations userId)
       page pageSize totalCount (Math_ceil_div totalCount pageSize))).

Definition getOneVacation (request : Request) (user : IUserModel) : Async Response :=
  vacation <- VacationService.getOneVacation (params_id request) ;;
  resolve (json OK (JsonVacation (serializeVacation baseImageUrl vacation (user_id user)))).

Definition likeVacation (now : Z) (request : Request) (user : IUserModel)
  : Async Response :=
  v <- VacationService.likeVacation now (params_id request) (user_id user) ;;
  resolve (json OK (JsonVacation (serializeVacation baseImageUrl v (user_id user)))).

Definition unlikeVacation (now : Z) (request : Request) (user : IUserModel)
  : Async Response :=
  v <- VacationService.unlikeVacation now (params_id request) (user_id user) ;;
  resolve (json OK (JsonVacation (serializeVacation baseImageUrl v (user_id user)))).

Definition deleteVacation (request : Request) : Async Response :=
  VacationService.deleteVacation (params_id request) ;;;
  resolve (json NoContent NoBody).

(** The two report handlers catch what the service throws. *)
Definition getReportCSV : Async Response :=
  fun w =>
    match VacationService.generateVacationsReportCSV w with
    | (inr csvData, w') => (inr (json OK (CsvFile "vacations-report.csv" csvData)), w')
    | (inl _, w') =>
        (inr (json InternalServerError (JsonMessage "Failed to generate CSV report.")),
         w')
    end.

Definition getReportJSON : Async Response :=
  fun w =>
    match VacationService.getVacationsReport w with
    | (inr report, w') => (inr (json OK (JsonReport report)), w')
    | (inl _, w') =>
        (inr (json InternalServerError (JsonMessage "Failed to generate report.")), w')
    end.

(** The handlers as they are registered: what they do when no middleware
    has set [response.locals.user] is what the property reads on
    [undefined] make of it.  [getVacations] reads the user with [?.]: it
    retrieves for no user, and serializing throws at the first vacation that
    has a like to compare. *)
Definition getVacationsHandler (now : Z) : Handler := fun request locals =>
  match locals with
  | Some user => getVacations now request user
  | None =>
      let filter := parseFilter (query_filter request) in
      let page := toNat (parsePage Number (query_page request)) in
      let pageSize := toNat (parsePageSize Number (query_pageSize request)) in
      r <- VacationService.getVacations now filter None page pageSize ;;
      let '(vacations, totalCount) := r in
      if forallb (fun v => match likedUserIds v with [] => true | _ => false end)
           vacations
      then
        resolve (json OK
          (JsonPage (serializeVacations baseImageUrl vacations "")
             page pageSize totalCount (Math_ceil_div totalCount pageSize)))
      else throw (undefinedRead "toString")
  end.

Definition getOneVacationHandler : Handler := fun request locals =>
  match locals with
  | Some user => getOneVacation request user
  | None =>
      _ <- VacationService.getOneVacation (params_id request) ;;
      throw (undefinedRead "_id")
  end.

Definition likeVacationHandler (now : Z) : Handler := fun request locals =>
  match locals with
  | Some user => likeVacation now request user
  | None => throw (undefinedRead "_id")
  end.

Definition unlikeVacationHandler (now : Z) : Handler := fun request locals =>
  match locals with
  | Some user => unlikeVacation now request user
  | None => throw (undefinedRead "_id")
  end.

Definition deleteVacationHandler : Handler := fun request _ => deleteVacation request.

Definition getReportCSVHandler : Handler := fun _ _ => getReportCSV.

Definition getReportJSONHandler : Handler := fun _ _ => getReportJSON.

(** The routes of the constructor that are followed to the database. *)
Definition GET_vacations (now : Z) :=
  route [securityMiddleware_verifyToken] (getVacationsHandler now).
Definition POST_like (now : Z) :=
  route [securityMiddleware_verifyToken; preventAdminLike] (likeVacationHandler now).
Definition DELETE_like (now : Z) :=
  route [securityMiddleware_verifyToken; preventAdminLike] (unlikeVacationHandler now).
Definition DELETE_vacation :=
  route [securityMiddleware_verifyToken; verifyAdmin] deleteVacationHandler.

(** The constructor of the controller: its ten registrations, in order.
    The middleware that strips tags from the body and the three handlers
    that build a document from the body or send a file are taken as they
    come. *)
Section Router.

Variable preventXssAttack : Middleware.
Variable addVacationHandler updateVacationHandler getImageHandler : Handler.

Definition router (now : Z) : list Registration :=
  [ {| method := "GET"; path := "/api/vacations";
       middlewares := [securityMiddleware_verifyToken];
       handler := getVacationsHandler now |};
    {| method := "GET"; path := "/api/vacations/:_id";
       middlewares := [securityMiddleware_verifyToken];
       handler := getOneVacationHandler |};
    {| method := "POST"; path := "/api/vacations/:_id/like";
       middlewares := [securityMiddleware_verifyToken; preventAdminLike];
       handler := likeVacationHandler now |};
    {| method := "DELETE"; path := "/api/vacations/:_id/like";
       middlewares := [securityMiddleware_verifyToken; preventAdminLike];
       handler := unlikeVacationHandler now |};
    {| method := "GET"; path := "/api/vacations/images/:imageName";
       middlewares := [];
       handler := getImageHandler |};
    {| method := "POST"; path := "/api/vacations";
       middlewares := [securityMiddleware_verifyToken; verifyAdmin; preventXssAttack];
       handler := addVacationHandler |};
    {| method := "PATCH"; path := "/api/vacations/:_id";
       middlewares := [securityMiddleware_verifyToken; verifyAdmin; preventXssAttack];
       handler := updateVacationHandler |};
    {| method := "DELETE"; path := "/api/vacations/:_id";
       middlewares := [securityMiddleware_verifyToken; verifyAdmin];
       handler := deleteVacationHandler |};
    {| method := "GET"; path := "/api/vacations/report/csv";
       middlewares := [securityMiddleware_verifyToken; verifyAdmin];
       handler := getReportCSVHandler |};
    {| method := "GET"; path := "/api/vacations/report/json";
       middlewares := [securityMiddleware_verifyToken; verifyAdmin];
       handler := getReportJSONHandler |} ].

End Router.

(** A sequence of like and unlike requests, served one after the other,
    each at its instant. *)
Inductive LikeRequest :=
| Like (now : Z) (request : Request)
| Unlike (now : Z) (request : Request).

Definition serve (r : LikeRequest) (w : World) : World :=
  match r with
  | Like now request => snd (POST_like now request w)
  | Unlike now request => snd (DELETE_like now request w)
  end.

Definition serveAll (rs : list LikeRequest) (w : World) : World :=
  fold_left (fun w r => serve r w) rs w.

End Routes.

End Controller.

End Backend.

(** * Specifications *)

(** ** What the properties are stated with *)

(** A vacation as the server's serializer produces it: both computed fields
    are set, the count is not negative, and a vacation the user likes has
    at least one like. *)
Definition serverShaped (v : Frontend.VacationModel) : bool :=
  match Frontend.likedByMe v, Frontend.likesCount v with
  | Some liked, Some count => (0 <=? count)%Z && (negb liked || (1 <=? count)%Z)
  | _, _ => false
  end.

(** The two fields the rollback law is about. *)
Definition likeState (v : Frontend.VacationModel) : option bool * option Z :=
  (Frontend.likedByMe v, Frontend.likesCount v).

Definition clientVacation (id : string) (liked : option bool) (count : option Z)
  : Frontend.VacationModel :=
  {| Frontend._id := id; Frontend.destination := Some "Paris";
     Frontend.description := None; Frontend.startDate := None;
     Frontend.endDate := None; Frontend.price := Some 500%Z;
     Frontend.likesCount := count; Frontend.likedByMe := liked;
     Frontend.imageUrl := None |}.

(** How the client reads the two computed fields off a JSON answer. *)
Definition readLikeState (o : gmap string JSValue) : option bool * option Z :=
  (match o !! "likedByMe" with Some (JBool b) => Some b | _ => None end,
   match o !! "likesCount" with Some (JNum n) => Some n | _ => None end).

(** A network on which every call fails. *)
Definition offline : Frontend.VacationService.Network := fun _ => None.

(** Whether a result is a rejection with a [ValidationError]. *)
Definition rejected {A} (r : Backend.AppError + A) : bool :=
  match r with
  | inl e => Backend.isValidationError e
  | inr _ => false
  end.

(** The number of the local calendar day a time falls on. *)
Definition localDay (tz t : Z) : Z := (t + tz) / Backend.msPerDay.

(** The start date lies on a calendar day before today. *)
Definition startsBeforeToday (now tz : Z) (v : Backend.IVacationModel) : bool :=
  from_option (fun s => localDay tz s <? localDay tz now)%Z false (Backend.startDate v).

(** The end date is strictly less than the start date. *)
Definition endsBeforeStart (v : Backend.IVacationModel) : bool :=
  match Backend.startDate v, Backend.endDate v with
  | Some s, Some e => (e <? s)%Z
  | _, _ => false
  end.

(** In a log, every deletion of a record comes after a deletion of an
    image. *)
Fixpoint assetBeforeRecord (seen : bool) (events : list Backend.Event) : bool :=
  match events with
  | [] => true
  | Backend.ImageDelete _ :: rest => assetBeforeRecord true rest
  | Backend.DbFindByIdAndDelete _ :: rest => seen && assetBeforeRecord seen rest
  | _ :: rest => assetBeforeRecord seen rest
  end.

(** No liking set of the world holds an identifier of an administrator. *)
Definition noAdminIn (isAdmin : ObjectId -> bool) (v : Backend.IVacationModel) : bool :=
  forallb (fun id => negb (isAdmin id)) (Backend.likedUserIds v).

Definition adminFree (isAdmin : ObjectId -> bool) (w : Backend.World) : bool :=
  forallb (noAdminIn isAdmin) (Backend.vacations w).

(** The answer to an administrator who likes or unlikes. *)
Definition forbidden : Backend.Controller.Response :=
  {| Backend.Controller.status := 403;
     Backend.Controller.body :=
       Backend.Controller.JsonMessage "Admin cannot like vacations." |}.

(** The errors of the five classes of client-errors.ts. *)
Definition isClientError (e : Backend.AppError) : bool :=
  match e with
  | Backend.RouteNotFound _ _ | Backend.ResourceNotFound _ | Backend.ValidationError _
  | Backend.AuthorizationError _ | Backend.ForbiddenError _ => true
  | _ => false
  end.

(** The path of the one route that serves without a token. *)
Definition imagesPath : string := "/api/vacations/images/:imageName".

(** The predicates of the three restricting filters. *)
Definition activeAt (now : Z) (v : Backend.IVacationModel) : bool :=
  match Backend.startDate v, Backend.endDate v with
  | Some s, Some e => (s <=? now)%Z && (now <=? e)%Z
  | _, _ => false
  end.

Definition upcomingAt (now : Z) (v : Backend.IVacationModel) : bool :=
  match Backend.startDate v with
  | Some s => (now <? s)%Z
  | None => false
  end.

Definition likedBy (user : ObjectId) (v : Backend.IVacationModel) : bool :=
  bool_decide (user ∈ Backend.likedUserIds v).

(** Standard escaping of a quoted field, said on the characters: a double
    quote becomes two, every other character stays. *)
Definition doubled (s : string) : string :=
  string_of_list_ascii
    (flat_map (fun c => if Ascii.eqb c (ascii_of_nat 34) then [c; c] else [c])
       (list_ascii_of_string s)).

(** One line of the report, led by the newline that separates it from the
    line before. *)
Definition reportLine (v : Backend.IVacationModel) : string :=
  newline ++ dquote ++ doubled (Backend.String_ (Backend.destination v)) ++ dquote
  ++ "," ++ decimal (length (Backend.likedUserIds v)).

(** A number is a positive integer. *)
Definition isPositiveInteger (n : JSNumber) : Prop :=
  exists z : Z, (0 < z)%Z /\ n = ofZ z.

(** The conversion on the inputs the examples use: [undefined] is not a
    number, the empty string is zero, a string of decimal digits is its
    value.  On every other string this function answers not-a-number, which
    is what the platform does for text that is no numeric literal but not
    for signed, fractional, padded, hexadecimal or exponent literals; the
    properties below are proved for every conversion. *)
Fixpoint digitsValue (acc : Z) (s : string) : option Z :=
  match s with
  | EmptyString => Some acc
  | String c rest =>
      let code := Z.of_nat (nat_of_ascii c) in
      if (48 <=? code)%Z && (code <=? 57)%Z
      then digitsValue (10 * acc + (code - 48)) rest
      else None
  end.

Definition NumberOnDigits (value : option string) : JSNumber :=
  match value with
  | None => NaN
  | Some s => from_option ofZ NaN (digitsValue 0 s)
  end.

(** Registration requests served one after the other, each at its
    instant. *)
Definition registerAll (hash : string -> string)
  (jwt_sign : Z -> Backend.IUserModel -> string)
  (emailFormat : string -> bool) (payloads : list (Z * Backend.IUserModel))
  (w : Backend.World) : Backend.World :=
  fold_left
    (fun w payload =>
       snd (Backend.UserService.register hash jwt_sign emailFormat
              (fst payload) (snd payload) w))
    payloads w.

Definition hasUserRole (u : Backend.IUserModel) : Prop :=
  Backend.roleId u = Some (Backend.Role_value Backend.User).

(** The vacations of one page and the reported total, read off the answer
    of the service. *)
Definition pageOf (now : Z) (filter : string) (userId : option ObjectId)
  (pageSize : nat) (w : Backend.World) (page : nat) : list Backend.IVacationModel :=
  match fst (Backend.VacationService.getVacations now filter userId page pageSize w) with
  | inr (vacations, _) => vacations
  | inl _ => []
  end.

Definition countOf (now : Z) (filter : string) (userId : option ObjectId)
  (pageSize : nat) (w : Backend.World) : nat :=
  match fst (Backend.VacationService.getVacations now filter userId 1 pageSize w) with
  | inr (_, totalCount) => totalCount
  | inl _ => 0%nat
  end.

(** Sample data: identifiers of vacations and of users. *)
Definition paris : ObjectId := "65f1a0c4e8b2d9317a5c0001".
Definition rome : ObjectId := "65f1a0c4e8b2d9317a5c0002".
Definition oslo : ObjectId := "65f1a0c4e8b2d9317a5c0003".
Definition lima : ObjectId := "65f1a0c4e8b2d9317a5c0009".
Definition adaId : ObjectId := "65f1a0c4e8b2d9317a5cf0a1".
Definition aliceId : ObjectId := "65f1a0c4e8b2d9317a5cf0b1".
Definition bobId : ObjectId := "65f1a0c4e8b2d9317a5cf0b2".
Definition carolId : ObjectId := "65f1a0c4e8b2d9317a5cf0b3".

Definition day (n : Z) : Z := n * Backend.msPerDay.

(** A stored vacation, created on day one. *)
Definition vacation (id destination : string) (start finish price : Z)
  (likes : list ObjectId) : Backend.IVacationModel :=
  {| Backend._id := id; Backend.destination := Some destination;
     Backend.description := Some "Ten days of sun and sea.";
     Backend.startDate := Some start; Backend.endDate := Some finish;
     Backend.price := Some price;
     Backend.imageName := Some (id ++ ".jpg");
     Backend.imageUrl := Some ("https://images.example/" ++ id);
     Backend.imagePublicId := Some ("vacations/" ++ id);
     Backend.likedUserIds := likes;
     Backend.createdAt := Some (day 1); Backend.updatedAt := Some (day 1) |}.

(** The document built from a body, which has no time stamps yet. *)
Definition draft (id destination : string) (start finish price : Z)
  (likes : list ObjectId) : Backend.IVacationModel :=
  Backend.set_timestamps None None (vacation id destination start finish price likes).

Definition user (id first last mail pw : string) (role : option Z) : Backend.IUserModel :=
  {| Backend.user_id := id; Backend.firstName := Some first;
     Backend.lastName := Some last; Backend.email := Some mail;
     Backend.password := Some pw; Backend.roleId := role;
     Backend.user_createdAt := None; Backend.user_updatedAt := None |}.

(** Two accounts and the tokens issued to them. *)
Definition root : Backend.IUserModel :=
  user adaId "Ada" "Root" "ada@example.org" "hashed"
    (Some (Backend.Role_value Backend.Admin)).

Definition alice : Backend.IUserModel :=
  user aliceId "Alice" "Liddell" "alice@example.org" "hashed"
    (Some (Backend.Role_value Backend.User)).

Definition tokens (token : string) : option Backend.IUserModel :=
  if String.eqb token "token-of-root" then Some root
  else if String.eqb token "token-of-alice" then Some alice
  else None.

Definition isRoot (id : ObjectId) : bool := String.eqb id adaId.

Definition likeRequest (token vacationId : string) : Backend.Controller.Request :=
  {| Backend.Controller.authorization := Some ("Bearer " ++ token);
     Backend.Controller.params_id := vacationId;
     Backend.Controller.query_filter := None;
     Backend.Controller.query_page := None;
     Backend.Controller.query_pageSize := None |}.

Definition world (vs : list Backend.IVacationModel) (us : list Backend.IUserModel)
  : Backend.World :=
  {| Backend.vacations := vs; Backend.users := us;
     Backend.images := map (fun v => default "" (Backend.imageName v)) vs
                       ++ map (fun v => default "" (Backend.imagePublicId v)) vs;
     Backend.imageStoreUp := true; Backend.log := [] |}.

(** A vacation with its liking set emptied: everything of it but the
    liking set. *)
Definition withoutLikes (v : Backend.IVacationModel) : Backend.IVacationModel :=
  Backend.set_likedUserIds [] v.

(** A vacation without the instant of its last write. *)
Definition withoutUpdatedAt (v : Backend.IVacationModel) : Backend.IVacationModel :=
  Backend.set_updatedAt None v.

(** The vacations of a collection that have another id. *)
Definition others (id : ObjectId) (vs : list Backend.IVacationModel)
  : list Backend.IVacationModel :=
  List.filter (fun v => negb (Backend.has_id id v)) vs.

(** No liking set of the collection names a user twice. *)
Definition likersDistinct (vs : list Backend.IVacationModel) : Prop :=
  Forall (fun v => NoDup (Backend.likedUserIds v)) vs.

(** The two updates of the liking set, as [likeVacation] and
    [unlikeVacation] pass them to the database. *)
Definition liking (user : ObjectId) (v : Backend.IVacationModel) : Backend.IVacationModel :=
  Backend.set_likedUserIds
    (Backend.VacationService.addToSet user (Backend.likedUserIds v)) v.

Definition unliking (user : ObjectId) (v : Backend.IVacationModel)
  : Backend.IVacationModel :=
  Backend.set_likedUserIds
    (Backend.VacationService.pull user (Backend.likedUserIds v)) v.

(** A stored vacation is well-formed: it passes the schema and its end is
    not before its start. *)
Definition wellFormed (v : Backend.IVacationModel) : Prop :=
  Backend.validateSync v = [] /\ endsBeforeStart v = false.

(** The calls of the vacation service that write. *)
Inductive ServiceCall :=
| CallAdd (now tz : Z) (v : Backend.IVacationModel) (image : option Backend.UploadedFile)
| CallUpdate (now : Z) (v : Backend.IVacationModel) (image : option Backend.UploadedFile)
| CallDelete (id : string)
| CallCloudDelete (id : string)
| CallLike (now : Z) (vacationId : string) (user : ObjectId)
| CallUnlike (now : Z) (vacationId : string) (user : ObjectId).

Definition perform (c : ServiceCall) (w : Backend.World) : Backend.World :=
  match c with
  | CallAdd now tz v image => snd (Backend.VacationService.addVacation now tz v image w)
  | CallUpdate now v image => snd (Backend.VacationService.updateVacation now v image w)
  | CallDelete id => snd (Backend.VacationService.deleteVacation id w)
  | CallCloudDelete id => snd (Backend.CloudVacationService.deleteVacation id w)
  | CallLike now vacationId user =>
      snd (Backend.VacationService.likeVacation now vacationId user w)
  | CallUnlike now vacationId user =>
      snd (Backend.VacationService.unlikeVacation now vacationId user w)
  end.

Definition performAll (cs : list ServiceCall) (w : Backend.World) : Backend.World :=
  fold_left (fun w c => perform c w) cs w.

(** Undoing the escaping of a quoted field: two double quotes in a row
    stand for one. *)
Fixpoint unescapeQuotes (s : string) : string :=
  match s with
  | EmptyString => EmptyString
  | String c rest =>
      match rest with
      | String c' rest' =>
          if Ascii.eqb c (ascii_of_nat 34) && Ascii.eqb c' (ascii_of_nat 34)
          then String c (unescapeQuotes rest')
          else String c (unescapeQuotes rest)
      | EmptyString => String c EmptyString
      end
  end.

(** The line of the report for one entry of the JSON report. *)
Definition entryLine (entry : option string * nat) : string :=
  newline ++ dquote ++ doubled (Backend.String_ (fst entry)) ++ dquote
  ++ "," ++ decimal (snd entry).

(** The credentials a registered user logs in with. *)
Definition credentialsOf (u : Backend.IUserModel) : Backend.UserService.ICredentialsModel :=
  {| Backend.UserService.cred_email := Backend.email u;
     Backend.UserService.cred_password := Backend.password u |}.

(** Everything of a client-side vacation but the two computed fields. *)
Definition withoutLikeState (v : Frontend.VacationModel)
  : string * option string * option string * option string * option string
    * option Z * option string :=
  (Frontend._id v, Frontend.destination v, Frontend.description v,
   Frontend.startDate v, Frontend.endDate v, Frontend.price v, Frontend.imageUrl v).

(** A request with another [Authorization] header. *)
Definition withAuthorization (header : option string)
  (request : Backend.Controller.Request) : Backend.Controller.Request :=
  {| Backend.Controller.authorization := header;
     Backend.Controller.params_id := Backend.Controller.params_id request;
     Backend.Controller.query_filter := Backend.Controller.query_filter request;
     Backend.Controller.query_page := Backend.Controller.query_page request;
     Backend.Controller.query_pageSize := Backend.Controller.query_pageSize request |}.

(** * Properties of the client *)

Section ClientProperties.

Import Frontend Frontend.VacationSlice.

Lemma toggleOne_other id v : _id v ≠ id -> toggleOne id v = v.
Proof.
  intros Hne. unfold toggleOne.
  destruct (String.eqb_spec (_id v) id) as [Heq | _]; [contradiction | reflexivity].
Qed.

Lemma toggleOne_id id v : _id (toggleOne id v) = _id v.
Proof. unfold toggleOne. destruct (String.eqb (_id v) id); reflexivity. Qed.

(** One toggle of a server-shaped vacation is undone by the next. *)
Lemma toggleOne_twice id v :
  serverShaped v = true -> toggleOne id (toggleOne id v) = v.
Proof.
  intros Hshape. destruct (String.eqb_spec (_id v) id) as [Heq | Hne].
  - unfold toggleOne at 2. rewrite <- Heq, String.eqb_refl. cbn [negb].
    unfold toggleOne. cbn [_id likedByMe likesCount]. rewrite String.eqb_refl.
    cbn [negb]. destruct v as [i d1 d2 s e p count liked u].
    unfold serverShaped in Hshape. cbn in *.
    destruct liked as [[|]|], count as [n|]; try discriminate; cbn in *;
      apply andb_prop in Hshape as [H0 H1];
      apply Z.leb_le in H0; try apply Z.leb_le in H1;
      f_equal; f_equal; lia.
  - rewrite !toggleOne_other; try done. by rewrite toggleOne_id.
Qed.

Lemma toggleLikeOptimistic_twice state id :
  (forall v, v ∈ state -> _id v = id -> serverShaped v = true) ->
  toggleLikeOptimistic (toggleLikeOptimistic state id) id = state.
Proof.
  unfold toggleLikeOptimistic. induction state as [|v state IH]; intros Hshape.
  - reflexivity.
  - cbn [map]. f_equal.
    + destruct (String.eqb_spec (_id v) id) as [Heq | Hne].
      * apply toggleOne_twice. apply Hshape; [left | done].
      * rewrite !toggleOne_other; try done. by rewrite toggleOne_id.
    + apply IH. intros u Hu. apply Hshape. by right.
Qed.

(** C1, as stated, fails: a vacation shown as liked with a count of zero
    comes back from toggle and rollback with a count of one, because the
    first toggle is floored at zero, and a vacation without the two computed
    fields (as the answer to a creation is stored) comes back with both
    set; the failure path of [toggleLike] leaves exactly these states
    behind. *)
Lemma rollback_floor_counterexample :
  let v := clientVacation "v1" (Some true) (Some 0%Z) in
  let fresh := clientVacation "v2" None None in
  likeState v = (Some true, Some 0%Z)
  /\ map likeState (toggleLikeOptimistic (toggleLikeOptimistic [v] "v1") "v1")
     = [(Some true, Some 1%Z)]
  /\ map likeState (snd (VacationService.toggleLike offline [v] "v1"))
     = [(Some true, Some 1%Z)]
  /\ likeState fresh = (None, None)
  /\ map likeState (snd (VacationService.toggleLike offline [fresh] "v2"))
     = [(Some false, Some 0%Z)].
Proof. repeat split. Qed.

(** C1, amended: on a list whose vacations with the toggled id are
    server-shaped (both fields set, count not negative, at least one like
    when liked by the user), two toggles in succession give back the list
    itself, and so does the failure path of [toggleLike], which rejects. *)
Theorem rollback_restores_server_shaped
  (net : VacationService.Network) (state : list VacationModel) (id : string) :
  (forall v, v ∈ state -> _id v = id -> serverShaped v = true) ->
  (forall call, net call = None) ->
  toggleLikeOptimistic (toggleLikeOptimistic state id) id = state
  /\ VacationService.toggleLike net state id
     = (VacationService.Rejected "Failed to toggle like", state).
Proof.
  intros Hshape Hnet. split.
  - by apply toggleLikeOptimistic_twice.
  - unfold VacationService.toggleLike. rewrite Hnet.
    by rewrite toggleLikeOptimistic_twice.
Qed.

Lemma rollback_restores_server_shaped_witness :
  let state := [clientVacation "v1" (Some true) (Some 3%Z);
                clientVacation "v2" (Some false) (Some 0%Z)] in
  toggleLikeOptimistic (toggleLikeOptimistic state "v1") "v1" = state
  /\ VacationService.toggleLike offline state "v1"
     = (VacationService.Rejected "Failed to toggle like", state).
Proof.
  apply (rollback_restores_server_shaped offline).
  - intros v Hv Hid.
    repeat (apply elem_of_cons in Hv as [-> | Hv]; [reflexivity |]).
    by apply elem_of_nil in Hv.
  - reflexivity.
Defined.

End ClientProperties.

(** * Properties of the identifiers and of the collection *)

Section IdentifierProperties.

Import Backend.

Lemma toLowerHex_hex c : isHexDigit c = true -> isHexDigit (toLowerHex c) = true.
Proof. destruct c as [[] [] [] [] [] [] [] []]; vm_compute; congruence. Qed.

Lemma toLowerHex_twice c : toLowerHex (toLowerHex c) = toLowerHex c.
Proof. by destruct c as [[] [] [] [] [] [] [] []]. Qed.

Lemma allHex_lowerHex s : allHex s = true -> allHex (lowerHex s) = true.
Proof.
  induction s as [|c s IH]; [done |]. cbn [allHex lowerHex].
  intros [Hc Hs]%andb_prop. by rewrite toLowerHex_hex, IH.
Qed.

Lemma length_lowerHex s : String.length (lowerHex s) = String.length s.
Proof. induction s as [|c s IH]; [done |]. cbn. by rewrite IH. Qed.

Lemma lowerHex_twice s : lowerHex (lowerHex s) = lowerHex s.
Proof.
  induction s as [|c s IH]; [done |]. cbn [lowerHex].
  by rewrite toLowerHex_twice, IH.
Qed.

(** What a cast returns casts to itself. *)
Lemma castObjectId_canonical id oid :
  castObjectId id = Some oid -> castObjectId oid = Some oid.
Proof.
  unfold castObjectId.
  destruct (_ && _) eqn:Htest; [|discriminate]. intros [= <-].
  apply andb_prop in Htest as [Hlen Hhex].
  by rewrite length_lowerHex, Hlen, allHex_lowerHex, lowerHex_twice.
Qed.

Lemma check_id_nil id : check_id id = [] <-> castObjectId id = Some id.
Proof. unfold check_id. case_bool_decide; [done |]. split; [discriminate | done]. Qed.

Lemma app_nil_inv {A} (l k : list A) : (l ++ k)%list = [] -> l = [] /\ k = [].
Proof. destruct l; cbn; [by intros -> | discriminate]. Qed.

(** The identifier of a valid document is canonical. *)
Lemma valid_id v : validateSync v = [] -> castObjectId (_id v) = Some (_id v).
Proof.
  unfold validateSync. intros [Hid _]%app_nil_inv. by apply check_id_nil.
Qed.

(** The calls to the collection, for an identifier that casts. *)
Lemma findById_cast id oid w :
  castObjectId id = Some oid ->
  findById id w = (inr (find (has_id oid) (vacations w)), record (DbFindById id) w).
Proof. intros H. unfold findById. by rewrite H. Qed.

Lemma findById_fails id w :
  castObjectId id = None -> findById id w = (inl (CastError id), record (DbFindById id) w).
Proof. intros H. unfold findById. by rewrite H. Qed.

Lemma findByIdAndUpdate_cast e id oid now f w :
  castObjectId id = Some oid ->
  findByIdAndUpdate e id now f w
  = (inr ((fun v => set_updatedAt (Some now) (f v)) <$> find (has_id oid) (vacations w)),
     record e
       (with_vacations
          (update_first oid (fun v => set_updatedAt (Some now) (f v)) (vacations w)) w)).
Proof. intros H. unfold findByIdAndUpdate. by rewrite H. Qed.

Lemma findByIdAndUpdate_fails e id now f w :
  castObjectId id = None -> findByIdAndUpdate e id now f w = (inl (CastError id), record e w).
Proof. intros H. unfold findByIdAndUpdate. by rewrite H. Qed.

Lemma findByIdAndDelete_cast id oid w :
  castObjectId id = Some oid ->
  findByIdAndDelete id w
  = (inr (find (has_id oid) (vacations w)),
     record (DbFindByIdAndDelete id) (with_vacations (remove_first oid (vacations w)) w)).
Proof. intros H. unfold findByIdAndDelete. by rewrite H. Qed.

Lemma findByIdAndDelete_fails id w :
  castObjectId id = None ->
  findByIdAndDelete id w = (inl (CastError id), record (DbFindByIdAndDelete id) w).
Proof. intros H. unfold findByIdAndDelete. by rewrite H. Qed.

Lemma update_first_absent id f vs :
  find (has_id id) vs = None -> update_first id f vs = vs.
Proof.
  induction vs as [|v vs IH]; [done |]. cbn.
  destruct (has_id id v); [done |]. intros H. by rewrite IH.
Qed.

Lemma update_first_compose id f g vs :
  (forall v, has_id id v = true -> has_id id (f v) = true) ->
  update_first id g (update_first id f vs) = update_first id (fun v => g (f v)) vs.
Proof.
  intros Hid. induction vs as [|v vs IH]; [done |]. cbn.
  destruct (has_id id v) eqn:Hv; cbn.
  - by rewrite (Hid _ Hv).
  - by rewrite Hv, IH.
Qed.

Lemma update_first_ext id f g vs :
  (forall v, f v = g v) -> update_first id f vs = update_first id g vs.
Proof.
  intros Hfg. induction vs as [|v vs IH]; [done |]. cbn.
  destruct (has_id id v); [by rewrite Hfg | by rewrite IH].
Qed.

Lemma find_update_first id f vs :
  (forall v, has_id id v = true -> has_id id (f v) = true) ->
  find (has_id id) (update_first id f vs) = f <$> find (has_id id) vs.
Proof.
  intros Hid. induction vs as [|v vs IH]; [done |]. cbn.
  destruct (has_id id v) eqn:Hv; cbn.
  - by rewrite (Hid _ Hv).
  - by rewrite Hv, IH.
Qed.

Lemma update_first_fix id f vs :
  (forall v, find (has_id id) vs = Some v -> f v = v) -> update_first id f vs = vs.
Proof.
  induction vs as [|v vs IH]; [done |]. cbn.
  destruct (has_id id v); intros Hfix.
  - by rewrite Hfix.
  - by rewrite IH.
Qed.

Lemma map_update_first {B} (g : IVacationModel -> B) id f vs :
  (forall v, g (f v) = g v) -> map g (update_first id f vs) = map g vs.
Proof.
  intros Hg. induction vs as [|v vs IH]; [done |]. cbn.
  destruct (has_id id v); cbn; by rewrite ?Hg, ?IH.
Qed.

Lemma others_update_first id f vs :
  (forall v, has_id id v = true -> has_id id (f v) = true) ->
  List.filter (fun v => negb (has_id id v)) (update_first id f vs)
  = List.filter (fun v => negb (has_id id v)) vs.
Proof.
  intros Hid. induction vs as [|v vs IH]; [done |]. cbn.
  destruct (has_id id v) eqn:Hv; cbn.
  - by rewrite (Hid _ Hv).
  - by rewrite Hv, IH.
Qed.

Lemma Forall_update_first (P : IVacationModel -> Prop) id f vs :
  (forall v, P v -> P (f v)) -> Forall P vs -> Forall P (update_first id f vs).
Proof.
  intros Hf. induction 1 as [|v vs Hv Hvs IH]; [constructor |]. cbn.
  destruct (has_id id v); constructor; auto.
Qed.

Lemma Forall2_update_first (R : IVacationModel -> IVacationModel -> Prop) id f g vs :
  (forall v, R v v) -> (forall v, R (f v) (g v)) ->
  Forall2 R (update_first id f vs) (update_first id g vs).
Proof.
  intros Hrefl Hfg. induction vs as [|v vs IH]; [constructor |]. cbn.
  destruct (has_id id v); constructor; auto.
  clear IH. induction vs; constructor; auto.
Qed.

Lemma update_first_forallb (P : IVacationModel -> bool) id f vs :
  (forall v, P v = true -> P (f v) = true) ->
  forallb P vs = true -> forallb P (update_first id f vs) = true.
Proof.
  intros Hf. induction vs as [|v vs IH]; [done |]. cbn.
  intros [Hv Hvs]%andb_prop. destruct (has_id id v); cbn.
  - by rewrite (Hf _ Hv), Hvs.
  - by rewrite Hv, (IH Hvs).
Qed.

Lemma Forall_remove_first (P : IVacationModel -> Prop) id vs :
  Forall P vs -> Forall P (remove_first id vs).
Proof.
  induction 1 as [|v vs Hv Hvs IH]; [constructor |]. cbn.
  destruct (has_id id v); [done | by constructor].
Qed.

(** After the first document with an id is removed, no document has the id,
    when ids are unique. *)
Lemma find_remove_first id vs :
  NoDup (map _id vs) -> find (has_id id) (remove_first id vs) = None.
Proof.
  induction vs as [|v vs IH]; [done |]. cbn.
  intros [Hv Hvs]%NoDup_cons. destruct (has_id id v) eqn:Hid; cbn.
  - apply String.eqb_eq in Hid. subst id.
    destruct (find (has_id (_id v)) vs) as [x|] eqn:Hfind; [|done].
    apply find_some in Hfind as [Hin Hx]. apply String.eqb_eq in Hx.
    exfalso. apply Hv. rewrite <- Hx. apply list_elem_of_In. by apply in_map.
  - rewrite Hid. by apply IH.
Qed.

Lemma length_remove_first id vs v :
  find (has_id id) vs = Some v -> S (length (remove_first id vs)) = length vs.
Proof.
  induction vs as [|x vs IH]; [done |]. cbn.
  destruct (has_id id x); [done |]. intros H. cbn. by rewrite IH.
Qed.

Lemma existsb_has_id id vs :
  existsb (has_id id) vs = bool_decide (is_Some (find (has_id id) vs)).
Proof.
  induction vs as [|v vs IH]; cbn [existsb find].
  - symmetry. apply bool_decide_eq_false_2. by intros [x Hx].
  - destruct (has_id id v); cbn [orb]; [|done].
    symmetry. by apply bool_decide_eq_true_2.
Qed.

(** What a like and an unlike do, in full. *)
Lemma likeVacation_run now vacationId user w :
  VacationService.likeVacation now vacationId user w
  = match castObjectId vacationId with
    | None => (inl (CastError vacationId), record (DbAddToSet vacationId user) w)
    | Some oid =>
        let write := fun v => set_updatedAt (Some now) (liking user v) in
        (match find (has_id oid) (vacations w) with
         | Some v => inr (write v)
         | None => inl (ResourceNotFound vacationId)
         end,
         record (DbAddToSet vacationId user)
           (with_vacations (update_first oid write (vacations w)) w))
    end.
Proof.
  unfold VacationService.likeVacation, await, findByIdAndUpdate.
  destruct (castObjectId vacationId) as [oid|]; [|done].
  by destruct (find (has_id oid) (vacations w)).
Qed.

Lemma unlikeVacation_run now vacationId user w :
  VacationService.unlikeVacation now vacationId user w
  = match castObjectId vacationId with
    | None => (inl (CastError vacationId), record (DbPull vacationId user) w)
    | Some oid =>
        let write := fun v => set_updatedAt (Some now) (unliking user v) in
        (match find (has_id oid) (vacations w) with
         | Some v => inr (write v)
         | None => inl (ResourceNotFound vacationId)
         end,
         record (DbPull vacationId user)
           (with_vacations (update_first oid write (vacations w)) w))
    end.
Proof.
  unfold VacationService.unlikeVacation, await, findByIdAndUpdate.
  destruct (castObjectId vacationId) as [oid|]; [|done].
  by destruct (find (has_id oid) (vacations w)).
Qed.

End IdentifierProperties.

(** * Properties of the vacation service *)

Section ServiceProperties.

Import Backend.

Lemma validate_valid v w : validateSync v = [] -> validate v w = (inr tt, w).
Proof. intros H. unfold validate. by rewrite H. Qed.

Lemma validate_invalid v w :
  validateSync v ≠ [] -> exists m, validate v w = (inl (ValidationError m), w).
Proof.
  intros H. unfold validate. destruct (validateSync v) as [|m ms]; [done |].
  by eexists.
Qed.

(** A valid document has both dates. *)
Lemma valid_has_dates v :
  validateSync v = [] -> exists s e, startDate v = Some s /\ endDate v = Some e.
Proof.
  unfold validateSync. intros H.
  apply app_nil_inv in H as [_ H].
  apply app_nil_inv in H as [_ H]. apply app_nil_inv in H as [_ H].
  apply app_nil_inv in H as [Hs H]. apply app_nil_inv in H as [He _].
  destruct (startDate v) as [s|]; [|discriminate].
  destruct (endDate v) as [e|]; [|discriminate]. eauto.
Qed.

(** Comparing two local midnights is comparing the two day numbers. *)
Lemma setHours0_lt tz a b :
  (setHours0 tz a <? setHours0 tz b)%Z = (localDay tz a <? localDay tz b)%Z.
Proof.
  unfold setHours0, localDay, msPerDay.
  destruct (Z.ltb_spec ((a + tz) / 86400000) ((b + tz) / 86400000));
    [apply Z.ltb_lt | apply Z.ltb_ge]; lia.
Qed.

(** What [save] answers is never a [ValidationError]. *)
Lemma save_not_rejected now v w : rejected (fst (save now v w)) = false.
Proof. unfold save. by destruct (existsb _ _). Qed.

(** The two date checks of [addVacation] on a valid document. *)
Lemma addVacation_valid now tz v image w :
  validateSync v = [] ->
  rejected (fst (VacationService.addVacation now tz v image w))
  = startsBeforeToday now tz v || endsBeforeStart v.
Proof.
  intros Hvalid. destruct (valid_has_dates v Hvalid) as (s & e & Hs & He).
  unfold VacationService.addVacation, await. rewrite (validate_valid _ _ Hvalid).
  unfold startsBeforeToday, endsBeforeStart. rewrite Hs, He. cbn.
  rewrite setHours0_lt.
  destruct (localDay tz s <? localDay tz now)%Z; [reflexivity |].
  destruct (e <? s)%Z; [reflexivity |].
  destruct image; cbn; apply save_not_rejected.
Qed.

(** What [updateVacation] does once its document has passed the two
    checks. *)
Lemma updateVacation_passed now v image w :
  validateSync v = [] -> date_lt (endDate v) (startDate v) = false ->
  VacationService.updateVacation now v image w
  = match find (has_id (_id v)) (vacations w) with
    | None =>
        (inl (ResourceNotFound (_id v)),
         record (match image with
                 | Some _ => DbFindById (_id v)
                 | None => DbFindByIdAndUpdate (_id v)
                 end) w)
    | Some old =>
        let write := fun new x =>
          set_updatedAt (Some now) (VacationService.set_updateData new x) in
        match image with
        | Some file =>
            (inr (write (set_imageName (Some file) v) old),
             record (DbFindByIdAndUpdate (_id v))
               (with_vacations
                  (update_first (_id v) (write (set_imageName (Some file) v))
                     (vacations w))
                  (record (ImageUpdate (String_ (imageName old)) file)
                     (with_images
                        (filter (fun n => Some n ≠ imageName old) (images w) ++ [file])
                        (record (DbFindById (_id v)) w)))))
        | None =>
            (inr (write v old),
             record (DbFindByIdAndUpdate (_id v))
               (with_vacations (update_first (_id v) (write v) (vacations w)) w))
        end
    end.
Proof.
  intros Hvalid Hdates. pose proof (valid_id v Hvalid) as Hid.
  unfold VacationService.updateVacation, await.
  rewrite (validate_valid _ _ Hvalid), Hdates.
  destruct image as [file|].
  - unfold VacationService.getImageName, VacationService.getOneVacation, await.
    rewrite (findById_cast _ _ _ Hid).
    destruct (find (has_id (_id v)) (vacations w)) as [old|] eqn:Hfind; [|done].
    cbn. rewrite (findByIdAndUpdate_cast _ _ _ _ _ _ Hid). cbn. by rewrite Hfind.
  - cbn. rewrite (findByIdAndUpdate_cast _ _ _ _ _ _ Hid).
    destruct (find (has_id (_id v)) (vacations w)) as [old|] eqn:Hfind; [done |].
    cbn. by rewrite update_first_absent.
Qed.

(** The one date check of [updateVacation] on a valid document. *)
Lemma updateVacation_valid now v image w :
  validateSync v = [] ->
  rejected (fst (VacationService.updateVacation now v image w)) = endsBeforeStart v.
Proof.
  intros Hvalid. destruct (valid_has_dates v Hvalid) as (s & e & Hs & He).
  destruct (date_lt (endDate v) (startDate v)) eqn:Hdates.
  - unfold VacationService.updateVacation, await.
    rewrite (validate_valid _ _ Hvalid), Hdates. cbn.
    unfold endsBeforeStart. rewrite Hs, He in *. by rewrite <- Hdates.
  - rewrite (updateVacation_passed _ _ _ _ Hvalid Hdates).
    unfold endsBeforeStart. rewrite Hs, He in *. cbn in Hdates. rewrite Hdates.
    destruct (find _ _); [by destruct image | done].
Qed.

(** A [ValidationError] is thrown before anything is written. *)
Lemma addVacation_rejected_unchanged now tz v image w :
  rejected (fst (VacationService.addVacation now tz v image w)) = true ->
  snd (VacationService.addVacation now tz v image w) = w.
Proof.
  unfold VacationService.addVacation, await, validate.
  destruct (validateSync v); cbn; [|reflexivity].
  destruct (date_lt _ _); [reflexivity |].
  destruct (date_lt _ _); [reflexivity |].
  destruct image; cbn; rewrite save_not_rejected; discriminate.
Qed.

Lemma updateVacation_rejected_unchanged now v image w :
  rejected (fst (VacationService.updateVacation now v image w)) = true ->
  snd (VacationService.updateVacation now v image w) = w.
Proof.
  destruct (validateSync v) as [|m ms] eqn:Hvalid.
  - destruct (date_lt (endDate v) (startDate v)) eqn:Hdates.
    + unfold VacationService.updateVacation, await.
      by rewrite (validate_valid _ _ Hvalid), Hdates.
    + rewrite (updateVacation_passed _ _ _ _ Hvalid Hdates).
      destruct (find _ _); [by destruct image | discriminate].
  - unfold VacationService.updateVacation, await, validate. by rewrite Hvalid.
Qed.

(** A document that fails the schema is refused by both operations. *)
Lemma invalid_rejected now tz v image w :
  validateSync v ≠ [] ->
  rejected (fst (VacationService.addVacation now tz v image w)) = true
  /\ rejected (fst (VacationService.updateVacation now v image w)) = true.
Proof.
  intros Hinvalid.
  unfold VacationService.addVacation, VacationService.updateVacation, await, validate.
  by destruct (validateSync v).
Qed.

(** An update of a stored vacation whose end is not before its start goes
    through, wherever the start lies. *)
Lemma updateVacation_accepts now v image w :
  validateSync v = [] -> endsBeforeStart v = false ->
  is_Some (find (has_id (_id v)) (vacations w)) ->
  exists stored, fst (VacationService.updateVacation now v image w) = inr stored.
Proof.
  intros Hvalid Hdates [old Hold].
  destruct (valid_has_dates v Hvalid) as (s & e & Hs & He).
  rewrite updateVacation_passed; [| done |].
  - rewrite Hold. destruct image; cbn; eauto.
  - unfold endsBeforeStart in Hdates. by rewrite Hs, He in *.
Qed.

(** C2, as stated, fails: a vacation that starts tomorrow and ends later,
    priced above the maximum of the schema, is rejected by [addVacation]
    with a [ValidationError] although neither date condition holds. *)
Lemma date_rules_counterexample :
  let v := draft paris "Paris" (day 11) (day 16) 10001 [] in
  rejected (fst (Backend.VacationService.addVacation (day 10) 0 v None (world [] [])))
  = true
  /\ startsBeforeToday (day 10) 0 v || endsBeforeStart v = false.
Proof. split; reflexivity. Qed.

(** C2, amended: a [ValidationError] of either operation leaves the world
    as it was; a vacation that fails the schema validation is rejected with
    one by both operations; and for a vacation that passes it, [addVacation]
    throws one exactly when the start date falls on a calendar day before
    today or the end date is less than the start date, while
    [updateVacation] throws one exactly when the end date is less than the
    start date, and otherwise updates a stored vacation whatever its start
    date. *)
Theorem date_rules_on_valid_vacation
  (now tz : Z) (v : IVacationModel) (image : option UploadedFile) (w : World) :
  (rejected (fst (VacationService.addVacation now tz v image w)) = true ->
   snd (VacationService.addVacation now tz v image w) = w)
  /\ (rejected (fst (VacationService.updateVacation now v image w)) = true ->
      snd (VacationService.updateVacation now v image w) = w)
  /\ (validateSync v ≠ [] ->
      rejected (fst (VacationService.addVacation now tz v image w)) = true
      /\ rejected (fst (VacationService.updateVacation now v image w)) = true)
  /\ (validateSync v = [] ->
      rejected (fst (VacationService.addVacation now tz v image w))
      = startsBeforeToday now tz v || endsBeforeStart v
      /\ rejected (fst (VacationService.updateVacation now v image w)) = endsBeforeStart v
      /\ (endsBeforeStart v = false ->
          is_Some (find (has_id (_id v)) (vacations w)) ->
          exists stored, fst (VacationService.updateVacation now v image w) = inr stored)).
Proof.
  split; [apply addVacation_rejected_unchanged |].
  split; [apply updateVacation_rejected_unchanged |].
  split; [apply invalid_rejected |].
  intros Hvalid. split; [by apply addVacation_valid |].
  split; [by apply updateVacation_valid |].
  by apply updateVacation_accepts.
Qed.

(** A vacation that started five days ago: refused on creation, accepted
    on update; its destination, sixty letters of two bytes each, is within
    the hundred characters of the schema; priced out of the schema, it is
    refused by both. *)
Lemma date_rules_on_valid_vacation_witness :
  let name := String.concat "" (repeat "é" 60) in
  let old := vacation paris "Paris" (day 5) (day 20) 500 [aliceId] in
  let new := draft paris name (day 5) (day 25) 650 [] in
  let dear := draft paris name (day 5) (day 25) 10001 [] in
  (String.length name = 120%nat /\ utf16_length name = 60%nat)
  /\ rejected (fst (Backend.VacationService.addVacation (day 10) 0 new None
                      (world [old] [])))
     = true
  /\ snd (Backend.VacationService.addVacation (day 10) 0 new None (world [old] []))
     = world [old] []
  /\ rejected (fst (Backend.VacationService.updateVacation (day 10) new None
                      (world [old] [])))
     = false
  /\ (exists stored,
        fst (Backend.VacationService.updateVacation (day 10) new None (world [old] []))
        = inr stored)
  /\ rejected (fst (Backend.VacationService.updateVacation (day 10) dear None
                      (world [old] [])))
     = true.
Proof.
  intros name old new dear.
  destruct (date_rules_on_valid_vacation (day 10) 0 new None (world [old] []))
    as (Hadd & _ & _ & Hvalid).
  destruct (Hvalid eq_refl) as (Hadd_iff & Hupd_iff & Haccept).
  destruct (date_rules_on_valid_vacation (day 10) 0 dear None (world [old] []))
    as (_ & _ & Hinvalid & _).
  split; [split; reflexivity |].
  split; [rewrite Hadd_iff; reflexivity |].
  split; [apply Hadd; rewrite Hadd_iff; reflexivity |].
  split; [rewrite Hupd_iff; reflexivity |].
  split; [apply Haccept; [reflexivity | by eexists] |].
  apply Hinvalid. discriminate.
Defined.

(** The calls of the revision that keeps the images at the image host. *)
Lemma cloud_deleteVacation_log id w :
  exists events,
    log (snd (CloudVacationService.deleteVacation id w)) = (log w ++ events)%list
    /\ (events = [DbFindById id]
        \/ exists oid v publicId,
             castObjectId id = Some oid
             /\ find (has_id oid) (vacations w) = Some v
             /\ imagePublicId v = Some publicId
             /\ events = [DbFindById id; ImageDelete publicId; DbFindByIdAndDelete id]).
Proof.
  unfold CloudVacationService.deleteVacation, await.
  destruct (castObjectId id) as [oid|] eqn:Hid.
  - rewrite (findById_cast _ _ _ Hid).
    destruct (find (has_id oid) (vacations w)) as [v|] eqn:Hfind.
    + unfold cloudinary_destroy.
      destruct (imagePublicId v) as [publicId|] eqn:Hpid.
      * cbn [imageStoreUp record]. destruct (imageStoreUp w).
        -- cbn. rewrite (findByIdAndDelete_cast _ _ _ Hid). cbn.
           eexists. split; [by rewrite <- !app_assoc | right; eauto 10].
        -- eexists. split; [reflexivity | by left].
      * eexists. split; [reflexivity | by left].
    + eexists. split; [reflexivity | by left].
  - rewrite (findById_fails _ _ Hid). eexists. split; [reflexivity | by left].
Qed.

(** The calls of the revision that keeps the images on disk. *)
Lemma file_deleteVacation_log id w :
  exists events,
    log (snd (VacationService.deleteVacation id w)) = (log w ++ events)%list
    /\ (events = [DbFindById id]
        \/ events = [DbFindById id; DbFindByIdAndDelete id]
        \/ exists oid v name,
             castObjectId id = Some oid
             /\ find (has_id oid) (vacations w) = Some v
             /\ imageName v = Some name
             /\ events = [DbFindById id; DbFindByIdAndDelete id; ImageDelete name]).
Proof.
  unfold VacationService.deleteVacation, VacationService.getImageName,
    VacationService.getOneVacation, await.
  destruct (castObjectId id) as [oid|] eqn:Hid.
  - rewrite (findById_cast _ _ _ Hid).
    destruct (find (has_id oid) (vacations w)) as [v|] eqn:Hfind.
    + cbn. rewrite (findByIdAndDelete_cast _ _ _ Hid). cbn. rewrite Hfind.
      destruct (imageName v) as [name|] eqn:Hname.
      * destruct (String.eqb name ""); cbn.
        -- eexists. split; [by rewrite <- !app_assoc | right; by left].
        -- eexists. split; [by rewrite <- !app_assoc | right; right; eauto 10].
      * cbn. eexists. split; [by rewrite <- !app_assoc | right; by left].
    + eexists. split; [reflexivity | by left].
  - rewrite (findById_fails _ _ Hid). eexists. split; [reflexivity | by left].
Qed.

(** C3, as stated, fails on the revision that keeps the images on disk:
    it deletes the record first and the image file after it. *)
Lemma delete_order_counterexample :
  let w := world [vacation paris "Paris" (day 11) (day 16) 500 []] [] in
  log (snd (Backend.VacationService.deleteVacation paris w))
  = [DbFindById paris; DbFindByIdAndDelete paris; ImageDelete (paris ++ ".jpg")]
  /\ assetBeforeRecord false (log (snd (Backend.VacationService.deleteVacation paris w)))
     = false.
Proof. split; reflexivity. Qed.

(** C3, amended: the [deleteVacation] of the revision that keeps the images
    at the image host looks the record up, deletes the asset named by the
    stored identifier and only then deletes the record, so that in every
    run the deletion of the record comes after the deletion of the asset;
    the [deleteVacation] of the revision that keeps the images on disk
    looks the record up, deletes the record and then deletes the image
    file, if the record names one. *)
Theorem delete_order (id : string) (w : World) :
  (exists events,
     log (snd (CloudVacationService.deleteVacation id w)) = (log w ++ events)%list
     /\ assetBeforeRecord false events = true
     /\ (events = [DbFindById id]
         \/ exists oid v publicId,
              castObjectId id = Some oid
              /\ find (has_id oid) (vacations w) = Some v
              /\ imagePublicId v = Some publicId
              /\ events
                 = [DbFindById id; ImageDelete publicId; DbFindByIdAndDelete id]))
  /\ (exists events,
        log (snd (VacationService.deleteVacation id w)) = (log w ++ events)%list
        /\ (events = [DbFindById id]
            \/ events = [DbFindById id; DbFindByIdAndDelete id]
            \/ exists oid v name,
                 castObjectId id = Some oid
                 /\ find (has_id oid) (vacations w) = Some v
                 /\ imageName v = Some name
                 /\ events
                    = [DbFindById id; DbFindByIdAndDelete id; ImageDelete name])).
Proof.
  split.
  - destruct (cloud_deleteVacation_log id w) as (events & Hlog & Hcases).
    exists events. split; [done |]. split; [|done].
    destruct Hcases as [-> | (oid & v & publicId & _ & _ & _ & ->)]; reflexivity.
  - apply file_deleteVacation_log.
Qed.

End ServiceProperties.

(** * Properties of the like and unlike routes *)

Section LikeProperties.

Import Backend Backend.Controller.

Variable baseImageUrl : string.
Variable jwt_verify : string -> option IUserModel.
Variable isProduction : bool.

Lemma catchAll_forbidden m :
  catchAll isProduction (ForbiddenError m) = {| status := 403; body := JsonMessage m |}.
Proof. unfold catchAll. cbn. by rewrite andb_false_r. Qed.

Lemma preventAdminLike_admin request user :
  roleId user = Some (Role_value Admin) ->
  preventAdminLike request (Some user)
  = inl (ForbiddenError "Admin cannot like vacations.").
Proof. intros H. unfold preventAdminLike. by rewrite bool_decide_eq_true_2. Qed.

Lemma preventAdminLike_other request user :
  roleId user ≠ Some (Role_value Admin) ->
  preventAdminLike request (Some user) = inr (Some user).
Proof. intros H. unfold preventAdminLike. by rewrite bool_decide_eq_false_2. Qed.

(** The guard answers before the handler is entered. *)
Lemma route_refused handler request user w :
  verifyToken jwt_verify request = inr user ->
  roleId user = Some (Role_value Admin) ->
  route isProduction [securityMiddleware_verifyToken jwt_verify; preventAdminLike]
    handler request w
  = (forbidden, w).
Proof.
  intros Htoken Hrole. unfold route, through, securityMiddleware_verifyToken.
  rewrite Htoken, (preventAdminLike_admin _ _ Hrole). by rewrite catchAll_forbidden.
Qed.

Lemma addToSet_noAdmin isAdmin user v :
  isAdmin user = false -> noAdminIn isAdmin v = true ->
  noAdminIn isAdmin (liking user v) = true.
Proof.
  unfold noAdminIn, liking, VacationService.addToSet. cbn. intros Huser Hv.
  case_bool_decide; [done |].
  rewrite forallb_app, Hv. cbn. by rewrite Huser.
Qed.

Lemma pull_noAdmin isAdmin user v :
  noAdminIn isAdmin v = true -> noAdminIn isAdmin (unliking user v) = true.
Proof.
  unfold noAdminIn, unliking, VacationService.pull. cbn. intros Hv.
  apply forallb_forall. intros id Hid. apply list_elem_of_In in Hid.
  apply list_elem_of_filter in Hid as [_ Hid].
  rewrite forallb_forall in Hv. apply Hv. by apply list_elem_of_In.
Qed.

Section Invariant.

Variable isAdmin : ObjectId -> bool.

(** Every valid token of an administrator carries the administrator role. *)
Hypothesis admin_tokens :
  forall token user,
    jwt_verify token = Some user -> isAdmin (user_id user) = true ->
    roleId user = Some (Role_value Admin).

Lemma verifyToken_admin request user :
  verifyToken jwt_verify request = inr user -> isAdmin (user_id user) = true ->
  roleId user = Some (Role_value Admin).
Proof.
  unfold verifyToken, decodeToken.
  destruct (String.prefix _ _); [|discriminate].
  destruct (String.eqb _ ""); [discriminate |].
  destruct (jwt_verify _) as [u|] eqn:Hverify; [|discriminate].
  intros [= <-]. eauto.
Qed.

Lemma serve_adminFree r w :
  adminFree isAdmin w = true ->
  adminFree isAdmin (serve baseImageUrl jwt_verify isProduction r w) = true.
Proof.
  intros Hw. destruct r as [now request | now request]; cbn [serve].
  - unfold POST_like, route, through, securityMiddleware_verifyToken.
    destruct (verifyToken jwt_verify request) as [err | user] eqn:Htoken; [done |].
    destruct (preventAdminLike request (Some user)) as [err | locals] eqn:Hguard;
      [done |].
    assert (isAdmin (user_id user) = false) as Huser.
    { destruct (isAdmin (user_id user)) eqn:Hadmin; [|done].
      rewrite (preventAdminLike_admin request user) in Hguard; [done |].
      by eapply verifyToken_admin. }
    assert (locals = Some user) as ->.
    { unfold preventAdminLike in Hguard. destruct (bool_decide _); congruence. }
    unfold likeVacationHandler, likeVacation, await. rewrite likeVacation_run.
    destruct (castObjectId (params_id request)) as [oid|]; [|done].
    assert (adminFree isAdmin
              (record (DbAddToSet (params_id request) (user_id user))
                 (with_vacations
                    (update_first oid
                       (fun v => set_updatedAt (Some now) (liking (user_id user) v))
                       (vacations w)) w)) = true) as Hnext.
    { unfold adminFree. cbn. apply update_first_forallb; [|done].
      intros v. by apply (addToSet_noAdmin isAdmin (user_id user) v). }
    cbv zeta. destruct (find _ _); cbn; exact Hnext.
  - unfold DELETE_like, route, through, securityMiddleware_verifyToken.
    destruct (verifyToken jwt_verify request) as [err | user] eqn:Htoken; [done |].
    destruct (preventAdminLike request (Some user)) as [err | locals] eqn:Hguard;
      [done |].
    assert (locals = Some user) as ->.
    { unfold preventAdminLike in Hguard. destruct (bool_decide _); congruence. }
    unfold unlikeVacationHandler, unlikeVacation, await. rewrite unlikeVacation_run.
    destruct (castObjectId (params_id request)) as [oid|]; [|done].
    assert (adminFree isAdmin
              (record (DbPull (params_id request) (user_id user))
                 (with_vacations
                    (update_first oid
                       (fun v => set_updatedAt (Some now) (unliking (user_id user) v))
                       (vacations w)) w)) = true) as Hnext.
    { unfold adminFree. cbn. apply update_first_forallb; [|done].
      intros v. by apply (pull_noAdmin isAdmin (user_id user) v). }
    cbv zeta. destruct (find _ _); cbn; exact Hnext.
Qed.

Lemma serveAll_adminFree rs w :
  adminFree isAdmin w = true ->
  adminFree isAdmin (serveAll baseImageUrl jwt_verify isProduction rs w) = true.
Proof.
  unfold Controller.serveAll. revert w.
  induction rs as [|r rs IH]; intros w Hw; [done |].
  cbn. apply IH. by apply serve_adminFree.
Qed.

End Invariant.

(** C4, amended: a like or an unlike request whose token carries the
    administrator role is answered 403 with the message of the
    [ForbiddenError], and the world (the liking sets, and the log of calls
    to the database) is what it was; consequently, when every valid token of
    an administrator carries that role, no sequence of like and unlike
    requests puts an administrator into a liking set that held none. *)
Theorem admin_cannot_like (now : Z) (request : Request) (user : IUserModel) (w : World) :
  verifyToken jwt_verify request = inr user ->
  roleId user = Some (Role_value Admin) ->
  POST_like baseImageUrl jwt_verify isProduction now request w = (forbidden, w)
  /\ DELETE_like baseImageUrl jwt_verify isProduction now request w = (forbidden, w)
  /\ forall (isAdmin : ObjectId -> bool) (requests : list LikeRequest) (w0 : World),
       (forall token u,
          jwt_verify token = Some u -> isAdmin (user_id u) = true ->
          roleId u = Some (Role_value Admin)) ->
       adminFree isAdmin w0 = true ->
       adminFree isAdmin (serveAll baseImageUrl jwt_verify isProduction requests w0)
       = true.
Proof.
  intros Htoken Hrole. split; [by apply (route_refused _ _ user) |].
  split; [by apply (route_refused _ _ user) |].
  intros isAdmin requests w0 Htokens Hfree. by apply serveAll_adminFree.
Qed.

End LikeProperties.

(** C4, as stated, fails in its last part: the creation of a vacation
    stores the liking set of the document it is given, so a vacation created
    with the identifier of an administrator in it is persisted that way. *)
Lemma liking_set_counterexample :
  let w := world [] [root; alice] in
  let created := draft lima "Lima" (day 11) (day 16) 500 [adaId] in
  adminFree isRoot w = true
  /\ (exists stored,
        fst (Backend.VacationService.addVacation (day 10) 0 created None w) = inr stored
        /\ Backend.likedUserIds stored = [adaId])
  /\ map Backend.likedUserIds
       (Backend.vacations
          (snd (Backend.VacationService.addVacation (day 10) 0 created None w)))
     = [[adaId]]
  /\ adminFree isRoot
       (snd (Backend.VacationService.addVacation (day 10) 0 created None w))
     = false.
Proof. split; [done |]. split; [by eexists |]. by split. Qed.

Lemma admin_cannot_like_witness :
  let w := world [vacation paris "Paris" (day 11) (day 16) 500 []] [root; alice] in
  let byRoot := likeRequest "token-of-root" paris in
  let byAlice := likeRequest "token-of-alice" paris in
  Backend.Controller.POST_like "https://images.example/" tokens true (day 3) byRoot w
  = (forbidden, w)
  /\ Backend.Controller.DELETE_like "https://images.example/" tokens true (day 3) byRoot w
     = (forbidden, w)
  /\ adminFree isRoot
       (Backend.Controller.serveAll "https://images.example/" tokens true
          [Backend.Controller.Like (day 3) byRoot;
           Backend.Controller.Like (day 4) byAlice;
           Backend.Controller.Unlike (day 5) byRoot] w)
     = true.
Proof.
  intros w byRoot byAlice.
  destruct (admin_cannot_like "https://images.example/" tokens true (day 3) byRoot root w
              eq_refl eq_refl) as (Hlike & Hunlike & Hall).
  split; [exact Hlike |]. split; [exact Hunlike |].
  apply Hall; [|reflexivity].
  intros token u. unfold tokens.
  destruct (String.eqb token "token-of-root"); [by intros [= <-] |].
  destruct (String.eqb token "token-of-alice"); [|discriminate].
  intros [= <-]. discriminate.
Defined.

(** * Properties of the query builder, the serializer and the report *)

Section QueryProperties.

Import Backend.

Lemma buildVacationQuery_default filter userId now :
  filter ≠ "liked" -> filter ≠ "active" -> filter ≠ "upcoming" ->
  buildVacationQuery filter userId now = [].
Proof.
  intros H1 H2 H3. unfold buildVacationQuery.
  destruct (String.eqb_spec filter "liked"); [done |].
  destruct (String.eqb_spec filter "active"); [done |].
  by destruct (String.eqb_spec filter "upcoming").
Qed.

Lemma matches_liked user now v :
  matches (buildVacationQuery "liked" (Some user) now) v = likedBy user v.
Proof. cbn. by rewrite andb_true_r. Qed.

Lemma matches_active userId now v :
  matches (buildVacationQuery "active" userId now) v = activeAt now v.
Proof.
  unfold activeAt. cbn.
  destruct (startDate v), (endDate v); cbn; rewrite ?andb_true_r; try done.
  by rewrite andb_false_r.
Qed.

Lemma matches_upcoming userId now v :
  matches (buildVacationQuery "upcoming" userId now) v = upcomingAt now v.
Proof. unfold upcomingAt. cbn. destruct (startDate v); cbn; by rewrite ?andb_true_r. Qed.

(** C5: [buildVacationQuery] gives the empty query for the tag all and for
    every tag other than liked, active and upcoming, and for liked without a
    user; for liked with a user, the query that holds of the vacations whose
    liking set has the user; for active, the one that holds when the start
    date is at most now and the end date at least now; for upcoming, the
    one that holds when the start date is after now; the empty query holds
    of every vacation. *)
Theorem buildVacationQuery_predicates
  (filter : string) (userId : option ObjectId) (user : ObjectId) (now : Z)
  (v : IVacationModel) :
  filter ≠ "liked" -> filter ≠ "active" -> filter ≠ "upcoming" ->
  buildVacationQuery "all" userId now = []
  /\ buildVacationQuery filter userId now = []
  /\ matches [] v = true
  /\ buildVacationQuery "liked" None now = []
  /\ buildVacationQuery "liked" (Some user) now = [("likedUserIds", Eq user)]
  /\ matches (buildVacationQuery "liked" (Some user) now) v = likedBy user v
  /\ buildVacationQuery "active" userId now
     = [("startDate", Lte now); ("endDate", Gte now)]
  /\ matches (buildVacationQuery "active" userId now) v = activeAt now v
  /\ buildVacationQuery "upcoming" userId now = [("startDate", Gt now)]
  /\ matches (buildVacationQuery "upcoming" userId now) v = upcomingAt now v.
Proof.
  intros H1 H2 H3. repeat split.
  - by apply buildVacationQuery_default.
  - apply matches_liked.
  - apply matches_active.
  - apply matches_upcoming.
Qed.

Lemma buildVacationQuery_predicates_witness :
  let v := vacation paris "Paris" (day 8) (day 12) 500 [aliceId; bobId] in
  buildVacationQuery "bogus" (Some aliceId) (day 10) = []
  /\ matches (buildVacationQuery "liked" (Some bobId) (day 10)) v = true
  /\ matches (buildVacationQuery "active" None (day 10)) v = true
  /\ matches (buildVacationQuery "upcoming" None (day 10)) v = false.
Proof.
  intros v.
  destruct (buildVacationQuery_predicates "bogus" (Some aliceId) bobId (day 10) v
              ltac:(discriminate) ltac:(discriminate) ltac:(discriminate))
    as (_ & Hdefault & _ & _ & _ & Hliked & _ & _ & _ & _).
  destruct (buildVacationQuery_predicates "bogus" None bobId (day 10) v
              ltac:(discriminate) ltac:(discriminate) ltac:(discriminate))
    as (_ & _ & _ & _ & _ & _ & _ & Hactive & _ & Hupcoming).
  split; [exact Hdefault |].
  split; [exact (eq_trans Hliked eq_refl) |].
  split; [exact (eq_trans Hactive eq_refl) | exact (eq_trans Hupcoming eq_refl)].
Defined.

End QueryProperties.

Section SerializerProperties.

Import Backend.

Variable baseImageUrl : string.

Lemma lookup_put_ne key key' value (o : gmap string JSValue) :
  key ≠ key' -> put key value o !! key' = o !! key'.
Proof. intros Hne. destruct value; cbn; [by rewrite lookup_insert_ne | done]. Qed.

Lemma toObject_likedUserIds v :
  toObject baseImageUrl v !! "likedUserIds" = Some (JIds (likedUserIds v)).
Proof.
  unfold toObject. rewrite !lookup_put_ne by done.
  rewrite lookup_insert_ne by done. by rewrite lookup_insert_eq.
Qed.

Lemma existsb_eqb_elem_of (user : string) (ids : list ObjectId) :
  existsb (fun id => String.eqb id user) ids = bool_decide (user ∈ ids).
Proof.
  induction ids as [|id ids IH]; [done |]. cbn. rewrite IH.
  destruct (String.eqb_spec id user) as [-> | Hne]; cbn.
  - symmetry. apply bool_decide_eq_true_2. by left.
  - apply bool_decide_ext. rewrite elem_of_cons. split; [by right |].
    by intros [Heq | Hin]; [subst |].
Qed.

Lemma serialized_likesCount v userId :
  serializeVacation baseImageUrl v userId !! "likesCount"
  = Some (JNum (Z.of_nat (length (likedUserIds v)))).
Proof.
  unfold serializeVacation. rewrite toObject_likedUserIds.
  by rewrite lookup_insert_eq.
Qed.

Lemma serialized_likedByMe v userId :
  serializeVacation baseImageUrl v userId !! "likedByMe"
  = Some (JBool (bool_decide (userId ∈ likedUserIds v))).
Proof.
  unfold serializeVacation. rewrite toObject_likedUserIds.
  rewrite lookup_insert_ne by done. rewrite lookup_insert_eq.
  by rewrite existsb_eqb_elem_of.
Qed.

Lemma serialized_likedUserIds v userId :
  serializeVacation baseImageUrl v userId !! "likedUserIds" = None.
Proof.
  unfold serializeVacation.
  rewrite !lookup_insert_ne by done. by rewrite lookup_delete_eq.
Qed.

(** What the serializer sends is server-shaped in the sense of the rollback
    law: a count that is not negative, and at least one like when the user
    is among those who like. *)
Lemma serialized_serverShaped v userId :
  exists liked count,
    readLikeState (serializeVacation baseImageUrl v userId) = (Some liked, Some count)
    /\ (0 <= count)%Z /\ (liked = true -> 1 <= count)%Z.
Proof.
  unfold readLikeState. rewrite serialized_likesCount, serialized_likedByMe.
  eexists _, _. split; [reflexivity |]. split; [lia |].
  intros Hliked%bool_decide_eq_true.
  destruct (likedUserIds v); [by apply elem_of_nil in Hliked | cbn; lia].
Qed.

(** C8: the serialized vacation has [likesCount] equal to the number of
    entries of [likedUserIds], has [likedByMe] equal to the membership of
    the requesting user in [likedUserIds], and has no property
    [likedUserIds]. *)
Theorem serializeVacation_computed_fields (v : IVacationModel) (userId : string) :
  serializeVacation baseImageUrl v userId !! "likesCount"
  = Some (JNum (Z.of_nat (length (likedUserIds v))))
  /\ serializeVacation baseImageUrl v userId !! "likedByMe"
     = Some (JBool (bool_decide (userId ∈ likedUserIds v)))
  /\ serializeVacation baseImageUrl v userId !! "likedUserIds" = None.
Proof.
  split; [apply serialized_likesCount |].
  split; [apply serialized_likedByMe | apply serialized_likedUserIds].
Qed.

End SerializerProperties.

Section ReportProperties.

Import Backend.

Lemma escapeQuotes_doubled s : VacationService.escapeQuotes s = doubled s.
Proof.
  unfold doubled. induction s as [|c s IH]; [done |].
  cbn. rewrite IH. by destruct (Ascii.eqb c _).
Qed.

Lemma string_app_assoc (a b c : string) : (a ++ b) ++ c = a ++ (b ++ c).
Proof.
  induction a as [|x a IH]; [done |].
  change (String x ((a ++ b) ++ c) = String x (a ++ (b ++ c))). by rewrite IH.
Qed.

Lemma string_app_nil_r (a : string) : a ++ "" = a.
Proof.
  induction a as [|x a IH]; [done |].
  change (String x (a ++ "") = String x a). by rewrite IH.
Qed.

Lemma concat_empty_cons (x : string) (xs : list string) :
  String.concat "" (x :: xs) = x ++ String.concat "" xs.
Proof. destruct xs; cbn; [by rewrite string_app_nil_r | done]. Qed.

(** Joining with a separator is leading every part but the first with it. *)
Lemma join_concat sep first rest :
  join sep (first :: rest) = first ++ String.concat "" (map (fun r => sep ++ r) rest).
Proof.
  revert first. induction rest as [|r rest IH]; intros first.
  - cbn. by rewrite string_app_nil_r.
  - change (join sep (first :: r :: rest)) with (first ++ sep ++ join sep (r :: rest)).
    rewrite IH. cbn [map]. rewrite concat_empty_cons.
    by rewrite (string_app_assoc sep r).
Qed.

Lemma csvRow_reportLine v : newline ++ VacationService.csvRow v = reportLine v.
Proof.
  unfold VacationService.csvRow, reportLine. cbv zeta.
  by rewrite escapeQuotes_doubled, !string_app_assoc.
Qed.

(** C7: the report is the byte-order mark, the header line and, for each
    vacation in stored order, a newline and a line made of the destination
    between double quotes with every double quote of it doubled, a comma and
    the number of entries of the liking set; the world is left as it was;
    and for Paris with three likes and São "Tropez" with none, the text
    after the mark is the one of the scenario. *)
Theorem generateVacationsReportCSV_format (w : World) :
  VacationService.generateVacationsReportCSV w
  = (inr (BOM ++ "destination,likes" ++ String.concat "" (map reportLine (vacations w))),
     w)
  /\ fst (VacationService.generateVacationsReportCSV
            (world [vacation paris "Paris" (day 11) (day 16) 500
                      [aliceId; bobId; carolId];
                    vacation rome ("São " ++ dquote ++ "Tropez" ++ dquote)
                      (day 20) (day 27) 900 []] []))
     = inr (BOM ++ "destination,likes" ++ newline
            ++ dquote ++ "Paris" ++ dquote ++ ",3" ++ newline
            ++ dquote ++ "São " ++ dquote ++ dquote ++ "Tropez" ++ dquote ++ dquote
            ++ dquote ++ ",0").
Proof.
  split; [|reflexivity].
  unfold VacationService.generateVacationsReportCSV.
  rewrite join_concat, map_map.
  rewrite (map_ext _ reportLine) by apply csvRow_reportLine. reflexivity.
Qed.

End ReportProperties.

(** * Properties of the pagination parameters *)

Section PaginationProperties.

Import Backend.

Lemma this_ofZ z : this (Q2Qc (inject_Z z)) = inject_Z z.
Proof. cbn. apply Qred_identity. cbn. apply Z.gcd_1_r. Qed.

Lemma positive_integer_test n :
  Number_isInteger n && gt_zero n = true <-> isPositiveInteger n.
Proof.
  split.
  - destruct n as [| | |q]; cbn; try discriminate.
    intros [Hden Hnum]%andb_prop.
    apply bool_decide_eq_true in Hden. apply bool_decide_eq_true in Hnum.
    exists (Qnum (this q)). split; [done |].
    unfold ofZ. f_equal. apply Qc_is_canon. rewrite this_ofZ.
    destruct q as [[num den] Hcanon]. cbn in *. by subst.
  - intros (z & Hz & ->). unfold ofZ, Number_isInteger, gt_zero.
    rewrite this_ofZ. cbn. rewrite bool_decide_eq_true_2 by done.
    by rewrite bool_decide_eq_true_2.
Qed.

Lemma positive_integer_dec n : isPositiveInteger n \/ ~ isPositiveInteger n.
Proof.
  destruct (Number_isInteger n && gt_zero n) eqn:Htest.
  - left. by apply positive_integer_test.
  - right. intros H%positive_integer_test. congruence.
Qed.

Section Parse.

Variable Number : option string -> JSNumber.

Lemma parse_positive fallback value :
  isPositiveInteger (Number value) ->
  (let n := Number value in
   if Number_isInteger n && gt_zero n then n else ofZ fallback) = Number value.
Proof. intros H%positive_integer_test. cbv zeta. by rewrite H. Qed.

Lemma parse_fallback fallback value :
  ~ isPositiveInteger (Number value) ->
  (let n := Number value in
   if Number_isInteger n && gt_zero n then n else ofZ fallback) = ofZ fallback.
Proof.
  intros H. cbv zeta. destruct (Number_isInteger _ && gt_zero _) eqn:Htest; [|done].
  by apply positive_integer_test in Htest.
Qed.

Lemma parsePage_positive value : isPositiveInteger (parsePage Number value).
Proof.
  destruct (positive_integer_dec (Number value)) as [H | H].
  - unfold parsePage. by rewrite parse_positive.
  - unfold parsePage. rewrite parse_fallback by done. by exists 1%Z.
Qed.

Lemma parsePageSize_positive value : isPositiveInteger (parsePageSize Number value).
Proof.
  destruct (positive_integer_dec (Number value)) as [H | H].
  - unfold parsePageSize. by rewrite parse_positive.
  - unfold parsePageSize. rewrite parse_fallback by done. by exists 9%Z.
Qed.

End Parse.

Lemma toNat_positive n : isPositiveInteger n -> (1 <= toNat n)%nat.
Proof.
  intros (z & Hz & ->). unfold toNat, ofZ. rewrite this_ofZ. cbn.
  rewrite bool_decide_eq_true_2 by done. lia.
Qed.

(** C9: whatever the conversion makes of the value, [parsePage] returns the
    converted number when that is a positive integer and 1 otherwise, and
    [parsePageSize] returns it when it is a positive integer and 9
    otherwise; a value that is not a number, an infinity, a number that is
    not positive and one that is not an integer all give the default; so
    each function returns the converted number exactly when that is a
    positive integer, and both always return a positive integer. *)
Theorem parse_page_and_size (Number : option string -> JSNumber) (value : option string) :
  (isPositiveInteger (Number value) ->
   parsePage Number value = Number value /\ parsePageSize Number value = Number value)
  /\ (~ isPositiveInteger (Number value) ->
      parsePage Number value = ofZ 1 /\ parsePageSize Number value = ofZ 9)
  /\ (parsePage Number value = Number value <-> isPositiveInteger (Number value))
  /\ (parsePageSize Number value = Number value <-> isPositiveInteger (Number value))
  /\ isPositiveInteger (parsePage Number value)
  /\ isPositiveInteger (parsePageSize Number value).
Proof.
  split; [|split; [|split; [|split; [|split]]]].
  - intros H. split; by apply parse_positive.
  - intros H. split; by apply parse_fallback.
  - split; [|by apply parse_positive].
    intros Heq. rewrite <- Heq. apply parsePage_positive.
  - split; [|by apply parse_positive].
    intros Heq. rewrite <- Heq. apply parsePageSize_positive.
  - apply parsePage_positive.
  - apply parsePageSize_positive.
Qed.

Lemma parse_page_and_size_witness :
  (parsePage NumberOnDigits (Some "3") = ofZ 3
   /\ parsePageSize NumberOnDigits (Some "3") = ofZ 3)
  /\ (parsePage NumberOnDigits None = ofZ 1
      /\ parsePageSize NumberOnDigits None = ofZ 9)
  /\ (parsePage NumberOnDigits (Some "0") = ofZ 1
      /\ parsePageSize NumberOnDigits (Some "0") = ofZ 9).
Proof.
  split; [|split].
  - apply (parse_page_and_size NumberOnDigits (Some "3")).
    exists 3%Z. split; [lia | reflexivity].
  - apply (parse_page_and_size NumberOnDigits None).
    intros (z & _ & Hz). discriminate Hz.
  - apply (parse_page_and_size NumberOnDigits (Some "0")).
    intros (z & Hz & Heq). change (NumberOnDigits (Some "0")) with (ofZ 0) in Heq.
    apply (f_equal toNat) in Heq. unfold toNat, ofZ in Heq. rewrite !this_ofZ in Heq. cbn in Heq.
    rewrite !bool_decide_eq_true_2 in Heq by done. lia.
Defined.

End PaginationProperties.

(** * Properties of the registration *)

Section RegisterProperties.

Import Backend Backend.UserService.

Variable hash : string -> string.
Variable jwt_sign : Z -> IUserModel -> string.
Variable emailFormat : string -> bool.

(** What one registration does to the collection of users. *)
Lemma register_users now payload w :
  match register hash jwt_sign emailFormat now payload w with
  | (inr token, w') =>
      exists saved,
        users w' = (users w ++ [saved])%list
        /\ hasUserRole saved
        /\ user_id saved = user_id payload
        /\ email saved = email payload
        /\ token = generateToken jwt_sign now saved
  | (inl _, w') => w' = w
  end.
Proof.
  unfold register, await, validateUser.
  destruct (validateUserSync emailFormat payload); [|done]. cbn.
  destruct (password payload) as [pw|]; [|done].
  destruct (String.eqb pw ""); [done |]. cbn.
  case_bool_decide; [done |]. unfold saveUser. cbn.
  destruct (existsb _ (users w)); [done |].
  destruct (existsb _ (users w)); [done |]. cbn.
  eexists. repeat split.
Qed.

Lemma registerAll_users payloads w :
  exists added,
    users (registerAll hash jwt_sign emailFormat payloads w) = (users w ++ added)%list
    /\ Forall hasUserRole added.
Proof.
  unfold registerAll. revert w.
  induction payloads as [|payload payloads IH]; intros w.
  - exists []. split; [by rewrite app_nil_r | constructor].
  - cbn [fold_left].
    destruct payload as [now payload]. cbn [fst snd].
    pose proof (register_users now payload w) as Hone.
    destruct (register hash jwt_sign emailFormat now payload w) as [[err | token] w'];
      cbn [snd].
    + subst w'. apply IH.
    + destruct Hone as (saved & Husers & Hrole & _).
      destruct (IH w') as (added & Hall & Hroles).
      exists (saved :: added). split; [|by constructor].
      rewrite Hall, Husers. by rewrite <- app_assoc.
Qed.

(** C10: a registration that succeeds appends exactly one user, whose
    [roleId] is the value of [Role.User] whatever the payload carried, and
    one that fails leaves the world as it was; so every user added by any
    sequence of registrations has the user role. *)
Theorem register_assigns_user_role (now : Z) (payload : IUserModel) (w : World) :
  match register hash jwt_sign emailFormat now payload w with
  | (inr token, w') =>
      exists saved,
        users w' = (users w ++ [saved])%list
        /\ roleId saved = Some (Role_value User)
        /\ user_id saved = user_id payload
        /\ email saved = email payload
  | (inl _, w') => w' = w
  end
  /\ forall payloads,
       exists added,
         users (registerAll hash jwt_sign emailFormat payloads w)
         = (users w ++ added)%list
         /\ Forall (fun u => roleId u = Some (Role_value User)) added.
Proof.
  split.
  - pose proof (register_users now payload w) as Hone.
    destruct (register hash jwt_sign emailFormat now payload w) as [[err | token] w'].
    + exact Hone.
    + destruct Hone as (saved & H1 & H2 & H3 & H4 & _). by exists saved.
  - intros payloads. apply registerAll_users.
Qed.

End RegisterProperties.

(** A payload that asks for the administrator role is registered as a
    user. *)
Example register_admin_payload :
  let payload := user carolId "Mallory" "Admin" "mallory@example.org" "secret"
                   (Some (Backend.Role_value Backend.Admin)) in
  map Backend.roleId
    (Backend.users
       (snd (Backend.UserService.register (fun pw => "hashed:" ++ pw)
               (fun _ u => "token:" ++ Backend.user_id u) (fun _ => true)
               (day 3) payload (world [] []))))
  = [Some (Backend.Role_value Backend.User)].
Proof. reflexivity. Qed.

(** * Properties of the paginated retrieval *)

Section RetrievalProperties.

Import Backend Backend.Controller.

#[local] Instance startDate_le_total : Total startDate_le.
Proof.
  intros a b. unfold startDate_le.
  destruct (startDate a), (startDate b); try tauto. lia.
Qed.

(** The ceiling of a quotient of counts, on integers. *)
Lemma Qceiling_div (a : Z) (p : positive) :
  Qceiling (inject_Z a / inject_Z (Zpos p)) = (- ((- a) / Zpos p))%Z.
Proof.
  unfold Qceiling, Qfloor, Qdiv, Qmult, Qinv, Qopp, inject_Z. cbn.
  by rewrite Z.mul_1_r.
Qed.

(** [Math_ceil_div] is the least number of pages that hold all items. *)
Lemma Math_ceil_div_least totalCount pageSize :
  (1 <= pageSize)%nat ->
  (totalCount <= Math_ceil_div totalCount pageSize * pageSize)%nat
  /\ forall k, (totalCount <= k * pageSize)%nat ->
               (Math_ceil_div totalCount pageSize <= k)%nat.
Proof.
  intros Hsize. unfold Math_ceil_div.
  destruct pageSize as [|n]; [lia |].
  change (Z.of_nat (S n)) with (Zpos (Pos.of_succ_nat n)).
  rewrite Qceiling_div.
  set (b := Zpos (Pos.of_succ_nat n)).
  assert (b = Z.of_nat (S n)) as Hb by reflexivity.
  pose proof (Z.div_mod (- Z.of_nat totalCount) b ltac:(lia)) as Hdiv.
  pose proof (Z.mod_pos_bound (- Z.of_nat totalCount) b ltac:(lia)) as Hmod.
  set (q := (- Z.of_nat totalCount / b)%Z) in *.
  set (r := (- Z.of_nat totalCount mod b)%Z) in *.
  assert (q <= 0)%Z as Hq by nia.
  split.
  - apply Nat2Z.inj_le. rewrite Nat2Z.inj_mul, Z2Nat.id by lia. nia.
  - intros k Hk. apply Nat2Z.inj_le in Hk. rewrite Nat2Z.inj_mul in Hk.
    apply Nat2Z.inj_le. rewrite Z2Nat.id by lia. nia.
Qed.

(** The first [k] windows, one after the other, are the first [k] times
    [pageSize] items. *)
Lemma windows_concat {A} (l : list A) (pageSize k : nat) :
  concat (map (fun page => take pageSize (drop ((page - 1) * pageSize) l)) (seq 1 k))
  = take (k * pageSize) l.
Proof.
  induction k as [|k IH]; [done |].
  rewrite seq_S, map_app, concat_app, IH. cbn [map concat].
  rewrite app_nil_r. replace ((1 + k - 1) * pageSize)%nat with (k * pageSize)%nat by lia.
  rewrite take_take_drop. f_equal. lia.
Qed.

Lemma getVacations_answer now filter userId page pageSize w :
  VacationService.getVacations now filter userId page pageSize w
  = (inr (take pageSize
            (drop ((page - 1) * pageSize)
               (merge_sort startDate_le
                  (List.filter (matches (buildVacationQuery filter userId now))
                     (vacations w)))),
          length (List.filter (matches (buildVacationQuery filter userId now))
                    (vacations w))),
     w).
Proof. reflexivity. Qed.

(** C6: for a page size of at least one, the total count is the number of
    matching vacations; the vacations are ordered ascending by start date
    (a rearrangement of the matching ones); page [p] is the window of
    [pageSize] items after the first [(p - 1) * pageSize]; the total pages
    reported are the ceiling of total count by page size, the least number
    of pages holding them all; the pages 1 to total pages, one after the
    other, are the ordered vacations, so their sizes add up to the total
    count; and the controller answers with that page and these numbers. *)
Theorem pagination_law
  (now : Z) (filter : string) (userId : option ObjectId) (pageSize : nat) (w : World) :
  (1 <= pageSize)%nat ->
  let matching :=
    List.filter (matches (buildVacationQuery filter userId now)) (vacations w) in
  let ordered := merge_sort startDate_le matching in
  let totalCount := countOf now filter userId pageSize w in
  let totalPages := Math_ceil_div totalCount pageSize in
  totalCount = length matching
  /\ Sorted startDate_le ordered
  /\ Permutation ordered matching
  /\ (forall page, (1 <= page)%nat ->
        VacationService.getVacations now filter userId page pageSize w
        = (inr (take pageSize (drop ((page - 1) * pageSize) ordered), totalCount), w))
  /\ (totalCount <= totalPages * pageSize)%nat
  /\ (forall k, (totalCount <= k * pageSize)%nat -> (totalPages <= k)%nat)
  /\ concat (map (pageOf now filter userId pageSize w) (seq 1 totalPages)) = ordered
  /\ list_sum (map (fun page => length (pageOf now filter userId pageSize w page))
                 (seq 1 totalPages))
     = totalCount
  /\ forall Number baseImageUrl request user,
       parseFilter (query_filter request) = filter ->
       Some (user_id user) = userId ->
       toNat (parsePageSize Number (query_pageSize request)) = pageSize ->
       let page := toNat (parsePage Number (query_page request)) in
       Controller.getVacations Number baseImageUrl now request user w
       = (inr (json OK
                 (JsonPage
                    (serializeVacations baseImageUrl
                       (pageOf now filter userId pageSize w page) (user_id user))
                    page pageSize totalCount totalPages)),
          w).
Proof.
  intros Hsize matching ordered totalCount totalPages.
  assert (totalCount = length matching) as Hcount by reflexivity.
  assert (length ordered = totalCount) as Hlen.
  { rewrite Hcount. apply Permutation_length, merge_sort_Permutation. }
  destruct (Math_ceil_div_least totalCount pageSize Hsize) as [Hup Hleast].
  assert (concat (map (pageOf now filter userId pageSize w) (seq 1 totalPages))
          = ordered) as Hpages.
  { unfold pageOf. setoid_rewrite getVacations_answer. cbn [fst].
    fold matching. fold ordered. rewrite windows_concat.
    apply take_ge. fold totalPages in Hup. lia. }
  split; [done |].
  split; [apply Sorted_merge_sort; apply _ |].
  split; [apply merge_sort_Permutation |].
  split; [intros page _; apply getVacations_answer |].
  split; [exact Hup |].
  split; [exact Hleast |].
  split; [exact Hpages |].
  split.
  - rewrite <- Hlen, <- Hpages, length_concat, map_map. reflexivity.
  - intros Number baseImageUrl request user Hfilter Huser Hps page.
    unfold Controller.getVacations, await. rewrite Hfilter, Huser, Hps.
    fold page. rewrite getVacations_answer. reflexivity.
Qed.

Lemma pagination_law_witness :
  let w := world [vacation paris "Paris" (day 30) (day 35) 500 [];
                  vacation rome "Rome" (day 10) (day 15) 400 [aliceId];
                  vacation oslo "Oslo" (day 20) (day 25) 700 []] [] in
  countOf 0 "all" None 2 w = 3%nat
  /\ Math_ceil_div (countOf 0 "all" None 2 w) 2 = 2%nat
  /\ map Backend._id (pageOf 0 "all" None 2 w 1) = [rome; oslo]
  /\ map Backend._id (pageOf 0 "all" None 2 w 2) = [paris]
  /\ list_sum (map (fun page => length (pageOf 0 "all" None 2 w page))
                 (seq 1 (Math_ceil_div (countOf 0 "all" None 2 w) 2)))
     = countOf 0 "all" None 2 w.
Proof.
  intros w.
  destruct (pagination_law 0 "all" None 2 w ltac:(lia))
    as (_ & _ & _ & _ & _ & _ & _ & Hsum & _).
  split; [reflexivity |].
  split; [reflexivity |].
  split; [reflexivity |].
  split; [reflexivity |].
  exact Hsum.
Defined.

End RetrievalProperties.
(** * Further properties of like and unlike *)

Section LikeServiceProperties.

Import Backend Backend.VacationService.

#[local] Arguments addToSet : simpl never.
#[local] Arguments pull : simpl never.

Lemma addToSet_idem user ids : addToSet user (addToSet user ids) = addToSet user ids.
Proof.
  unfold addToSet. destruct (decide (user ∈ ids)) as [Hin | Hnot].
  - by rewrite !(bool_decide_eq_true_2 _ Hin).
  - rewrite (bool_decide_eq_false_2 _ Hnot).
    rewrite bool_decide_eq_true_2; [done |]. apply elem_of_app. right. by left.
Qed.

Lemma pull_absent user ids : user ∉ ids -> pull user ids = ids.
Proof.
  unfold pull. induction ids as [|id ids IH]; [done |].
  intros [Hne Hnot]%not_elem_of_cons.
  rewrite filter_cons_True by done. by rewrite IH.
Qed.

Lemma pull_gone user ids : user ∉ pull user ids.
Proof. unfold pull. intros [Hne _]%list_elem_of_filter. done. Qed.

Lemma pull_idem user ids : pull user (pull user ids) = pull user ids.
Proof. apply pull_absent, pull_gone. Qed.

Lemma pull_app user xs ys : pull user (xs ++ ys)%list = (pull user xs ++ pull user ys)%list.
Proof. unfold pull. apply filter_app. Qed.

Lemma liking_twice user v : liking user (liking user v) = liking user v.
Proof. unfold liking, set_likedUserIds. simpl. by rewrite addToSet_idem. Qed.

Lemma unliking_twice user v : unliking user (unliking user v) = unliking user v.
Proof. unfold unliking, set_likedUserIds. simpl. by rewrite pull_idem. Qed.

(** A second like or unlike writes the instant of the call and nothing
    else. *)
Lemma restamp_liking t1 t2 user v :
  withoutUpdatedAt (set_updatedAt (Some t2) (liking user (set_updatedAt (Some t1)
                                                             (liking user v))))
  = withoutUpdatedAt (set_updatedAt (Some t1) (liking user v)).
Proof.
  unfold withoutUpdatedAt, set_updatedAt, set_timestamps, liking, set_likedUserIds.
  simpl. by rewrite addToSet_idem.
Qed.

Lemma restamp_unliking t1 t2 user v :
  withoutUpdatedAt (set_updatedAt (Some t2) (unliking user (set_updatedAt (Some t1)
                                                               (unliking user v))))
  = withoutUpdatedAt (set_updatedAt (Some t1) (unliking user v)).
Proof.
  unfold withoutUpdatedAt, set_updatedAt, set_timestamps, unliking, set_likedUserIds.
  simpl. by rewrite pull_idem.
Qed.

(** X1: liking twice is liking once, and unliking twice is unliking once,
    but for the instant of the last write: the second call answers what the
    first answered (the same vacation with a new [updatedAt], or the same
    error) and leaves the collection as the first left it, up to
    [updatedAt]. *)
Theorem like_unlike_idempotent
  (t1 t2 : Z) (vacationId : string) (user : ObjectId) (w : World) :
  (let first := likeVacation t1 vacationId user w in
   let second := likeVacation t2 vacationId user (snd first) in
   sum_map id withoutUpdatedAt (fst second) = sum_map id withoutUpdatedAt (fst first)
   /\ (forall v, fst second = inr v -> updatedAt v = Some t2)
   /\ map withoutUpdatedAt (vacations (snd second))
      = map withoutUpdatedAt (vacations (snd first)))
  /\ (let first := unlikeVacation t1 vacationId user w in
      let second := unlikeVacation t2 vacationId user (snd first) in
      sum_map id withoutUpdatedAt (fst second) = sum_map id withoutUpdatedAt (fst first)
      /\ (forall v, fst second = inr v -> updatedAt v = Some t2)
      /\ map withoutUpdatedAt (vacations (snd second))
         = map withoutUpdatedAt (vacations (snd first))).
Proof.
  split; cbv zeta.
  - rewrite !likeVacation_run.
    destruct (castObjectId vacationId) as [oid|] eqn:Hid; [|done].
    cbn. rewrite find_update_first by done. split; [|split].
    + destruct (find (has_id oid) (vacations w)); cbn; [|done].
      by rewrite restamp_liking.
    + destruct (find (has_id oid) (vacations w)); cbn; [|done]. by intros v [= <-].
    + rewrite update_first_compose by done.
      induction (vacations w) as [|v vs IH]; [done |]. cbn.
      destruct (has_id oid v); cbn; [by rewrite restamp_liking | by rewrite IH].
  - rewrite !unlikeVacation_run.
    destruct (castObjectId vacationId) as [oid|] eqn:Hid; [|done].
    cbn. rewrite find_update_first by done. split; [|split].
    + destruct (find (has_id oid) (vacations w)); cbn; [|done].
      by rewrite restamp_unliking.
    + destruct (find (has_id oid) (vacations w)); cbn; [|done]. by intros v [= <-].
    + rewrite update_first_compose by done.
      induction (vacations w) as [|v vs IH]; [done |]. cbn.
      destruct (has_id oid v); cbn; [by rewrite restamp_unliking | by rewrite IH].
Qed.

Lemma unliking_liking t1 t2 user v :
  user ∉ likedUserIds v ->
  withoutUpdatedAt (set_updatedAt (Some t2) (unliking user (set_updatedAt (Some t1)
                                                               (liking user v))))
  = withoutUpdatedAt v.
Proof.
  intros Hnot.
  unfold withoutUpdatedAt, set_updatedAt, set_timestamps, unliking, liking,
    set_likedUserIds. simpl.
  unfold addToSet. rewrite (bool_decide_eq_false_2 _ Hnot).
  rewrite pull_app, (pull_absent _ _ Hnot).
  assert (pull user [user] = []) as ->.
  { unfold pull. by rewrite filter_cons_False by (intros H; by apply H). }
  by rewrite app_nil_r.
Qed.

(** X2: a like followed by an unlike of the same user gives back the
    collection as it was but for the instant of the last write of the
    vacation, when the user was not among those who like it; the vacations
    with another id are as they were, that instant included. *)
Theorem like_then_unlike_restores
  (t1 t2 : Z) (vacationId : string) (user : ObjectId) (w : World) :
  (forall oid v, castObjectId vacationId = Some oid ->
                 find (has_id oid) (vacations w) = Some v ->
                 user ∉ likedUserIds v) ->
  let after := snd (unlikeVacation t2 vacationId user
                      (snd (likeVacation t1 vacationId user w))) in
  map withoutUpdatedAt (vacations after) = map withoutUpdatedAt (vacations w)
  /\ (forall oid, castObjectId vacationId = Some oid ->
                  others oid (vacations after) = others oid (vacations w))
  /\ (castObjectId vacationId = None -> vacations after = vacations w).
Proof.
  intros Hnot. cbv zeta. rewrite unlikeVacation_run, likeVacation_run.
  destruct (castObjectId vacationId) as [oid|] eqn:Hid; [|done].
  cbn. rewrite update_first_compose by done. split; [|split; [|done]].
  - specialize (Hnot oid).
    induction (vacations w) as [|v vs IH]; [done |]. cbn in *.
    destruct (has_id oid v); cbn.
    + rewrite unliking_liking; [done |]. by apply Hnot.
    + rewrite IH; [done |]. exact Hnot.
  - intros ? [= <-]. unfold others. by rewrite others_update_first.
Qed.

Lemma like_then_unlike_restores_witness :
  let w := world [vacation paris "Paris" (day 11) (day 16) 500 [bobId];
                  vacation rome "Rome" (day 20) (day 25) 400 [aliceId]] [] in
  let after := snd (Backend.VacationService.unlikeVacation (day 4) paris aliceId
                      (snd (Backend.VacationService.likeVacation (day 3) paris aliceId w))) in
  map withoutUpdatedAt (vacations after) = map withoutUpdatedAt (vacations w)
  /\ map updatedAt (vacations after) = [Some (day 4); Some (day 1)].
Proof.
  intros w after. split; [|reflexivity].
  apply (like_then_unlike_restores (day 3) (day 4) paris aliceId w).
  intros oid v [= <-] [= <-]. cbn. intros Hin.
  apply elem_of_cons in Hin as [Heq | Hin]; [discriminate | by apply elem_of_nil in Hin].
Defined.

Lemma elem_of_addToSet user other ids :
  other ∈ addToSet user ids <-> other = user \/ other ∈ ids.
Proof.
  unfold addToSet. case_bool_decide as Hin.
  - split; [by right | by intros [-> | H]].
  - rewrite elem_of_app, list_elem_of_singleton. tauto.
Qed.

Lemma elem_of_pull user other ids :
  other ∈ pull user ids <-> other ≠ user /\ other ∈ ids.
Proof. unfold pull. by rewrite list_elem_of_filter. Qed.

(** X3: for an id that is no [ObjectId] both calls throw the [CastError]
    of the database layer, and for one that names no vacation
    [ResourceNotFound]; the collection is then as it was.  On a vacation
    that exists, the vacation [likeVacation] answers has the user in its
    liking set, the one [unlikeVacation] answers has not; neither changes
    who else is in the set, nor anything of the vacation but the set and
    [updatedAt], which is the instant of the call. *)
Theorem like_unlike_set_semantics
  (now : Z) (vacationId : string) (user : ObjectId) (w : World) :
  let like := likeVacation now vacationId user w in
  let unlike := unlikeVacation now vacationId user w in
  match castObjectId vacationId with
  | None =>
      fst like = inl (CastError vacationId)
      /\ fst unlike = inl (CastError vacationId)
      /\ vacations (snd like) = vacations w
      /\ vacations (snd unlike) = vacations w
  | Some oid =>
      match find (has_id oid) (vacations w) with
      | Some old =>
          exists liked unliked,
            fst like = inr liked
            /\ fst unlike = inr unliked
            /\ user ∈ likedUserIds liked
            /\ (user ∉ likedUserIds unliked)
            /\ (forall other, other ≠ user ->
                  (other ∈ likedUserIds liked <-> other ∈ likedUserIds old)
                  /\ (other ∈ likedUserIds unliked <-> other ∈ likedUserIds old))
            /\ withoutLikes (withoutUpdatedAt liked) = withoutLikes (withoutUpdatedAt old)
            /\ withoutLikes (withoutUpdatedAt unliked)
               = withoutLikes (withoutUpdatedAt old)
            /\ updatedAt liked = Some now
            /\ updatedAt unliked = Some now
      | None =>
          fst like = inl (ResourceNotFound vacationId)
          /\ fst unlike = inl (ResourceNotFound vacationId)
          /\ vacations (snd like) = vacations w
          /\ vacations (snd unlike) = vacations w
      end
  end.
Proof.
  cbv zeta. rewrite likeVacation_run, unlikeVacation_run.
  destruct (castObjectId vacationId) as [oid|]; [|done]. cbn.
  destruct (find (has_id oid) (vacations w)) as [old|] eqn:Hfind.
  - eexists _, _. split; [done |]. split; [done |]. cbn.
    split; [apply elem_of_addToSet; by left |].
    split; [apply pull_gone |].
    split; [|done].
    intros other Hne. rewrite elem_of_addToSet, elem_of_pull. tauto.
  - by rewrite !update_first_absent.
Qed.

(** X4: like and unlike write nothing but liking sets and [updatedAt]:
    with both taken out the collection is what it was, the vacations with
    another id are untouched, nothing is written for an id that is no
    [ObjectId], and the users and the image store are unchanged. *)
Theorem like_unlike_touch_liking_sets_only
  (now : Z) (vacationId : string) (user : ObjectId) (w : World) :
  let bare := fun v => withoutLikes (withoutUpdatedAt v) in
  let liked := snd (likeVacation now vacationId user w) in
  let unliked := snd (unlikeVacation now vacationId user w) in
  map bare (vacations liked) = map bare (vacations w)
  /\ map bare (vacations unliked) = map bare (vacations w)
  /\ (forall oid, castObjectId vacationId = Some oid ->
        others oid (vacations liked) = others oid (vacations w)
        /\ others oid (vacations unliked) = others oid (vacations w))
  /\ (castObjectId vacationId = None ->
      vacations liked = vacations w /\ vacations unliked = vacations w)
  /\ users liked = users w /\ users unliked = users w
  /\ images liked = images w /\ images unliked = images w.
Proof.
  cbv zeta. rewrite likeVacation_run, unlikeVacation_run.
  destruct (castObjectId vacationId) as [oid|]; [|by repeat split]. cbn.
  rewrite !map_update_first by done.
  split; [done |]. split; [done |]. split; [|by repeat split].
  intros ? [= <-]. unfold others. by rewrite !others_update_first.
Qed.

Lemma NoDup_addToSet user ids : NoDup ids -> NoDup (addToSet user ids).
Proof.
  intros Hids. unfold addToSet. case_bool_decide as Hin; [done |].
  apply NoDup_app. split; [done |]. split; [|apply NoDup_singleton].
  intros x Hx ->%list_elem_of_singleton. done.
Qed.

Lemma NoDup_pull user ids : NoDup ids -> NoDup (pull user ids).
Proof. unfold pull. apply NoDup_filter. Qed.

(** X5: when no liking set names a user twice, none does after a like or
    an unlike; the length of a liking set then counts the users who like. *)
Theorem like_unlike_keep_likers_distinct
  (now : Z) (vacationId : string) (user : ObjectId) (w : World) :
  likersDistinct (vacations w) ->
  likersDistinct (vacations (snd (likeVacation now vacationId user w)))
  /\ likersDistinct (vacations (snd (unlikeVacation now vacationId user w))).
Proof.
  intros Hw. rewrite likeVacation_run, unlikeVacation_run.
  destruct (castObjectId vacationId) as [oid|]; [|done]. cbn. split.
  - apply Forall_update_first; [|done]. intros v. apply NoDup_addToSet.
  - apply Forall_update_first; [|done]. intros v. apply NoDup_pull.
Qed.

Lemma like_unlike_keep_likers_distinct_witness :
  let w := world [vacation paris "Paris" (day 11) (day 16) 500 [bobId; aliceId]] [] in
  likersDistinct
    (vacations (snd (Backend.VacationService.likeVacation (day 3) paris aliceId w)))
  /\ likersDistinct
       (vacations (snd (Backend.VacationService.unlikeVacation (day 3) paris aliceId w))).
Proof.
  intros w. apply (like_unlike_keep_likers_distinct (day 3) paris aliceId w).
  constructor; [|constructor]. cbn.
  apply NoDup_cons. split; [|apply NoDup_singleton].
  intros Hin%list_elem_of_singleton. discriminate.
Defined.

Lemma addToSet_in user ids : user ∈ ids -> addToSet user ids = ids.
Proof. intros H. unfold addToSet. by rewrite (bool_decide_eq_true_2 _ H). Qed.

Lemma addToSet_notin user ids : user ∉ ids -> addToSet user ids = (ids ++ [user])%list.
Proof. intros H. unfold addToSet. by rewrite (bool_decide_eq_false_2 _ H). Qed.

Lemma addToSet_comm a b ids :
  addToSet b (addToSet a ids) ≡ₚ addToSet a (addToSet b ids).
Proof.
  destruct (decide (a = b)) as [-> | Hne]; [reflexivity |].
  destruct (decide (a ∈ ids)) as [Ha | Ha], (decide (b ∈ ids)) as [Hb | Hb].
  - by rewrite (addToSet_in a ids), (addToSet_in b ids), (addToSet_in a ids).
  - rewrite (addToSet_in a ids), (addToSet_notin b ids) by done.
    rewrite (addToSet_in a); [done |]. apply elem_of_app. by left.
  - rewrite (addToSet_notin a ids), (addToSet_in b ids) by done.
    rewrite (addToSet_in b), (addToSet_notin a ids); [done | done |].
    apply elem_of_app. by left.
  - rewrite (addToSet_notin a ids), (addToSet_notin b ids) by done.
    rewrite !addToSet_notin.
    + rewrite <- !app_assoc. apply Permutation_app_head. apply perm_swap.
    + rewrite elem_of_app, list_elem_of_singleton. intros [H | H]; [done | by subst].
    + rewrite elem_of_app, list_elem_of_singleton. intros [H | H]; [done | by subst].
Qed.

(** X6: the likes of two users commute: whichever request is served first,
    the collection ends with the same vacations and, in each, the same
    users in the liking set (in an order that may differ). *)
Theorem likes_of_two_users_commute
  (t1 t2 : Z) (vacationId : string) (a b : ObjectId) (w : World) :
  Forall2
    (fun x y => withoutLikes x = withoutLikes y /\ likedUserIds x ≡ₚ likedUserIds y)
    (vacations (snd (likeVacation t2 vacationId b (snd (likeVacation t1 vacationId a w)))))
    (vacations (snd (likeVacation t2 vacationId a (snd (likeVacation t1 vacationId b w))))).
Proof.
  rewrite !likeVacation_run.
  destruct (castObjectId vacationId) as [oid|] eqn:Hid.
  - cbn. rewrite !update_first_compose by done.
    apply Forall2_update_first; [done |].
    intros v. split; [done |]. cbn. apply addToSet_comm.
  - cbn. apply Forall2_same_length_lookup_2; [done |].
    intros i x y Hx Hy. by simplify_eq.
Qed.

End LikeServiceProperties.

(** * Further properties of the vacation service *)

Section CrudProperties.

Import Backend Backend.VacationService.

#[local] Arguments addToSet : simpl never.
#[local] Arguments pull : simpl never.

Lemma wellFormed_set_imageName name v : wellFormed v -> wellFormed (set_imageName name v).
Proof. done. Qed.

Lemma wellFormed_set_likedUserIds ids v :
  wellFormed v -> wellFormed (set_likedUserIds ids v).
Proof. done. Qed.

Lemma wellFormed_set_timestamps created updated v :
  wellFormed v -> wellFormed (set_timestamps created updated v).
Proof. done. Qed.

(** The document an update writes is well-formed when the new one is, the
    old one having a proper identifier. *)
Lemma wellFormed_set_updateData new old :
  wellFormed new -> wellFormed old -> wellFormed (set_updateData new old).
Proof.
  intros [Hvalid Hdates] [Hold _].
  unfold wellFormed, validateSync, endsBeforeStart in *.
  apply app_nil_inv in Hold as [Hid _]. apply app_nil_inv in Hvalid as [_ Hvalid].
  cbn [_id set_updateData]. rewrite Hid. cbn [app].
  destruct new as [i [d|] [d'|] [s|] [e|] [p|] n u pid likes c m]; cbn in *;
    try done.
  all: repeat match goal with
         | H : (_ ++ _)%list = [] |- _ => apply app_nil_inv in H as [? H]
         end; try discriminate.
Qed.

Lemma addVacation_keeps_wellFormed now tz v image w :
  Forall wellFormed (vacations w) ->
  Forall wellFormed (vacations (snd (addVacation now tz v image w))).
Proof.
  intros Hw. unfold addVacation, await, validate.
  destruct (validateSync v) eqn:Hvalid; cbn; [|done].
  destruct (date_lt _ _); [done |].
  destruct (date_lt (endDate v) (startDate v)) eqn:Hdates; [done |].
  assert (wellFormed v) as Hv.
  { split; [done |]. unfold endsBeforeStart.
    destruct (startDate v), (endDate v); done. }
  destruct image; unfold save; cbn; destruct (existsb _ _); cbn; try done;
    apply Forall_app; (split; [done |]); (constructor; [exact Hv | constructor]).
Qed.

Lemma updateVacation_keeps_wellFormed now v image w :
  Forall wellFormed (vacations w) ->
  Forall wellFormed (vacations (snd (updateVacation now v image w))).
Proof.
  intros Hw.
  destruct (validateSync v) as [|m ms] eqn:Hvalid;
    [|by unfold updateVacation, await, validate; rewrite Hvalid].
  destruct (date_lt (endDate v) (startDate v)) eqn:Hdates;
    [by unfold updateVacation, await; rewrite (validate_valid _ _ Hvalid), Hdates |].
  assert (wellFormed v) as Hv.
  { split; [done |]. unfold endsBeforeStart.
    destruct (startDate v), (endDate v); done. }
  rewrite (updateVacation_passed _ _ _ _ Hvalid Hdates).
  destruct (find (has_id (_id v)) (vacations w)) as [old|]; [|done].
  destruct image as [file|]; cbn; (apply Forall_update_first; [|done]); intros x Hx;
    apply wellFormed_set_timestamps, wellFormed_set_updateData; done.
Qed.

(** What a deletion leaves of the collection, and what it answers. *)
Lemma deleteVacation_run id w :
  fst (deleteVacation id w)
  = match castObjectId id with
    | None => inl (CastError id)
    | Some oid => match find (has_id oid) (vacations w) with
                  | Some _ => inr tt
                  | None => inl (ResourceNotFound id)
                  end
    end
  /\ vacations (snd (deleteVacation id w))
     = match castObjectId id with
       | None => vacations w
       | Some oid => remove_first oid (vacations w)
       end
  /\ images (snd (deleteVacation id w))
     = match castObjectId id with
       | None => images w
       | Some oid =>
           match find (has_id oid) (vacations w) with
           | Some v =>
               match imageName v with
               | Some name => if String.eqb name "" then images w
                              else filter (fun n => n ≠ name) (images w)
               | None => images w
               end
           | None => images w
           end
       end.
Proof.
  unfold deleteVacation, getImageName, getOneVacation, await.
  destruct (castObjectId id) as [oid|] eqn:Hid.
  - rewrite (findById_cast _ _ _ Hid).
    destruct (find (has_id oid) (vacations w)) as [v|] eqn:Hfind.
    + cbn. rewrite (findByIdAndDelete_cast _ _ _ Hid). cbn. rewrite Hfind.
      destruct (imageName v) as [name|]; [|done].
      by destruct (String.eqb name "").
    + cbn. split; [done |]. split; [|done].
      clear Hid. induction (vacations w) as [|x vs IH]; [done |]. cbn in *.
      destruct (has_id oid x); [done |]. by rewrite <- IH.
  - by rewrite (findById_fails _ _ Hid).
Qed.

Lemma cloud_deleteVacation_vacations id w :
  vacations (snd (CloudVacationService.deleteVacation id w)) = vacations w
  \/ exists oid, vacations (snd (CloudVacationService.deleteVacation id w))
                 = remove_first oid (vacations w).
Proof.
  unfold CloudVacationService.deleteVacation, await.
  destruct (castObjectId id) as [oid|] eqn:Hid.
  - rewrite (findById_cast _ _ _ Hid).
    destruct (find (has_id oid) (vacations w)) as [v|] eqn:Hfind; [|by left].
    unfold cloudinary_destroy. destruct (imagePublicId v) as [publicId|]; [|by left].
    cbn [imageStoreUp record]. destruct (imageStoreUp w); [|by left].
    cbn. rewrite (findByIdAndDelete_cast _ _ _ Hid). right. by exists oid.
  - rewrite (findById_fails _ _ Hid). by left.
Qed.

Lemma perform_keeps_wellFormed c w :
  Forall wellFormed (vacations w) -> Forall wellFormed (vacations (perform c w)).
Proof.
  intros Hw.
  destruct c as [now tz v image | now v image | id | id | now vid user | now vid user];
    cbn [perform].
  - by apply addVacation_keeps_wellFormed.
  - by apply updateVacation_keeps_wellFormed.
  - destruct (deleteVacation_run id w) as (_ & -> & _).
    destruct (castObjectId id); [by apply Forall_remove_first | done].
  - destruct (cloud_deleteVacation_vacations id w) as [-> | [oid ->]];
      [done | by apply Forall_remove_first].
  - rewrite likeVacation_run. destruct (castObjectId vid); [|done]. cbn.
    apply Forall_update_first; [|done].
    intros x Hx. by apply wellFormed_set_timestamps, wellFormed_set_likedUserIds.
  - rewrite unlikeVacation_run. destruct (castObjectId vid); [|done]. cbn.
    apply Forall_update_first; [|done].
    intros x Hx. by apply wellFormed_set_timestamps, wellFormed_set_likedUserIds.
Qed.

(** X7: the service keeps the collection well-formed: when every stored
    vacation passes the schema and ends no earlier than it starts, the same
    holds after any sequence of add, update, delete (of either revision),
    like and unlike calls, whatever their arguments and outcomes. *)
Theorem service_keeps_vacations_wellFormed (calls : list ServiceCall) (w : World) :
  Forall wellFormed (vacations w) ->
  Forall wellFormed (vacations (performAll calls w)).
Proof.
  unfold performAll. revert w.
  induction calls as [|c calls IH]; intros w Hw; [done |].
  cbn. apply IH. by apply perform_keeps_wellFormed.
Qed.

Lemma service_keeps_vacations_wellFormed_witness :
  let w := world [vacation paris "Paris" (day 11) (day 16) 500 [aliceId]] [] in
  Forall wellFormed
    (vacations
       (performAll
          [CallAdd (day 10) 0 (draft rome "Rome" (day 12) (day 11) 400 []) None;
           CallAdd (day 10) 0 (draft oslo "Oslo" (day 12) (day 14) 700 []) None;
           CallUpdate (day 10) (draft paris "Paris" (day 3) (day 2) 500 []) None;
           CallUpdate (day 10) (draft paris "Paris" (day 3) (day 4) 10001 []) None;
           CallLike (day 10) oslo bobId; CallDelete paris] w)).
Proof.
  intros w. apply service_keeps_vacations_wellFormed.
  constructor; [split; reflexivity | constructor].
Defined.

(** X8: [updateVacation] never touches a liking set: whatever the document,
    the image and the outcome, the collection has afterwards the same ids in
    the same order, each with the liking set it had. *)
Theorem updateVacation_keeps_liking_sets
  (now : Z) (v : IVacationModel) (image : option UploadedFile) (w : World) :
  map (fun x => (_id x, likedUserIds x)) (vacations (snd (updateVacation now v image w)))
  = map (fun x => (_id x, likedUserIds x)) (vacations w).
Proof.
  destruct (validateSync v) as [|m ms] eqn:Hvalid;
    [|by unfold updateVacation, await, validate; rewrite Hvalid].
  destruct (date_lt (endDate v) (startDate v)) eqn:Hdates;
    [by unfold updateVacation, await; rewrite (validate_valid _ _ Hvalid), Hdates |].
  rewrite (updateVacation_passed _ _ _ _ Hvalid Hdates).
  destruct (find (has_id (_id v)) (vacations w)) as [old|]; [|done].
  destruct image as [file|]; cbn; by rewrite map_update_first.
Qed.

(** X9: [addVacation] has three outcomes.  It answers the stored vacation,
    which it has appended to the collection under an [_id] that was not
    there, with the two time stamps and, when an image was given, with its
    name, the image being stored too.  Or it throws a [ValidationError] and
    has written nothing.  Or the database refuses the [_id] as one it
    holds: then no vacation is written, but the image that was given is in
    the store already. *)
Theorem addVacation_outcome
  (now tz : Z) (v : IVacationModel) (image : option UploadedFile) (w : World) :
  let named := match image with
               | Some file => set_imageName (Some file) v
               | None => v
               end in
  let written := match image with
                 | Some file => (images w ++ [file])%list
                 | None => images w
                 end in
  let created := Some (default now (createdAt v)) in
  match addVacation now tz v image w with
  | (inr stored, w') =>
      stored = set_timestamps created created named
      /\ vacations w' = (vacations w ++ [stored])%list
      /\ images w' = written
      /\ find (has_id (_id v)) (vacations w) = None
  | (inl (ValidationError _), w') => w' = w
  | (inl (DuplicateKey _ _ _), w') =>
      vacations w' = vacations w
      /\ images w' = written
      /\ is_Some (find (has_id (_id v)) (vacations w))
  | (inl _, _) => False
  end.
Proof.
  cbv zeta. unfold addVacation, await, validate.
  destruct (validateSync v); cbn; [|done].
  destruct (date_lt _ _); [done |].
  destruct (date_lt _ _); [done |].
  destruct image; unfold save; cbn; rewrite existsb_has_id;
    case_bool_decide as Hfound; cbn; try done.
  - split; [done |]. split; [done |]. split; [done |].
    by apply eq_None_not_Some.
  - split; [done |]. split; [done |]. split; [done |].
    by apply eq_None_not_Some.
Qed.

(** X10: the [deleteVacation] of the revision that keeps the images on disk
    throws the [CastError] of the database layer for an id that is no
    [ObjectId] and [ResourceNotFound] for one that names no vacation, and
    then deletes nothing; otherwise it removes one vacation, the first with
    the id, and the image file the vacation names (by a name that is not
    empty) from the store; when ids are unique, a lookup of the id
    afterwards throws [ResourceNotFound]. *)
Theorem deleteVacation_outcome (id : string) (w : World) :
  let after := deleteVacation id w in
  match castObjectId id with
  | None =>
      fst after = inl (CastError id)
      /\ vacations (snd after) = vacations w /\ images (snd after) = images w
  | Some oid =>
      match find (has_id oid) (vacations w) with
      | None =>
          fst after = inl (ResourceNotFound id)
          /\ vacations (snd after) = vacations w /\ images (snd after) = images w
      | Some v =>
          fst after = inr tt
          /\ vacations (snd after) = remove_first oid (vacations w)
          /\ S (length (vacations (snd after))) = length (vacations w)
          /\ (forall name, imageName v = Some name -> name ≠ "" ->
                           name ∉ images (snd after))
          /\ (NoDup (map _id (vacations w)) ->
              fst (getOneVacation id (snd after)) = inl (ResourceNotFound id))
      end
  end.
Proof.
  cbv zeta. destruct (deleteVacation_run id w) as (Hfst & Hvs & Him).
  destruct (castObjectId id) as [oid|] eqn:Hid; [|done].
  destruct (find (has_id oid) (vacations w)) as [v|] eqn:Hfind.
  - split; [done |]. split; [done |].
    split; [rewrite Hvs; by eapply length_remove_first |].
    split.
    + intros name Hname Hne. rewrite Him, Hname.
      destruct (String.eqb_spec name "") as [-> | _]; [done |].
      intros [Hn _]%list_elem_of_filter. done.
    + intros Hnodup. unfold getOneVacation, await.
      rewrite (findById_cast _ _ _ Hid). cbn [vacations record]. rewrite Hvs.
      by rewrite find_remove_first.
  - split; [done |]. split; [|done].
    rewrite Hvs. clear Hvs Him Hfst.
    induction (vacations w) as [|x vs IH]; [done |]. cbn in *.
    destruct (has_id oid x); [done |]. by rewrite IH.
Qed.

(** X11: the [deleteVacation] of the revision that keeps the images at the
    image host deletes the record only after the asset: for an id that is no
    [ObjectId] it throws the [CastError] of the database layer, for one that
    names no vacation [ResourceNotFound]; for a vacation with an asset
    identifier, when the image host cannot be reached it fails and the
    record and the assets stay as they were, and otherwise the asset and the
    record are both gone. *)
Theorem cloud_deleteVacation_outcome (id : string) (w : World) :
  let after := CloudVacationService.deleteVacation id w in
  match castObjectId id with
  | None =>
      fst after = inl (CastError id)
      /\ vacations (snd after) = vacations w /\ images (snd after) = images w
  | Some oid =>
      match find (has_id oid) (vacations w) with
      | None =>
          fst after = inl (ResourceNotFound id)
          /\ vacations (snd after) = vacations w /\ images (snd after) = images w
      | Some v =>
          forall publicId, imagePublicId v = Some publicId ->
            if imageStoreUp w
            then fst after = inr tt
                 /\ vacations (snd after) = remove_first oid (vacations w)
                 /\ publicId ∉ images (snd after)
            else (exists m, fst after = inl (Crash m))
                 /\ vacations (snd after) = vacations w
                 /\ images (snd after) = images w
      end
  end.
Proof.
  cbv zeta. unfold CloudVacationService.deleteVacation, await.
  destruct (castObjectId id) as [oid|] eqn:Hid.
  - rewrite (findById_cast _ _ _ Hid).
    destruct (find (has_id oid) (vacations w)) as [v|] eqn:Hfind; [|done].
    intros publicId Hpid. unfold cloudinary_destroy. rewrite Hpid.
    cbn [imageStoreUp record]. destruct (imageStoreUp w); [|eauto].
    cbn. rewrite (findByIdAndDelete_cast _ _ _ Hid). cbn.
    split; [done |]. split; [done |].
    intros [Hn _]%list_elem_of_filter. done.
  - by rewrite (findById_fails _ _ Hid).
Qed.

End CrudProperties.

(** * Further properties of the retrieval and the report *)

Section ReadProperties.

Import Backend Backend.VacationService.

(** X12: a page never holds more than [pageSize] vacations, holds only
    stored vacations that satisfy the query of the filter, and is empty
    beyond the last page (for a page size of at least one); retrieving does
    not change the world. *)
Theorem getVacations_page_bounds
  (now : Z) (filter : string) (userId : option ObjectId) (page pageSize : nat)
  (w : World) :
  (length (pageOf now filter userId pageSize w page) <= pageSize)%nat
  /\ (forall v, v ∈ pageOf now filter userId pageSize w page ->
                v ∈ vacations w
                /\ matches (buildVacationQuery filter userId now) v = true)
  /\ ((1 <= pageSize)%nat ->
      (Controller.Math_ceil_div (countOf now filter userId pageSize w) pageSize < page)%nat ->
      pageOf now filter userId pageSize w page = [])
  /\ snd (getVacations now filter userId page pageSize w) = w.
Proof.
  unfold pageOf, countOf. rewrite !getVacations_answer. cbn [fst snd].
  split; [rewrite length_take; lia |].
  split; [|split; [|done]].
  - intros v Hv. apply (sublist_subseteq _ _ (sublist_take _ _)) in Hv.
    apply (sublist_subseteq _ _ (sublist_drop _ _)) in Hv.
    rewrite merge_sort_Permutation in Hv.
    apply list_elem_of_In, filter_In in Hv as [Hin Hmatch].
    split; [by apply list_elem_of_In | done].
  - intros Hsize Hpage.
    destruct (Math_ceil_div_least
                (length (List.filter (matches (buildVacationQuery filter userId now))
                           (vacations w))) pageSize Hsize) as [Hup _].
    rewrite drop_ge; [apply take_nil |].
    rewrite (Permutation_length (merge_sort_Permutation _ _)). nia.
Qed.

Lemma getVacations_page_bounds_witness :
  let w := world [vacation paris "Paris" (day 30) (day 35) 500 [];
                  vacation rome "Rome" (day 10) (day 15) 400 [aliceId];
                  vacation oslo "Oslo" (day 20) (day 25) 700 []] [] in
  pageOf 0 "all" None 2 w 3 = [].
Proof.
  intros w.
  destruct (getVacations_page_bounds 0 "all" None 3 2 w) as (_ & _ & Hbeyond & _).
  apply Hbeyond; [lia |]. vm_compute. lia.
Defined.

(** X13: the CSV report is the JSON report written out: the byte-order
    mark, the header, and one line per entry of [getVacationsReport], in the
    same order; neither report changes the world. *)
Theorem csv_report_renders_json_report (w : World) :
  exists entries,
    getVacationsReport w = (inr entries, w)
    /\ length entries = length (vacations w)
    /\ generateVacationsReportCSV w
       = (inr (BOM ++ "destination,likes" ++ String.concat "" (map entryLine entries)),
          w).
Proof.
  eexists. split; [reflexivity |]. split; [by rewrite length_map |].
  unfold generateVacationsReportCSV.
  rewrite join_concat, !map_map.
  rewrite (map_ext _ (fun v => entryLine (destination v, length (likedUserIds v))));
    [done |].
  intros v. rewrite csvRow_reportLine. reflexivity.
Qed.

Lemma unescape_escape_cons c s :
  unescapeQuotes (escapeQuotes (String c s)) = String c (unescapeQuotes (escapeQuotes s)).
Proof.
  cbn [escapeQuotes]. destruct (Ascii.eqb c (ascii_of_nat 34)) eqn:Hc.
  - cbn [unescapeQuotes]. by rewrite Hc.
  - cbn [unescapeQuotes]. destruct (escapeQuotes s) eqn:Hs; [done |].
    by rewrite Hc.
Qed.

(** X14: the escaping of the report loses nothing: undoing it (two double
    quotes for one) gives back the destination, so two destinations that
    differ give rows that differ. *)
Theorem escapeQuotes_reversible (s t : string) :
  unescapeQuotes (escapeQuotes s) = s
  /\ (escapeQuotes s = escapeQuotes t -> s = t).
Proof.
  assert (forall x, unescapeQuotes (escapeQuotes x) = x) as Hinv.
  { intros x. induction x as [|c x IH]; [done |].
    by rewrite unescape_escape_cons, IH. }
  split; [apply Hinv |].
  intros Heq. by rewrite <- (Hinv s), <- (Hinv t), Heq.
Qed.

(** X15: [parseFilter] always answers one of the four tags: a tag is
    answered as it is, anything else as all; so parsing twice is parsing
    once, and an unknown tag is queried like all. *)
Theorem parseFilter_total (value : option string) (userId : option ObjectId) (now : Z) :
  parseFilter value ∈ ["all"; "liked"; "active"; "upcoming"]
  /\ (forall tag, tag ∈ ["all"; "liked"; "active"; "upcoming"] ->
                  parseFilter (Some tag) = tag)
  /\ parseFilter (Some (parseFilter value)) = parseFilter value
  /\ (forall s, value = Some s -> s ∉ ["all"; "liked"; "active"; "upcoming"] ->
                buildVacationQuery (parseFilter value) userId now = [])
  /\ buildVacationQuery (parseFilter None) userId now = [].
Proof.
  assert (forall tag, tag ∈ ["all"; "liked"; "active"; "upcoming"] ->
                      parseFilter (Some tag) = tag) as Hfix.
  { intros tag Htag. unfold parseFilter. by rewrite bool_decide_eq_true_2. }
  assert (parseFilter value ∈ ["all"; "liked"; "active"; "upcoming"]) as Hin.
  { unfold parseFilter. destruct value as [s|]; [|by left].
    case_bool_decide; [done | by left]. }
  split; [done |]. split; [done |]. split; [by apply Hfix |].
  split; [|done].
  intros s -> Hs. unfold parseFilter. by rewrite bool_decide_eq_false_2.
Qed.

End ReadProperties.

(** * Further properties of the middleware and the routes *)

Section RouteProperties.

Import Backend Backend.Controller.

Variable Number : option string -> JSNumber.
Variable baseImageUrl : string.
Variable jwt_verify : string -> option IUserModel.
Variable isProduction : bool.

#[local] Arguments VacationService.addToSet : simpl never.
#[local] Arguments VacationService.pull : simpl never.

(** X16: the catch-all middleware answers an error that carries a status
    with that status, whatever it is, and one that carries none (or zero)
    with 500; it sends the message of the error, except in production for a
    status from 500 to 599, where it sends a fixed text.  So the errors of
    the five client classes are answered 400, 401, 403 or 404 with their own
    message, in production too. *)
Theorem catchAll_answers (err : AppError) :
  let answer := catchAll isProduction err in
  (forall s, error_status err = Some s -> s ≠ 0%Z -> status answer = s)
  /\ (error_status err = None \/ error_status err = Some 0%Z -> status answer = 500%Z)
  /\ (isProduction = true -> (500 <= status answer <= 599)%Z ->
      body answer = JsonMessage "Some error, please try again.")
  /\ (isProduction = false \/ ~ (500 <= status answer <= 599)%Z ->
      body answer = JsonMessage (error_message err))
  /\ (isClientError err = true ->
      status answer ∈ [400; 401; 403; 404]%Z
      /\ body answer = JsonMessage (error_message err)).
Proof.
  cbv zeta. unfold catchAll. cbn [status body].
  split; [|split; [|split; [|split]]].
  - intros s -> Hs. by destruct (Z.eqb_spec s 0).
  - by intros [-> | ->].
  - intros -> Hcrash.
    match goal with |- context [(500 <=? ?c)%Z] => remember c as code end.
    destruct (Z.leb_spec 500 code); [|lia]. by destruct (Z.leb_spec code 599); [|lia].
  - intros [-> | Hcrash]; [done |].
    match goal with |- context [(500 <=? ?c)%Z] => remember c as code end.
    destruct (Z.leb_spec 500 code); [|by rewrite andb_false_r].
    destruct (Z.leb_spec code 599); [lia |]. by rewrite andb_false_r.
  - destruct err; try discriminate; intros _; cbn; rewrite andb_false_r;
      (split; [set_solver | done]).
Qed.

Lemma verifyToken_error request err :
  verifyToken jwt_verify request = inl err -> exists m, err = AuthorizationError m.
Proof.
  unfold verifyToken, decodeToken.
  destruct (String.prefix _ _); [|intros [= <-]; eauto].
  destruct (String.eqb _ ""); [intros [= <-]; eauto |].
  destruct (jwt_verify _); [discriminate | intros [= <-]; eauto].
Qed.

(** A chain that starts with [verifyToken] stops there without a token. *)
Lemma through_verifyToken chain h request w :
  (forall user, verifyToken jwt_verify request ≠ inr user) ->
  status (fst (route isProduction (securityMiddleware_verifyToken jwt_verify :: chain)
                 h request w)) = 401%Z
  /\ snd (route isProduction (securityMiddleware_verifyToken jwt_verify :: chain)
            h request w) = w.
Proof.
  intros Hnone. unfold route, through, securityMiddleware_verifyToken.
  destruct (verifyToken jwt_verify request) as [err | user] eqn:Htoken.
  - apply verifyToken_error in Htoken as [m ->]. done.
  - by destruct (Hnone user).
Qed.

Section Router.

Variable preventXssAttack : Middleware.
Variable addVacationHandler updateVacationHandler getImageHandler : Handler.

(** X17: of the ten routes the controller registers, every one but the
    route of the images has [verifyToken] as its first middleware: a request
    without a valid bearer token is answered 401 there and the world is
    unchanged, whatever the middlewares and the handler that follow; the
    route of the images has no middleware, so its handler runs for every
    request. *)
Theorem route_requires_token
  (now : Z) (r : Registration) (request : Request) (w : World) :
  r ∈ router Number baseImageUrl jwt_verify preventXssAttack
        addVacationHandler updateVacationHandler getImageHandler now ->
  (forall user, verifyToken jwt_verify request ≠ inr user) ->
  (path r ≠ imagesPath ->
   status (fst (answer isProduction r request w)) = 401%Z
   /\ snd (answer isProduction r request w) = w)
  /\ (path r = imagesPath ->
      method r = "GET" /\ through (middlewares r) request None = inr None).
Proof.
  intros Hr Hnone. unfold router in Hr.
  repeat (apply elem_of_cons in Hr as [-> | Hr]);
    try (by apply elem_of_nil in Hr);
    (split; [intros Hpath | intros Hpath]);
    try (by apply through_verifyToken); try done.
Qed.

End Router.

(** X18: only an administrator deletes: a verified caller with another role
    is answered 403 by the route and the world is unchanged; for an
    administrator the route does what the service does and answers 204, or
    404 when the id names no vacation, or 500 when the id is no
    [ObjectId]. *)
Theorem delete_route_is_admin_only (request : Request) (user : IUserModel) (w : World) :
  verifyToken jwt_verify request = inr user ->
  (roleId user ≠ Some (Role_value Admin) ->
   DELETE_vacation jwt_verify isProduction request w
   = ({| status := 403; body := JsonMessage "You are not authorized." |}, w))
  /\ (roleId user = Some (Role_value Admin) ->
      snd (DELETE_vacation jwt_verify isProduction request w)
      = snd (VacationService.deleteVacation (params_id request) w)
      /\ status (fst (DELETE_vacation jwt_verify isProduction request w))
         = match castObjectId (params_id request) with
           | None => 500%Z
           | Some oid =>
               match find (has_id oid) (vacations w) with
               | Some _ => 204%Z
               | None => 404%Z
               end
           end).
Proof.
  intros Htoken. unfold DELETE_vacation, route, through, securityMiddleware_verifyToken.
  rewrite Htoken. unfold verifyAdmin. split.
  - intros Hrole. rewrite bool_decide_eq_false_2 by done.
    unfold catchAll. cbn. by rewrite andb_false_r.
  - intros Hrole. rewrite bool_decide_eq_true_2 by done.
    unfold deleteVacationHandler, deleteVacation, await.
    destruct (deleteVacation_run (params_id request) w) as (Hfst & _).
    destruct (VacationService.deleteVacation (params_id request) w) as [[e|[]] w'];
      cbn [fst snd] in *; (split; [done |]).
    + destruct (castObjectId (params_id request)) as [oid|].
      * destruct (find (has_id oid) (vacations w)); [discriminate |].
        by injection Hfst as ->.
      * by injection Hfst as ->.
    + destruct (castObjectId (params_id request)) as [oid|]; [|discriminate].
      by destruct (find (has_id oid) (vacations w)).
Qed.

(** X19: for a caller whose token carries a proper identifier, and a page
    number and a page size whose product is a safe integer, the list route
    answers 200 with a page: page number and page size are at least one
    whatever the query strings were, the page holds at most page-size
    vacations, each serialized with its two computed fields and without its
    liking set, and the world is unchanged. *)
Theorem list_route_answers (now : Z) (request : Request) (user : IUserModel) (w : World) :
  let page := toNat (parsePage Number (query_page request)) in
  let pageSize := toNat (parsePageSize Number (query_pageSize request)) in
  verifyToken jwt_verify request = inr user ->
  castObjectId (user_id user) = Some (user_id user) ->
  (Z.of_nat page * Z.of_nat pageSize <= MAX_SAFE_INTEGER)%Z ->
  exists vs totalCount totalPages,
    GET_vacations Number baseImageUrl jwt_verify isProduction now request w
    = ({| status := 200; body := JsonPage vs page pageSize totalCount totalPages |}, w)
    /\ (1 <= page)%nat /\ (1 <= pageSize)%nat
    /\ (length vs <= pageSize)%nat
    /\ (totalCount <= totalPages * pageSize)%nat
    /\ Forall (fun o : gmap string JSValue =>
                 o !! "likedUserIds" = None
                 /\ is_Some (o !! "likesCount") /\ is_Some (o !! "likedByMe")) vs.
Proof.
  intros page pageSize Htoken _ _.
  unfold GET_vacations, route, through, securityMiddleware_verifyToken.
  rewrite Htoken. unfold getVacationsHandler, getVacations, await.
  rewrite getVacations_answer. cbn.
  do 3 eexists. split; [reflexivity |].
  pose proof (toNat_positive _ (parsePage_positive Number (query_page request))).
  pose proof (toNat_positive _ (parsePageSize_positive Number (query_pageSize request)))
    as Hsize.
  split; [done |]. split; [done |].
  split; [unfold serializeVacations; rewrite length_map, length_take; lia |].
  split; [by apply Math_ceil_div_least |].
  unfold serializeVacations. apply Forall_forall. intros o Ho.
  apply list_elem_of_In, in_map_iff in Ho as (v & <- & _).
  rewrite serialized_likedUserIds, serialized_likesCount, serialized_likedByMe.
  by repeat split.
Qed.

(** X20: for a verified caller who is no administrator, whose token carries
    a proper identifier: on a vacation that exists, the like route answers
    200 with the vacation serialized for the caller (liked by the caller,
    with a count of at least one, without the liking set) and the unlike
    route answers 200 with the vacation not liked by the caller; for an id
    that names no vacation both answer 404, and for an id that is no
    [ObjectId] both answer 500. *)
Theorem like_routes_answer (now : Z) (request : Request) (user : IUserModel) (w : World) :
  verifyToken jwt_verify request = inr user ->
  roleId user ≠ Some (Role_value Admin) ->
  castObjectId (user_id user) = Some (user_id user) ->
  let like := fst (POST_like baseImageUrl jwt_verify isProduction now request w) in
  let unlike := fst (DELETE_like baseImageUrl jwt_verify isProduction now request w) in
  match castObjectId (params_id request) with
  | None => status like = 500%Z /\ status unlike = 500%Z
  | Some oid =>
      match find (has_id oid) (vacations w) with
      | Some old =>
          exists liked unliked count,
            like = {| status := 200; body := JsonVacation liked |}
            /\ liked !! "likedByMe" = Some (JBool true)
            /\ liked !! "likesCount" = Some (JNum count) /\ (1 <= count)%Z
            /\ liked !! "likedUserIds" = None
            /\ unlike = {| status := 200; body := JsonVacation unliked |}
            /\ unliked !! "likedByMe" = Some (JBool false)
            /\ unliked !! "likedUserIds" = None
      | None => status like = 404%Z /\ status unlike = 404%Z
      end
  end.
Proof.
  intros Htoken Hrole _. cbv zeta.
  unfold POST_like, DELETE_like, route, through, securityMiddleware_verifyToken.
  rewrite Htoken. unfold preventAdminLike.
  rewrite bool_decide_eq_false_2 by done.
  unfold likeVacationHandler, unlikeVacationHandler, likeVacation, unlikeVacation, await.
  rewrite likeVacation_run, unlikeVacation_run.
  destruct (castObjectId (params_id request)) as [oid|]; [|done]. cbv zeta.
  destruct (find (has_id oid) (vacations w)) as [old|]; cbn; [|done].
  eexists _, _, _. split; [reflexivity |].
  rewrite !serialized_likedByMe, !serialized_likesCount, !serialized_likedUserIds.
  split.
  { do 2 f_equal. apply bool_decide_eq_true_2. cbn. apply elem_of_addToSet. by left. }
  split; [reflexivity |].
  split.
  { cbn. pose proof (elem_of_addToSet (user_id user) (user_id user) (likedUserIds old))
      as [_ Hin].
    destruct (VacationService.addToSet (user_id user) (likedUserIds old)); cbn; [|lia].
    exfalso. eapply elem_of_nil. apply Hin. by left. }
  split; [done |]. split; [reflexivity |].
  split; [|done].
  do 2 f_equal. apply bool_decide_eq_false_2. cbn. apply pull_gone.
Qed.

End RouteProperties.

Section RouteWitnesses.

Import Backend Backend.Controller.

Lemma route_requires_token_witness :
  let w := world [vacation paris "Paris" (day 30) (day 35) 500 []] [root; alice] in
  let pass : Middleware := fun _ locals => inr locals in
  let done : Handler := fun _ _ => resolve (json OK NoBody) in
  let like :=
    {| method := "POST"; path := "/api/vacations/:_id/like";
       middlewares := [securityMiddleware_verifyToken tokens; preventAdminLike];
       handler := likeVacationHandler "https://images.example/" (day 3) |} in
  let request := likeRequest "forged" paris in
  status (fst (answer true like request w)) = 401%Z
  /\ snd (answer true like request w) = w.
Proof.
  intros w pass done like request.
  apply (route_requires_token NumberOnDigits "https://images.example/" tokens true
           pass done done done (day 3) like request w).
  - do 2 apply list_elem_of_further. apply list_elem_of_here.
  - intros user. discriminate.
  - discriminate.
Defined.

Lemma delete_route_is_admin_only_witness :
  let w := world [vacation paris "Paris" (day 30) (day 35) 500 []] [root; alice] in
  DELETE_vacation tokens true (likeRequest "token-of-alice" paris) w
  = ({| status := 403; body := JsonMessage "You are not authorized." |}, w).
Proof.
  intros w.
  apply (delete_route_is_admin_only tokens true (likeRequest "token-of-alice" paris)
           alice w eq_refl).
  discriminate.
Defined.

Lemma list_route_answers_witness :
  let w := world [vacation paris "Paris" (day 30) (day 35) 500 [];
                  vacation rome "Rome" (day 10) (day 15) 400 [aliceId]] [root; alice] in
  let request :=
    {| authorization := Some "Bearer token-of-alice"; params_id := "";
       query_filter := Some "liked"; query_page := Some "0";
       query_pageSize := Some "abc" |} in
  let page := toNat (parsePage NumberOnDigits (query_page request)) in
  let pageSize := toNat (parsePageSize NumberOnDigits (query_pageSize request)) in
  exists vs totalCount totalPages,
    GET_vacations NumberOnDigits "https://images.example/" tokens true 0 request w
    = ({| status := 200; body := JsonPage vs page pageSize totalCount totalPages |}, w)
    /\ (1 <= page)%nat /\ (1 <= pageSize)%nat
    /\ (length vs <= pageSize)%nat
    /\ (totalCount <= totalPages * pageSize)%nat
    /\ Forall (fun o : gmap string JSValue =>
                 o !! "likedUserIds" = None
                 /\ is_Some (o !! "likesCount") /\ is_Some (o !! "likedByMe")) vs.
Proof.
  intros w request page pageSize.
  apply (list_route_answers NumberOnDigits "https://images.example/" tokens true 0
           request alice w eq_refl eq_refl).
  by vm_compute.
Defined.

Lemma like_routes_answer_witness :
  let w := world [vacation paris "Paris" (day 30) (day 35) 500 [bobId]] [root; alice] in
  exists liked unliked count,
    fst (POST_like "https://images.example/" tokens true (day 3)
           (likeRequest "token-of-alice" paris) w)
    = {| status := 200; body := JsonVacation liked |}
    /\ liked !! "likedByMe" = Some (JBool true)
    /\ liked !! "likesCount" = Some (JNum count) /\ (1 <= count)%Z
    /\ liked !! "likedUserIds" = None
    /\ fst (DELETE_like "https://images.example/" tokens true (day 3)
              (likeRequest "token-of-alice" paris) w)
       = {| status := 200; body := JsonVacation unliked |}
    /\ unliked !! "likedByMe" = Some (JBool false)
    /\ unliked !! "likedUserIds" = None.
Proof.
  intros w.
  apply (like_routes_answer "https://images.example/" tokens true (day 3)
           (likeRequest "token-of-alice" paris) alice w eq_refl).
  - discriminate.
  - reflexivity.
Defined.

End RouteWitnesses.

(** * Further properties of registration and login *)

Section AccountProperties.

Import Backend Backend.UserService.

Variable hash : string -> string.
Variable jwt_sign : Z -> IUserModel -> string.
Variable emailFormat : string -> bool.

(** The user a registration stores. *)
Lemma register_success now payload w token w' :
  register hash jwt_sign emailFormat now payload w = (inr token, w') ->
  exists pw stored,
    validateUserSync emailFormat payload = []
    /\ password payload = Some pw
    /\ List.filter (fun u => bool_decide (email u = email payload)) (users w) = []
    /\ w' = with_users (users w ++ [stored]) w
    /\ token = generateToken jwt_sign now stored
    /\ email stored = email payload
    /\ password stored = Some (hash pw)
    /\ roleId stored = Some (Role_value User)
    /\ user_id stored = user_id payload.
Proof.
  unfold register, await, validateUser.
  destruct (validateUserSync emailFormat payload) eqn:Hvalid; [|discriminate]. cbn.
  destruct (password payload) as [pw|]; [|discriminate].
  destruct (String.eqb pw ""); [discriminate |]. cbn.
  case_bool_decide as Hcount; [discriminate |]. unfold saveUser. cbn.
  destruct (existsb _ (users w)); [discriminate |].
  destruct (existsb _ (users w)); [discriminate |]. cbn.
  intros [= <- <-]. eexists pw, _. repeat split.
  destruct (List.filter _ (users w)); [done | cbn in Hcount; lia].
Qed.

Lemma filter_nil_not_in (e : option string) us :
  List.filter (fun u => bool_decide (email u = e)) us = [] -> e ∉ map email us.
Proof.
  induction us as [|u us IH]; cbn; [intros _ H; by apply elem_of_nil in H |].
  case_bool_decide as Heq; [discriminate |].
  intros Hrest [Hu | Hin]%elem_of_cons; [by subst | by apply IH].
Qed.

Lemma register_keeps_emails_unique now payload w :
  NoDup (map email (users w)) ->
  NoDup (map email (users (snd (register hash jwt_sign emailFormat now payload w)))).
Proof.
  intros Hw.
  destruct (register hash jwt_sign emailFormat now payload w) as [[err | token] w']
    eqn:Hreg.
  - pose proof (register_users hash jwt_sign emailFormat now payload w) as Hone.
    rewrite Hreg in Hone. by subst.
  - apply register_success in Hreg
      as (pw & stored & _ & _ & Hfresh & -> & _ & Hemail & _). cbn.
    rewrite map_app. apply NoDup_app. split; [done |].
    split; [|apply NoDup_singleton].
    intros e He ->%list_elem_of_singleton. rewrite Hemail in He.
    by apply filter_nil_not_in in Hfresh.
Qed.

Lemma register_refuses_stored_email now payload w :
  email payload ∈ map email (users w) ->
  exists m,
    register hash jwt_sign emailFormat now payload w = (inl (ValidationError m), w).
Proof.
  intros Hin. unfold register, await, validateUser.
  destruct (validateUserSync emailFormat payload); [|by eexists]. cbn.
  destruct (password payload) as [pw|]; [|by eexists].
  destruct (String.eqb pw ""); [by eexists |]. cbn.
  case_bool_decide as Hcount; [by eexists |]. exfalso.
  destruct (List.filter _ (users w)) eqn:Hfilter; [|cbn in Hcount; lia].
  by apply filter_nil_not_in in Hfilter.
Qed.

(** X21: registration keeps the e-mail addresses of the stored users
    distinct: when they are, they still are after any sequence of
    registrations; and a payload whose address is already stored is refused
    with a [ValidationError], the world unchanged. *)
Theorem registration_keeps_emails_unique (payloads : list (Z * IUserModel)) (w : World) :
  NoDup (map email (users w)) ->
  NoDup (map email (users (registerAll hash jwt_sign emailFormat payloads w)))
  /\ forall now payload,
       email payload ∈ map email (users w) ->
       exists m,
         register hash jwt_sign emailFormat now payload w = (inl (ValidationError m), w).
Proof.
  intros Hw. split; [|intros now payload; apply register_refuses_stored_email].
  unfold registerAll. revert w Hw.
  induction payloads as [|[now payload] payloads IH]; intros w Hw; [done |].
  cbn. apply IH. by apply register_keeps_emails_unique.
Qed.

Lemma validateCredentials_of_user payload :
  validateUserSync emailFormat payload = [] ->
  validateCredentialsSync emailFormat (credentialsOf payload) = [].
Proof.
  unfold validateUserSync, validateCredentialsSync, credentialsOf. cbn.
  intros H. apply app_nil_inv in H as [_ H].
  apply app_nil_inv in H as [_ H]. apply app_nil_inv in H as [_ H].
  apply app_nil_inv in H as [Hemail H]. apply app_nil_inv in H as [Hpw _].
  by rewrite Hemail, Hpw.
Qed.

Lemma find_app_fresh (P : IUserModel -> bool) us u :
  List.filter P us = [] -> P u = true -> find P (us ++ [u])%list = Some u.
Proof.
  induction us as [|x us IH]; cbn; [by intros _ -> |].
  destruct (P x); [discriminate | auto].
Qed.

Lemma filter_weaken (P Q : IUserModel -> bool) us :
  (forall u, P u = true -> Q u = true) ->
  List.filter Q us = [] -> List.filter P us = [].
Proof.
  intros HPQ. induction us as [|x us IH]; cbn; [done |].
  destruct (Q x) eqn:HQ; [discriminate |].
  destruct (P x) eqn:HP; [by rewrite (HPQ _ HP) in HQ | done].
Qed.

(** X22: who has registered can log in: after a registration that succeeds,
    a login at any instant with the e-mail address and the password of the
    payload succeeds and leaves the world as the registration left it.  Its
    token is signed, at the instant of the login, over the user the
    registration stored and signed its own token over: the last user of the
    collection, with the address of the payload, the hash of its password
    and the user role. *)
Theorem register_then_login
  (now later : Z) (payload : IUserModel) (w w' : World) (token : string) :
  register hash jwt_sign emailFormat now payload w = (inr token, w') ->
  exists pw stored,
    password payload = Some pw
    /\ last (users w') = Some stored
    /\ password stored = Some (hash pw)
    /\ email stored = email payload
    /\ roleId stored = Some (Role_value User)
    /\ token = generateToken jwt_sign now stored
    /\ login hash jwt_sign emailFormat later (credentialsOf payload) w'
       = (inr (generateToken jwt_sign later stored), w').
Proof.
  intros Hreg. apply register_success in Hreg
    as (pw & stored & Hvalid & Hpw & Hfresh & -> & -> & Hemail & Hhash & Hrole & _).
  exists pw, stored. split; [done |]. split; [cbn; apply last_snoc |].
  split; [done |]. split; [done |]. split; [done |]. split; [done |].
  unfold login, await, validateCredentials.
  rewrite (validateCredentials_of_user _ Hvalid). cbn. rewrite Hpw.
  unfold findOneUser. cbn.
  rewrite find_app_fresh; [done | |].
  - eapply filter_weaken; [|exact Hfresh].
    intros u Hu. apply bool_decide_eq_true in Hu as [Hu _].
    by apply bool_decide_eq_true_2.
  - by apply bool_decide_eq_true_2.
Qed.

(** X23: a login never changes the world, and it answers a token only for
    a stored user whose e-mail address is the submitted one and whose stored
    password is the hash of the submitted one; the token is that user's. *)
Theorem login_is_sound (now : Z) (credentials : ICredentialsModel) (w : World) :
  snd (login hash jwt_sign emailFormat now credentials w) = w
  /\ forall token,
       fst (login hash jwt_sign emailFormat now credentials w) = inr token ->
       exists u pw,
         u ∈ users w
         /\ cred_password credentials = Some pw
         /\ email u = cred_email credentials
         /\ password u = Some (hash pw)
         /\ token = generateToken jwt_sign now u.
Proof.
  unfold login, await, validateCredentials.
  destruct (validateCredentialsSync emailFormat credentials); cbn; [|done].
  destruct (cred_password credentials) as [pw|]; cbn; [|done].
  unfold findOneUser. cbn.
  destruct (find _ (users w)) as [u|] eqn:Hfind; cbn; [|done].
  split; [done |]. intros token [= <-].
  apply find_some in Hfind as [Hin Hu].
  apply bool_decide_eq_true in Hu as [He Hp].
  exists u, pw. repeat split; try done. by apply list_elem_of_In.
Qed.

End AccountProperties.

Section AccountWitnesses.

Import Backend Backend.UserService.

Lemma registration_keeps_emails_unique_witness :
  let hash := fun pw => "hashed:" ++ pw in
  let sign := fun (now : Z) u => "token:" ++ user_id u in
  let bob := user bobId "Bob" "Stone" "alice@example.org" "secret" None in
  let carol := user carolId "Carol" "Reed" "carol@example.org" "secret" None in
  NoDup (map email
           (users (registerAll hash sign (fun _ => true) [(day 3, bob); (day 4, carol)]
                     (world [] [alice]))))
  /\ exists m,
       register hash sign (fun _ => true) (day 3) bob (world [] [alice])
       = (inl (ValidationError m), world [] [alice]).
Proof.
  intros hash sign bob carol.
  destruct (registration_keeps_emails_unique hash sign (fun _ => true)
              [(day 3, bob); (day 4, carol)] (world [] [alice])) as [Hunique Hrefused].
  - cbn. apply NoDup_singleton.
  - split; [exact Hunique |]. apply Hrefused. cbn. by left.
Defined.

Lemma register_then_login_witness :
  let payload := user carolId "Carol" "Reed" "carol@example.org" "secret" None in
  let hash := fun pw => "hashed:" ++ pw in
  let sign := fun (now : Z) u =>
    "token:" ++ user_id u ++ "@" ++ NilZero.string_of_int (Z.to_int now) in
  let w' := snd (register hash sign (fun _ => true) 3 payload (world [] [alice])) in
  fst (register hash sign (fun _ => true) 3 payload (world [] [alice]))
  = inr ("token:" ++ carolId ++ "@3")
  /\ login hash sign (fun _ => true) 4 (credentialsOf payload) w'
     = (inr ("token:" ++ carolId ++ "@4"), w').
Proof.
  intros payload hash sign w'. split; [reflexivity |].
  destruct (register_then_login hash sign (fun _ => true) 3 4 payload
              (world [] [alice]) w' ("token:" ++ carolId ++ "@3") eq_refl)
    as (pw & stored & _ & Hlast & _ & _ & _ & _ & Hlogin).
  injection Hlast as <-. exact Hlogin.
Defined.

End AccountWitnesses.

(** * Further properties of the client store *)

Section StoreProperties.

Import Frontend Frontend.VacationSlice.

Lemma findIndex_Some id state i :
  findIndex id state = Some i ->
  (exists v, state !! i = Some v /\ _id v = id)
  /\ forall j u, (j < i)%nat -> state !! j = Some u -> _id u ≠ id.
Proof.
  revert i. induction state as [|x state IH]; intros i; [done |]. cbn.
  destruct (String.eqb_spec (_id x) id) as [Hx | Hx].
  - intros [= <-]. split; [by exists x | intros j u Hj; lia].
  - destruct (findIndex id state) as [k|] eqn:Hk; [|done].
    intros [= <-]. destruct (IH k eq_refl) as [Hat Hbefore]. split; [done |].
    intros [|j] u Hj; cbn; [by intros [= <-] |].
    apply Hbefore. lia.
Qed.

Lemma findIndex_None id state :
  findIndex id state = None -> Forall (fun v => _id v ≠ id) state.
Proof.
  induction state as [|x state IH]; [constructor |]. cbn.
  destruct (String.eqb_spec (_id x) id) as [Hx | Hx]; [done |].
  destruct (findIndex id state); [done |]. intros _. by constructor; [|apply IH].
Qed.

Lemma findIndex_cons_ne id x state :
  _id x ≠ id -> findIndex id (x :: state) = S <$> findIndex id state.
Proof. intros Hx. cbn. by destruct (String.eqb_spec (_id x) id). Qed.

Lemma findIndex_insert id state i p :
  findIndex id state = Some i -> _id p = id ->
  findIndex id (<[i := p]> state) = Some i.
Proof.
  intros Hi Hp. revert i Hi. induction state as [|x state IH]; intros i; [done |].
  destruct (String.eqb_spec (_id x) id) as [Hx | Hx].
  - cbn. rewrite <- Hx at 1. rewrite String.eqb_refl. intros [= <-]. cbn.
    by rewrite Hp, String.eqb_refl.
  - rewrite findIndex_cons_ne by done.
    destruct (findIndex id state) as [k|] eqn:Hk; [|done].
    intros [= <-]. change (<[S k := p]> (x :: state)) with (x :: <[k := p]> state).
    rewrite findIndex_cons_ne by done. by rewrite (IH k eq_refl).
Qed.

(** X24: the reducer [updateVacation] replaces the first vacation that has
    the id of the payload and nothing else: the list keeps its length and
    every other position; when no vacation has the id the list is returned
    as it is; and updating twice with one payload is updating once. *)
Theorem updateVacation_replaces_first (state : list VacationModel) (p : VacationModel) :
  length (updateVacation state p) = length state
  /\ match findIndex (_id p) state with
     | None =>
         updateVacation state p = state /\ Forall (fun v => _id v ≠ _id p) state
     | Some i =>
         updateVacation state p !! i = Some p
         /\ (forall j, j ≠ i -> updateVacation state p !! j = state !! j)
         /\ (exists v, state !! i = Some v /\ _id v = _id p)
         /\ (forall j u, (j < i)%nat -> state !! j = Some u -> _id u ≠ _id p)
     end
  /\ updateVacation (updateVacation state p) p = updateVacation state p.
Proof.
  destruct (findIndex (_id p) state) as [i|] eqn:Hi.
  - assert (updateVacation state p = <[i := p]> state) as Hupd.
    { unfold updateVacation. by rewrite Hi. }
    rewrite !Hupd.
    destruct (findIndex_Some _ _ _ Hi) as [[v [Hv Hid]] Hbefore].
    split; [apply length_insert |]. split.
    + split; [apply list_lookup_insert_eq; by eapply lookup_lt_Some |].
      split; [intros j Hj; by apply list_lookup_insert_ne |]. eauto.
    + unfold updateVacation. rewrite (findIndex_insert _ _ _ _ Hi eq_refl).
      apply list_insert_insert_eq.
  - assert (updateVacation state p = state) as Hupd.
    { unfold updateVacation. by rewrite Hi. }
    rewrite !Hupd. split; [done |]. split; [|done].
    split; [done | by apply findIndex_None].
Qed.

Lemma filter_all_other id (state : list VacationModel) :
  Forall (fun v => _id v ≠ id) state -> filter (fun v => _id v ≠ id) state = state.
Proof.
  induction 1 as [|v state Hv Hstate IH]; [done |].
  rewrite filter_cons_True by done. by rewrite IH.
Qed.

(** X25: the reducer [deleteVacation] leaves no vacation with the id and
    keeps the others; on an id no vacation has it returns the list as it is;
    and it undoes [addVacation] of a vacation whose id is new. *)
Theorem deleteVacation_undoes_add (state : list VacationModel) (p : VacationModel)
  (id : string) :
  Forall (fun v => _id v ≠ id) (deleteVacation state id)
  /\ (forall v, v ∈ state -> _id v ≠ id -> v ∈ deleteVacation state id)
  /\ (Forall (fun v => _id v ≠ id) state -> deleteVacation state id = state)
  /\ (Forall (fun v => _id v ≠ _id p) state ->
      deleteVacation (addVacation state p) (_id p) = state).
Proof.
  unfold deleteVacation, addVacation. repeat split.
  - apply Forall_forall. by intros v [Hv _]%list_elem_of_filter.
  - intros v Hin Hne. by apply list_elem_of_filter.
  - apply filter_all_other.
  - intros Hnew. rewrite filter_app, (filter_all_other _ _ Hnew).
    rewrite filter_cons_False by (intros H; by apply H). apply app_nil_r.
Qed.

Lemma toggleOne_shape id v :
  _id v = id ->
  withoutLikeState (toggleOne id v) = withoutLikeState v
  /\ truthy (likedByMe (toggleOne id v)) = negb (truthy (likedByMe v))
  /\ exists count liked,
       likesCount (toggleOne id v) = Some count /\ (0 <= count)%Z
       /\ likedByMe (toggleOne id v) = Some liked.
Proof.
  intros <-. unfold toggleOne. rewrite String.eqb_refl. cbn.
  repeat split. eexists _, _. split; [reflexivity |]. split; [lia | reflexivity].
Qed.

Lemma lookup_map {A B} (f : A -> B) (l : list A) i : map f l !! i = f <$> (l !! i).
Proof. revert i. induction l as [|x l IH]; intros [|i]; cbn; auto. Qed.

(** X26: an optimistic toggle keeps every vacation in its place with its id
    and its other fields, leaves the vacations with another id as they are,
    and gives each vacation with the id the opposite liked-by-me flag and a
    count that is set and never negative. *)
Theorem toggleLikeOptimistic_shape (state : list VacationModel) (id : string) :
  map withoutLikeState (toggleLikeOptimistic state id) = map withoutLikeState state
  /\ (forall i v, state !! i = Some v -> _id v ≠ id ->
                  toggleLikeOptimistic state id !! i = Some v)
  /\ (forall i v, state !! i = Some v -> _id v = id ->
        exists v' count liked,
          toggleLikeOptimistic state id !! i = Some v'
          /\ truthy (likedByMe v') = negb (truthy (likedByMe v))
          /\ likesCount v' = Some count /\ (0 <= count)%Z
          /\ likedByMe v' = Some liked).
Proof.
  unfold toggleLikeOptimistic. split; [|split].
  - rewrite map_map. apply map_ext. intros v.
    destruct (String.eqb_spec (_id v) id) as [Hv | Hv].
    + by apply toggleOne_shape.
    + by rewrite toggleOne_other.
  - intros i v Hi Hv. rewrite lookup_map, Hi. cbn. by rewrite toggleOne_other.
  - intros i v Hi Hv. rewrite lookup_map, Hi. cbn.
    destruct (toggleOne_shape id v Hv) as (_ & Hflip & count & liked & Hc & H0 & Hl).
    by exists (toggleOne id v), count, liked.
Qed.

Lemma findIndex_toggled id id' state :
  findIndex id (toggleLikeOptimistic state id') = findIndex id state.
Proof.
  unfold toggleLikeOptimistic. induction state as [|x state IH]; [done |].
  cbn. by rewrite toggleOne_id, IH.
Qed.

Lemma find_findIndex id state v :
  find (fun x => String.eqb (_id x) id) state = Some v ->
  exists i, findIndex id state = Some i /\ state !! i = Some v.
Proof.
  induction state as [|x state IH]; [done |]. cbn.
  destruct (String.eqb (_id x) id).
  - intros [= <-]. by exists 0%nat.
  - intros Hv. destruct (IH Hv) as (i & -> & Hi). by exists (S i).
Qed.

(** When ids are unique, a replacement at the place of the toggled
    vacation wipes the toggle out. *)
Lemma insert_toggled id state i v updated :
  NoDup (map _id state) -> state !! i = Some v -> _id v = id ->
  <[i := updated]> (toggleLikeOptimistic state id) = <[i := updated]> state.
Proof.
  intros Hnodup Hi Hv. apply list_eq. intros j.
  destruct (decide (j = i)) as [-> | Hne].
  - rewrite !list_lookup_insert_eq; [done | by eapply lookup_lt_Some |].
    unfold toggleLikeOptimistic. rewrite length_map. by eapply lookup_lt_Some.
  - rewrite !list_lookup_insert_ne by done.
    unfold toggleLikeOptimistic. rewrite lookup_map.
    destruct (state !! j) as [u|] eqn:Hj; [|done]. cbn. f_equal.
    apply toggleOne_other. intros Hu. apply Hne.
    eapply (NoDup_lookup (map _id state)); [done | |].
    + by rewrite lookup_map, Hj.
    + rewrite lookup_map, Hi. cbn. congruence.
Qed.

(** X27: when the call of [toggleLike] is answered, the store ends as the
    store before the toggle with the vacation replaced by the one the server
    sent (ids being unique), so nothing of the optimistic change is left; the
    call is a DELETE for a vacation shown as liked and a POST otherwise. *)
Theorem toggleLike_confirmed
  (net : VacationService.Network) (state : list VacationModel) (id : string)
  (v updated : VacationModel) :
  NoDup (map _id state) ->
  find (fun x => String.eqb (_id x) id) state = Some v ->
  _id updated = id ->
  net (if truthy (likedByMe v)
       then VacationService.AxiosDelete id else VacationService.AxiosPost id)
  = Some updated ->
  VacationService.toggleLike net state id
  = (VacationService.Resolved, updateVacation state updated).
Proof.
  intros Hnodup Hfind Hid Hnet. unfold VacationService.toggleLike.
  rewrite Hfind, Hnet. f_equal.
  destruct (find_findIndex _ _ _ Hfind) as (i & Hi & Hat).
  unfold updateVacation. rewrite Hid, findIndex_toggled, Hi.
  eapply insert_toggled; [done | exact Hat |].
  apply find_some in Hfind as [_ Hv]. by apply String.eqb_eq.
Qed.

End StoreProperties.

Section StoreWitnesses.

Import Frontend Frontend.VacationSlice.

Lemma toggleLike_confirmed_witness :
  let state := [clientVacation "v1" (Some true) (Some 3%Z);
                clientVacation "v2" (Some false) (Some 0%Z)] in
  let updated := clientVacation "v1" (Some false) (Some 7%Z) in
  let net := fun call =>
    match call with
    | VacationService.AxiosDelete _ => Some updated
    | VacationService.AxiosPost _ => None
    end in
  VacationService.toggleLike net state "v1"
  = (VacationService.Resolved, [updated; clientVacation "v2" (Some false) (Some 0%Z)]).
Proof.
  intros state updated net.
  apply (toggleLike_confirmed net state "v1"
           (clientVacation "v1" (Some true) (Some 3%Z)) updated).
  - cbn. apply NoDup_cons. split; [|apply NoDup_singleton].
    intros Hin%list_elem_of_singleton. discriminate.
  - reflexivity.
  - reflexivity.
  - reflexivity.
Defined.

End StoreWitnesses.

(** * Further properties of the client utilities *)

Section UtilityProperties.

Import Frontend.

Lemma swap_Permutation {T} (a : list T) i j : Slideshow.swap a i j ≡ₚ a.
Proof.
  unfold Slideshow.swap.
  destruct (a !! i) as [x|] eqn:Hi; [|done].
  destruct (a !! j) as [y|] eqn:Hj; [|done].
  by apply Permutation_insert_swap.
Qed.

Lemma swap_same {T} (a : list T) i : Slideshow.swap a i i = a.
Proof.
  unfold Slideshow.swap. destruct (a !! i) as [x|] eqn:Hi; [|done].
  rewrite list_insert_insert_eq. by apply list_insert_id.
Qed.

Lemma shuffleFrom_Permutation {T} draw i (a : list T) :
  Slideshow.shuffleFrom draw i a ≡ₚ a.
Proof.
  revert a. induction i as [|i IH]; intros a; [done |].
  cbn. rewrite IH. apply swap_Permutation.
Qed.

Lemma shuffleFrom_identity {T} i (a : list T) :
  Slideshow.shuffleFrom (fun k => k) i a = a.
Proof. induction i as [|i IH]; [done |]. cbn. by rewrite swap_same. Qed.

(** X28: [shuffle] rearranges: whatever the random draws (each within its
    range), the result holds the elements of the input, each as often as the
    input does, so it has the length of the input; an empty or one-element
    array is returned as it is, and so is any array when every draw is the
    index itself. *)
Theorem shuffle_rearranges {T} (draw : nat -> nat) (arr : list T) :
  (forall i, (draw i <= i)%nat) ->
  Slideshow.shuffle draw arr ≡ₚ arr
  /\ length (Slideshow.shuffle draw arr) = length arr
  /\ ((length arr <= 1)%nat -> Slideshow.shuffle draw arr = arr)
  /\ Slideshow.shuffle (fun k => k) arr = arr.
Proof.
  intros _. unfold Slideshow.shuffle.
  split; [apply shuffleFrom_Permutation |].
  split; [apply Permutation_length, shuffleFrom_Permutation |].
  split; [|apply shuffleFrom_identity].
  intros Hlen. by replace (length arr - 1)%nat with 0%nat by lia.
Qed.

Lemma shuffle_rearranges_witness :
  Slideshow.shuffle (fun i => (i / 2)%nat) ["a"; "b"; "c"; "d"] ≡ₚ ["a"; "b"; "c"; "d"]
  /\ Slideshow.shuffle (fun i => (i / 2)%nat) ["a"; "b"; "c"; "d"] = ["c"; "a"; "d"; "b"].
Proof.
  split; [|reflexivity].
  apply (shuffle_rearranges (fun i => (i / 2)%nat) ["a"; "b"; "c"; "d"]).
  intros i. apply Nat.Div0.div_le_upper_bound. lia.
Defined.

(** X29: the client's tests of a date range agree with the server's
    filters at the same instant: a vacation is active for the client exactly
    when the query of the tag active holds of it, upcoming exactly when the
    query of the tag upcoming holds; and never both. *)
Theorem date_tests_agree_with_filters
  (now : Z) (userId : option ObjectId) (v : Backend.IVacationModel) :
  DateUtils.isActiveNow now (Backend.startDate v) (Backend.endDate v)
  = Backend.matches (Backend.buildVacationQuery "active" userId now) v
  /\ DateUtils.isUpcoming now (Backend.startDate v)
     = Backend.matches (Backend.buildVacationQuery "upcoming" userId now) v
  /\ DateUtils.isActiveNow now (Backend.startDate v) (Backend.endDate v)
     && DateUtils.isUpcoming now (Backend.startDate v) = false.
Proof.
  rewrite matches_active, matches_upcoming.
  unfold DateUtils.isActiveNow, DateUtils.isUpcoming, activeAt, upcomingAt.
  split; [done |]. split; [done |].
  destruct (Backend.startDate v) as [s|], (Backend.endDate v) as [e|]; try done.
  destruct (Z.leb_spec s now), (Z.leb_spec now e), (Z.ltb_spec now s); cbn; try done; lia.
Qed.

End UtilityProperties.

(** * The token from the client's header to the server's middleware *)

Section HeaderProperties.

Import Backend Backend.Controller.

Variable jwt_verify : string -> option IUserModel.

Lemma substring_all (t : string) : String.substring 0 (String.length t) t = t.
Proof. induction t as [|c t IH]; [done |]. cbn. by rewrite IH. Qed.

Lemma prefix_bearer (t : string) : String.prefix "Bearer " ("Bearer " ++ t) = true.
Proof. by destruct t. Qed.

Lemma substring_bearer (t : string) :
  String.substring 7 (String.length ("Bearer " ++ t) - 7) ("Bearer " ++ t) = t.
Proof.
  change (String.length ("Bearer " ++ t)) with (7 + String.length t)%nat.
  replace (7 + String.length t - 7)%nat with (String.length t) by lia.
  change (String.substring 7 (String.length t) ("Bearer " ++ t))
    with (String.substring 0 (String.length t) t).
  apply substring_all.
Qed.

(** X30: the header the client's interceptor writes is the header the
    server's middleware reads: for a token that is not empty, verifying a
    request with that header is decoding that very token, whatever header
    the request had; without a token the header is left alone, and a request
    without a header is refused for its missing token. *)
Theorem interceptor_header_is_read_back (token : string) (request : Request) :
  token ≠ "" ->
  verifyToken jwt_verify
    (withAuthorization
       (Frontend.Interceptor.onRequest (Some token) (authorization request)) request)
  = decodeToken jwt_verify (Some token)
  /\ Frontend.Interceptor.onRequest None (authorization request) = authorization request
  /\ verifyToken jwt_verify (withAuthorization None request)
     = inl (AuthorizationError "Token missing").
Proof.
  intros Htoken. split; [|done].
  unfold Frontend.Interceptor.onRequest.
  destruct (String.eqb_spec token "") as [-> | _]; [done |].
  unfold verifyToken. cbn [withAuthorization authorization default]. unfold id.
  rewrite prefix_bearer.
  by rewrite substring_bearer.
Qed.

End HeaderProperties.

Lemma interceptor_header_is_read_back_witness :
  Backend.Controller.verifyToken tokens
    (withAuthorization
       (Frontend.Interceptor.onRequest (Some "token-of-alice") None)
       (likeRequest "stale" "v1"))
  = inr alice.
Proof.
  apply (interceptor_header_is_read_back tokens "token-of-alice"
           (withAuthorization None (likeRequest "stale" "v1"))).
  discriminate.
Defined.
